(** * Retrieval-augmented conversation engine (InspiraTEC-2024-Yachani)

    A shallow embedding of the two Streamlit pages
    [pages/3_chat.py] (chat mode) and [pages/5_document_chat.py]
    (document mode): the evidence aggregator [search_documents], the
    session store [load_agent_history] / [save_agent_history], the page
    extraction cache of [display_content_viewer] and the per-run script
    [main] of each page.

    Python [str] values are sequences of code points, modelled as [list N];
    files hold bytes, also [list N].  Exceptions are the [Raise] branch of
    [Result]. *)

From Stdlib Require Import NArith ZArith Lia String Ascii.
From stdpp Require Import base option list gmap.

Local Open Scope string_scope.
Local Open Scope list_scope.
Local Open Scope stdpp_scope.
Local Open Scope N_scope.

(** ** Python values *)

Abbreviation str := (list N).
Abbreviation bytes := (list N).

Inductive Result (A : Type) : Type :=
| Ok (a : A)
| Raise (e : str).
Arguments Ok {A} a.
Arguments Raise {A} e.

#[global] Instance Result_ret : MRet Result := fun A a => Ok a.
#[global] Instance Result_bind : MBind Result := fun A B f m =>
  match m with
  | Ok a => f a
  | Raise e => Raise e
  end.

(** ** UTF-8, the encoding of the session files *)

Definition is_surrogate (c : N) : bool := (0xD800 <=? c) && (c <=? 0xDFFF).

(** A Unicode scalar value: what a well-formed text is made of. *)
Definition is_scalar (c : N) : bool := (c <=? 0x10FFFF) && negb (is_surrogate c).

(** [None] is Python's UnicodeEncodeError (a lone surrogate). *)
Definition utf8_encode_char (c : N) : option bytes :=
  if c <? 0x80 then Some [c]
  else if c <? 0x800 then Some [0xC0 + c / 64; 0x80 + c mod 64]
  else if c <? 0x10000 then
    if is_surrogate c then None
    else Some [0xE0 + c / 4096; 0x80 + (c / 64) mod 64; 0x80 + c mod 64]
  else if c <=? 0x10FFFF then
    Some [0xF0 + c / 262144; 0x80 + (c / 4096) mod 64;
          0x80 + (c / 64) mod 64; 0x80 + c mod 64]
  else None.

Fixpoint utf8_encode (s : str) : option bytes :=
  match s with
  | [] => Some []
  | c :: s' =>
    match utf8_encode_char c, utf8_encode s' with
    | Some b, Some bs => Some (b ++ bs)
    | _, _ => None
    end
  end.

Definition is_cont (b : N) : bool := (0x80 <=? b) && (b <? 0xC0).

(** The strict decoder: overlong forms, surrogates and values above
    U+10FFFF are rejected ([None] is UnicodeDecodeError). *)
Fixpoint utf8_decode (bs : bytes) : option str :=
  match bs with
  | [] => Some []
  | b0 :: r0 =>
    if b0 <? 0x80 then cons b0 <$> utf8_decode r0
    else if b0 <? 0xC2 then None
    else if b0 <? 0xE0 then
      match r0 with
      | b1 :: r1 =>
        if is_cont b1
        then cons ((b0 - 0xC0) * 64 + (b1 - 0x80)) <$> utf8_decode r1
        else None
      | _ => None
      end
    else if b0 <? 0xF0 then
      match r0 with
      | b1 :: b2 :: r2 =>
        let c := (b0 - 0xE0) * 4096 + (b1 - 0x80) * 64 + (b2 - 0x80) in
        if is_cont b1 && is_cont b2 && (0x800 <=? c) && negb (is_surrogate c)
        then cons c <$> utf8_decode r2
        else None
      | _ => None
      end
    else if b0 <? 0xF5 then
      match r0 with
      | b1 :: b2 :: b3 :: r3 =>
        let c := (b0 - 0xF0) * 262144 + (b1 - 0x80) * 4096
                 + (b2 - 0x80) * 64 + (b3 - 0x80) in
        if is_cont b1 && is_cont b2 && is_cont b3
           && (0x10000 <=? c) && (c <=? 0x10FFFF)
        then cons c <$> utf8_decode r3
        else None
      | _ => None
      end
    else None
  end.

(** String literals of the source, written as UTF-8 text. *)
Definition lit (s : string) : str :=
  default [] (utf8_decode (map (fun b => N_of_ascii (ascii_of_byte b))
                               (list_byte_of_string s))).
Arguments lit : simpl never.

(** ** The [str] methods the pages use *)

(** [str.isspace] of one character, CPython's [_PyUnicode_IsWhitespace]. *)
Definition is_space (c : N) : bool :=
  ((0x09 <=? c) && (c <=? 0x0D)) || ((0x1C <=? c) && (c <=? 0x20))
  || (c =? 0x85) || (c =? 0xA0) || (c =? 0x1680)
  || ((0x2000 <=? c) && (c <=? 0x200A))
  || (c =? 0x2028) || (c =? 0x2029) || (c =? 0x202F)
  || (c =? 0x205F) || (c =? 0x3000).

Fixpoint lstrip (s : str) : str :=
  match s with
  | [] => []
  | c :: s' => if is_space c then lstrip s' else s
  end.

Fixpoint rstrip (s : str) : str :=
  match s with
  | [] => []
  | c :: s' =>
    match rstrip s' with
    | [] => if is_space c then [] else [c]
    | r => c :: r
    end
  end.

(** [s.strip()] *)
Definition strip (s : str) : str := rstrip (lstrip s).

(** [s.startswith(p)] *)
Fixpoint startswith (p s : str) : bool :=
  match p, s with
  | [], _ => true
  | a :: p', b :: s' => (a =? b) && startswith p' s'
  | _ :: _, [] => false
  end.

(** [p in s] on strings *)
Fixpoint str_in (p s : str) : bool :=
  startswith p s || match s with [] => false | _ :: s' => str_in p s' end.

(** [s.split(sep)] for a non-empty [sep]: occurrences are found from the
    left and do not overlap.  [skip] counts the characters of a matched
    separator still to be passed over, [cur] is the piece being read. *)
Fixpoint split_go (sep : str) (skip : nat) (cur : str) (s : str) : list str :=
  match s with
  | [] => [cur]
  | c :: s' =>
    match skip with
    | S k => split_go sep k cur s'
    | O =>
      if startswith sep s
      then cur :: split_go sep (length sep - 1) [] s'
      else split_go sep 0 (cur ++ [c]) s'
    end
  end.

Definition split (sep : str) (s : str) : list str := split_go sep 0 [] s.

(** [sep.join(parts)] *)
Fixpoint join (sep : str) (parts : list str) : str :=
  match parts with
  | [] => []
  | [p] => p
  | p :: rest => p ++ sep ++ join sep rest
  end.

(** [l[:n]] for a Python integer [n]: a negative bound counts from the end. *)
Definition slice_to {A} (n : Z) (l : list A) : list A :=
  if (n <? 0)%Z then take (length l - Z.to_nat (- n))%nat l
  else take (Z.to_nat n) l.

(** [l[-n:]] for a positive literal [n]. *)
Definition slice_last {A} (n : nat) (l : list A) : list A :=
  drop (length l - n)%nat l.

(** [os.path.join] of posixpath. *)
Definition path_join2 (a b : str) : str :=
  if startswith [47] b then b
  else if bool_decide (a = []) || bool_decide (last a = Some 47) then a ++ b
  else a ++ [47] ++ b.

Definition os_path_join (a : str) (rest : list str) : str :=
  foldl path_join2 a rest.

(** ** Turns and the JSON text of a session file *)

(** One message of [st.session_state.messages]: a dict with the keys
    role, content and timestamp. *)
Record Turn := {
  role : str;
  content : str;
  timestamp : str;
}.

#[global] Instance Turn_eq_dec : EqDecision Turn.
Proof. solve_decision. Defined.

Definition hex_digit (n : N) : N := if n <? 10 then 48 + n else 87 + n.

Definition hex_value (c : N) : option N :=
  if (48 <=? c) && (c <=? 57) then Some (c - 48)
  else if (97 <=? c) && (c <=? 102) then Some (c - 87)
  else if (65 <=? c) && (c <=? 70) then Some (c - 55)
  else None.

(** The replacement of one character by [json.encoder.encode_basestring]
    (the encoder of [ensure_ascii=False]): the quote, the backslash and the
    characters below U+0020 are escaped, everything else is written as it is. *)
Definition escape_char (c : N) : str :=
  if c =? 34 then [92; 34]
  else if c =? 92 then [92; 92]
  else if c =? 10 then [92; 110]
  else if c =? 13 then [92; 114]
  else if c =? 9 then [92; 116]
  else if c =? 8 then [92; 98]
  else if c =? 12 then [92; 102]
  else if c <? 32 then [92; 117; 48; 48; hex_digit (c / 16); hex_digit (c mod 16)]
  else [c].

Definition encode_basestring (s : str) : str :=
  34 :: flat_map escape_char s ++ [34].

(** One dict of the list at [indent=2]: the keys in insertion order. *)
Definition json_turn (t : Turn) : str :=
  lit "{" ++ [10] ++ lit "    " ++ encode_basestring (lit "role") ++ lit ": "
  ++ encode_basestring (role t) ++ lit "," ++ [10] ++ lit "    "
  ++ encode_basestring (lit "content") ++ lit ": "
  ++ encode_basestring (content t) ++ lit "," ++ [10] ++ lit "    "
  ++ encode_basestring (lit "timestamp") ++ lit ": "
  ++ encode_basestring (timestamp t) ++ [10] ++ lit "  " ++ lit "}".

Fixpoint json_items (ts : list Turn) : str :=
  match ts with
  | [] => []
  | [t] => json_turn t
  | t :: ts' => json_turn t ++ lit "," ++ [10] ++ lit "  " ++ json_items ts'
  end.

(** The text [json.dump(messages, f, ensure_ascii=False, indent=2)] writes. *)
Definition json_dumps (messages : list Turn) : str :=
  match messages with
  | [] => lit "[]"
  | _ => lit "[" ++ [10] ++ lit "  " ++ json_items messages ++ [10] ++ lit "]"
  end.

(** The decoder of [json.load], for the documents a session file holds:
    an array of objects whose values are strings.  [None] is a
    JSONDecodeError (or a value of another shape). *)

Definition is_json_ws (c : N) : bool :=
  (c =? 32) || (c =? 9) || (c =? 10) || (c =? 13).

Fixpoint skip_ws (s : str) : str :=
  match s with
  | [] => []
  | c :: s' => if is_json_ws c then skip_ws s' else s
  end.

Definition unescape (e : N) : option N :=
  if e =? 34 then Some 34
  else if e =? 92 then Some 92
  else if e =? 47 then Some 47
  else if e =? 98 then Some 8
  else if e =? 102 then Some 12
  else if e =? 110 then Some 10
  else if e =? 114 then Some 13
  else if e =? 116 then Some 9
  else None.

Definition hex4 (h1 h2 h3 h4 : N) : option N :=
  a ← hex_value h1; b ← hex_value h2; c ← hex_value h3; d ← hex_value h4;
  Some (a * 4096 + b * 256 + c * 16 + d).

Definition prepend (c : N) (r : option (str * str)) : option (str * str) :=
  '(s, rest) ← r; Some (c :: s, rest).

(** [scanstring], strict: [s] starts after the opening quote; the result
    is the decoded string and what follows the closing quote. *)
Fixpoint scanstring (s : str) : option (str * str) :=
  match s with
  | [] => None
  | c :: s1 =>
    if c =? 34 then Some ([], s1)
    else if c =? 92 then
      match s1 with
      | [] => None
      | e :: s2 =>
        if e =? 117 then
          match s2 with
          | h1 :: h2 :: h3 :: h4 :: s3 =>
            match hex4 h1 h2 h3 h4 with
            | None => None
            | Some u =>
              if (0xD800 <=? u) && (u <=? 0xDBFF) && startswith [92; 117] s3 then
                match s3 with
                | _ :: _ :: g1 :: g2 :: g3 :: g4 :: s4 =>
                  match hex4 g1 g2 g3 g4 with
                  | None => None
                  | Some u2 =>
                    if (0xDC00 <=? u2) && (u2 <=? 0xDFFF)
                    then prepend (0x10000 + (u - 0xD800) * 1024 + (u2 - 0xDC00))
                                 (scanstring s4)
                    else prepend u (scanstring s3)
                  end
                | _ => None
                end
              else prepend u (scanstring s3)
            end
          | _ => None
          end
        else
          match unescape e with
          | Some x => prepend x (scanstring s2)
          | None => None
          end
      end
    else if c <? 32 then None
    else prepend c (scanstring s1)
  end.

Definition expect (c : N) (s : str) : option str :=
  match s with
  | x :: s' => if x =? c then Some s' else None
  | [] => None
  end.

(** The pairs of an object, from the opening quote of a key up to the
    closing brace. *)
Fixpoint parse_pairs (fuel : nat) (s : str) : option (list (str * str) * str) :=
  match fuel with
  | O => None
  | S fuel' =>
    s1 ← expect 34 s;
    '(k, s2) ← scanstring s1;
    s3 ← expect 58 (skip_ws s2);
    s4 ← expect 34 (skip_ws s3);
    '(v, s5) ← scanstring s4;
    match skip_ws s5 with
    | c :: s6 =>
      if c =? 125 then Some ([(k, v)], s6)
      else if c =? 44 then
        '(kvs, s7) ← parse_pairs fuel' (skip_ws s6);
        Some ((k, v) :: kvs, s7)
      else None
    | [] => None
    end
  end.

(** [s] starts after the opening brace. *)
Definition parse_object (fuel : nat) (s : str) : option (list (str * str) * str) :=
  match skip_ws s with
  | c :: s1 => if c =? 125 then Some ([], s1) else parse_pairs fuel (skip_ws s)
  | [] => None
  end.

(** The values of an array, from the first character of a value up to the
    closing bracket. *)
Fixpoint parse_items (n fuel : nat) (s : str)
  : option (list (list (str * str)) * str) :=
  match fuel with
  | O => None
  | S fuel' =>
    s1 ← expect 123 s;
    '(o, s2) ← parse_object n s1;
    match skip_ws s2 with
    | c :: s3 =>
      if c =? 93 then Some ([o], s3)
      else if c =? 44 then
        '(os, s4) ← parse_items n fuel' (skip_ws s3);
        Some (o :: os, s4)
      else None
    | [] => None
    end
  end.

Definition parse_array (n : nat) (s : str) : option (list (list (str * str)) * str) :=
  s1 ← expect 91 s;
  match skip_ws s1 with
  | c :: s2 => if c =? 93 then Some ([], s2) else parse_items n n (skip_ws s1)
  | [] => None
  end.

(** [dict(pairs)[k]]: the last pair of a repeated key wins. *)
Fixpoint dict_get (k : str) (pairs : list (str * str)) : option str :=
  match pairs with
  | [] => None
  | (k', v) :: rest =>
    match dict_get k rest with
    | Some v' => Some v'
    | None => if bool_decide (k' = k) then Some v else None
    end
  end.

Definition turn_of_dict (pairs : list (str * str)) : option Turn :=
  r ← dict_get (lit "role") pairs;
  c ← dict_get (lit "content") pairs;
  t ← dict_get (lit "timestamp") pairs;
  Some {| role := r; content := c; timestamp := t |}.

(** [json.load] on the texts the pages write: an array of objects with
    the three string members of a turn.  A text of JSON of another shape,
    which [json.load] returns as it is and the display then fails on, is
    [None] here as a text that is not JSON is. *)
Definition json_loads (s : str) : option (list Turn) :=
  '(objs, rest) ← parse_array (length s) (skip_ws s);
  match skip_ws rest with
  | [] => mapM turn_of_dict objs
  | _ => None
  end.

(** Reading in text mode: a carriage return, alone or before a line feed,
    is read as a line feed. *)
Fixpoint universal_newlines (s : str) : str :=
  match s with
  | [] => []
  | c :: s1 =>
    if c =? 13 then
      10 :: match s1 with
            | [] => []
            | d :: s2 => if d =? 10 then universal_newlines s2
                         else universal_newlines s1
            end
    else c :: universal_newlines s1
  end.

(** The pairs of the object written for a turn. *)
Definition turn_pairs (t : Turn) : list (str * str) :=
  [(lit "role", role t); (lit "content", content t);
   (lit "timestamp", timestamp t)].

(** A scalar value that is not a carriage return. *)
Definition plain (c : N) : bool := is_scalar c && negb (c =? 13).

(** A text of Unicode scalar values: one that UTF-8 can hold. *)
Definition scalar_text (s : str) : bool := forallb is_scalar s.

Definition scalar_turn (t : Turn) : bool :=
  scalar_text (role t) && scalar_text (content t) && scalar_text (timestamp t).

(** ** Turns that [show_chat_message] can display

    [show_chat_message] (lines 41 to 46) calls [format_timestamp], that is
    [datetime.fromisoformat], on the timestamp of the turn, and sends role
    and content to the browser; it is called outside any [try].  The pages
    themselves write the roles user and assistant and the timestamps of
    [datetime.now().isoformat()]: a date, the letter T, a time of day and,
    unless it is zero, a fraction of six digits.  Every version of
    [fromisoformat] reads such a text. *)

Definition is_digit (c : N) : bool := (48 <=? c) && (c <=? 57).

(** The number written by the [n] digits at position [i] of [s]. *)
Definition field (i n : nat) (s : str) : option N :=
  let digits := take n (drop i s) in
  if bool_decide (length digits = n) && forallb is_digit digits
  then Some (foldl (fun acc c => 10 * acc + (c - 48)) 0 digits)
  else None.

Definition is_leap (year : N) : bool :=
  ((year mod 4 =? 0) && negb (year mod 100 =? 0)) || (year mod 400 =? 0).

Definition days_in_month (year month : N) : N :=
  if month =? 2 then (if is_leap year then 29 else 28)
  else if (month =? 4) || (month =? 6) || (month =? 9) || (month =? 11) then 30
  else 31.

(** YYYY-MM-DDTHH:MM:SS or YYYY-MM-DDTHH:MM:SS.ffffff, of a real date and
    time of day. *)
Definition iso_timestamp (s : str) : bool :=
  match field 0 4 s, field 5 2 s, field 8 2 s,
        field 11 2 s, field 14 2 s, field 17 2 s with
  | Some year, Some month, Some day, Some hour, Some minute, Some second =>
    bool_decide (s !! 4%nat = Some 45) && bool_decide (s !! 7%nat = Some 45)
    && bool_decide (s !! 10%nat = Some 84)
    && bool_decide (s !! 13%nat = Some 58) && bool_decide (s !! 16%nat = Some 58)
    && (1 <=? year) && (1 <=? month) && (month <=? 12)
    && (1 <=? day) && (day <=? days_in_month year month)
    && (hour <? 24) && (minute <? 60) && (second <? 60)
    && match drop 19 s with
       | [] => true
       | dot :: fraction =>
         (dot =? 46) && bool_decide (length fraction = 6%nat)
         && forallb is_digit fraction
       end
  | _, _, _, _, _, _ => false
  end.

(** A turn as the pages write them: its display does not raise. *)
Definition displayable (message : Turn) : bool :=
  scalar_turn message
  && (bool_decide (role message = lit "user")
      || bool_decide (role message = lit "assistant"))
  && iso_timestamp (timestamp message).

(** ** Session store *)

(** The files of the process, by path.  Directories are not modelled:
    creating the history directory is a no-op and a path can be written
    whenever it can be named.  This is what the code does for an agent id
    that is the name of a file of the history directory, [file_name] below;
    for another id (one with a slash, say) the outcome of [open] depends on
    the directories there are. *)

Definition history_path (agent_id : str) : str :=
  os_path_join (lit "data") [lit "chat_history"; agent_id ++ lit ".json"].

Definition load_agent_history (files : gmap str bytes) (agent_id : str)
  : Result (list Turn) :=
  match files !! history_path agent_id with
  | Some data =>
    match utf8_decode data with
    | None => Raise (lit "'utf-8' codec can't decode")
    | Some text =>
      match json_loads (universal_newlines text) with
      | Some messages => Ok messages
      | None => Raise (lit "JSONDecodeError")
      end
    end
  | None => Ok []
  end.

(** On an encoding error the file has already been truncated by [open];
    what was written before the failing chunk is not modelled. *)
Definition save_agent_history (files : gmap str bytes) (agent_id : str)
    (messages : list Turn) : gmap str bytes * Result () :=
  match utf8_encode (json_dumps messages) with
  | Some data => (<[history_path agent_id := data]> files, Ok ())
  | None => (<[history_path agent_id := []]> files,
             Raise (lit "'utf-8' codec can't encode"))
  end.

(** An agent id with which [history_path] names a file of the history
    directory, the only directory [save_agent_history] makes: no slash, no
    NUL character, and a file name, extension included, of at most 255
    bytes of UTF-8. *)
Definition file_name (agent_id : str) : bool :=
  negb (str_in [47] agent_id) && negb (bool_decide (0 ∈ agent_id))
  && match utf8_encode (agent_id ++ lit ".json") with
     | Some name => bool_decide (length name <= 255)%nat
     | None => false
     end.

(** ** Evidence aggregator: [search_documents] *)

(** One entry of [config['vectorstores']]; the retriever is the external
    index, which answers a query with page contents or raises. *)
Record VectorStore := {
  title : str;
  hash : str;
  retriever : str -> Result (list str);
}.

(** [st.session_state.current_agent_config], with the keys the pages read.
    The keys temperature and max_tokens only go to the constructor of the
    completion client, which is [chat_model] below. *)
Record Config := {
  name : str;
  agent_role : str;                 (* config['role'] *)
  style : str;
  detail_level : str;
  context_window : Z;
  vectorstores : list VectorStore;
}.

(** [f"[{source}]: {content}"] *)
Definition block (source content : str) : str :=
  lit "[" ++ source ++ lit "]: " ++ content.

(** [r.split(']:')[1].strip()] *)
Definition result_key (r : str) : Result str :=
  match split (lit "]:") r !! 1%nat with
  | Some x => Ok (strip x)
  | None => Raise (lit "list index out of range")
  end.

(** [[r.split(']:')[1].strip() for r in results]] *)
Fixpoint result_keys (results : list str) : Result (list str) :=
  match results with
  | [] => Ok []
  | r :: rs => k ← result_key r; ks ← result_keys rs; Ok (k :: ks)
  end.

(** The body of [for doc in docs]. *)
Definition add_doc (source : str) (results : list str) (doc : str)
  : Result (list str) :=
  let content := strip doc in
  ks ← result_keys results;
  if bool_decide (content ∈ ks) then Ok results
  else Ok (results ++ [block source content]).

Fixpoint add_docs (source : str) (results : list str) (docs : list str)
  : Result (list str) :=
  match docs with
  | [] => Ok results
  | doc :: docs' => rs ← add_doc source results doc; add_docs source rs docs'
  end.

(** The loop [for vs in config['vectorstores']]. *)
Fixpoint scan_stores (query : str) (stores : list VectorStore)
    (results : list str) : Result (list str) :=
  match stores with
  | [] => Ok results
  | vs :: rest =>
    docs ← retriever vs query;
    rs ← add_docs (title vs) results docs;
    scan_stores query rest rs
  end.

Definition no_info : str :=
  lit "No encontré información específica. ¿Podrías reformular la pregunta?".

(** [chr(10) + chr(10)], the separator of the blocks. *)
Definition blank_line : str := [10; 10].

Definition search_documents (config : Config) (query : str) : str :=
  match scan_stores query (vectorstores config) [] with
  | Ok [] => no_info
  | Ok results => join blank_line (slice_to (context_window config) results)
  | Raise e => lit "Error al buscar: " ++ e
  end.

(** ** Tutoring agent loop

    The pages build the agent with [initialize_agent] and run it with
    [agent.run]; the executor behind these two calls is library code. *)

(** Modelled from the spec: what the completion service answers at one
    reasoning iteration, a final answer, a request for a tool, or an
    error. *)
Inductive Step :=
| Finish (answer : str)
| UseTool (tool tool_input : str)
| Fails (e : str).

(** Modelled from the spec: the completion service, a black box that is
    given the input of the query, the memory of the agent and the tool
    calls made so far with what they returned. *)
Definition Model : Type := str -> list (str * str) -> list (str * str) -> Step.

(** The object kept in [st.session_state.agent]: the configuration its
    tool closes over, the iteration cap, and the conversation memory
    ([ConversationBufferMemory]) as pairs of input and answer. *)
Record Agent := {
  agent_config : Config;
  max_iterations : nat;
  chat_history : list (str * str);
}.

(** [initialize_agent(tools, llm, ..., max_iterations=3, memory=...)] *)
Definition initialize_agent (config : Config) : Agent :=
  {| agent_config := config; max_iterations := 3; chat_history := [] |}.

(** Modelled from the spec: the generic answer of a run that used up its
    iterations. *)
Definition stopped_response : str :=
  lit "Agent stopped due to iteration limit or time limit.".

(** Modelled from the spec: the call of a tool.  The agent has one tool,
    the [search_documents] of the configuration it was built with; a request
    for any other name is answered with a remark, not an error. *)
Definition call_tool (a : Agent) (tool tool_input : str) : str :=
  if bool_decide (tool = lit "search_documents")
  then search_documents (agent_config a) tool_input
  else tool ++ lit " is not a valid tool, try one of [search_documents].".

(** Modelled from the spec: the reasoning loop of the agent executor, which
    the source only configures ([max_iterations=3]) and runs
    ([agent.run]).  Each iteration asks the model, which finishes with an
    answer, requests a tool call, or fails; when the iterations are used up
    the loop returns the generic stop message.  The result comes with the
    tool calls made. *)
Fixpoint agent_loop (llm : Model) (a : Agent) (input : str)
    (iterations : nat) (steps : list (str * str))
  : Result str * list (str * str) :=
  match iterations with
  | O => (Ok stopped_response, steps)
  | S n =>
    match llm input (chat_history a) steps with
    | Finish answer => (Ok answer, steps)
    | UseTool tool tool_input =>
      agent_loop llm a input n (steps ++ [(tool_input, call_tool a tool tool_input)])
    | Fails e => (Raise e, steps)
    end
  end.

(** Modelled from the spec: [agent.run(input)], whose memory records the
    exchange when the run returns and is left as it was when it raises. *)
Definition agent_run (llm : Model) (a : Agent) (input : str) : Result str * Agent :=
  match (agent_loop llm a input (max_iterations a) []).1 with
  | Ok answer =>
    (Ok answer,
     {| agent_config := agent_config a; max_iterations := max_iterations a;
        chat_history := chat_history a ++ [(input, answer)] |})
  | Raise e => (Raise e, a)
  end.

(** ** Document pager *)

Record Page := {
  page_num : nat;
  page_content : str;        (* page['content'] *)
  preview : str;
}.

(** ** Session state and the outside of a run *)

(** [st.session_state]: the keys the pages use.  The page cache is keyed
    by the whole cache key, "pdf_content_" followed by the path. *)
Record Session := {
  current_agent_config : option Config;
  messages : option (list Turn);
  agent : option Agent;
  pdf_content : gmap str (list Page);
}.

Record World := {
  session_state : Session;
  files : gmap str bytes;
}.

Definition set_messages (m : option (list Turn)) (ss : Session) : Session :=
  {| current_agent_config := current_agent_config ss; messages := m;
     agent := agent ss; pdf_content := pdf_content ss |}.

Definition set_agent (a : option Agent) (ss : Session) : Session :=
  {| current_agent_config := current_agent_config ss; messages := messages ss;
     agent := a; pdf_content := pdf_content ss |}.

Definition set_pdf_content (c : gmap str (list Page)) (ss : Session) : Session :=
  {| current_agent_config := current_agent_config ss; messages := messages ss;
     agent := agent ss; pdf_content := c |}.

(** What one run of a page reads from outside: the clock, the external
    services and the state of the widgets. *)
Record Env := {
  today : str;                 (* datetime.now().strftime('%Y%m%d') *)
  clock : nat -> str;          (* datetime.now().isoformat(): 0 for the
                                  welcome, 1 for the question, 2 for the
                                  answer or the error *)
  lower : str -> str;          (* str.lower *)
  chat_model : Result ();      (* ChatOpenAI(...), which may raise *)
  llm : Model;
  fitz_open : bytes -> Result (list (Result str));
                               (* the text of each page of a PDF file *)
  selected_doc : nat;          (* the document selectbox *)
  selected_page : nat;         (* the page radio *)
}.

(** The widget that triggered the run. *)
Inductive Event :=
| Idle
| ConfigureButton
| LoadButton (selected_history : str)
| ClearButton
| SaveButton
| ChatInput (prompt : str).

Inductive Outcome :=
| Done
| Rerun                       (* st.rerun() *)
| Stop                        (* st.stop() *)
| SwitchPage
| Uncaught (e : str).         (* an exception that leaves the script *)

Inductive Widget :=
| ChatMessage (t : Turn)      (* show_chat_message *)
| AssistantText (s : str)     (* st.markdown(response) *)
| ErrorBox (s : str)
| WarningBox (s : str)
| SuccessBox (s : str)
| Markdown (s : str)
| PageView (page : Page) (total : nat).

Record Run := {
  world : World;
  outcome : Outcome;
  ui : list Widget;
  extracted : list str;       (* the paths given to extract_pdf_content *)
}.

(** ** Helpers of the pages *)

Definition get_agent_id (env : Env) (config : Config) : str :=
  lit "agent_" ++ name config ++ lit "_" ++ today env.

(** [get_recent_history(messages)] with its default of five messages. *)
Definition get_recent_history (messages : list Turn) : str :=
  join [10]
    (map (fun msg =>
            (if bool_decide (role msg = lit "user") then lit "Human"
             else lit "Assistant") ++ lit ": " ++ content msg)
         (slice_last 5 messages)).

Definition no_config : str :=
  [10] ++ lit "            ⚠️ No hay un asistente configurado." ++ [10]
  ++ lit "            Por favor, configura tu asistente primero." ++ [10]
  ++ lit "            ".

Definition error_turn (env : Env) (e : str) : Turn :=
  {| role := lit "assistant"; content := lit "❌ Error: " ++ e;
     timestamp := clock env 2 |}.

(** The name of a stored history of this agent, as the sidebar lists them:
    a file of the history directory, named after the agent, without its
    extension. *)
Definition is_history (fs : gmap str bytes) (config : Config) (h : str) : bool :=
  startswith (lit "agent_" ++ name config ++ lit "_") h
  && negb (str_in [47] h)
  && bool_decide (is_Some (fs !! (lit "data/chat_history/" ++ h ++ lit ".json"))).

(** Lines 167 to 228 of the chat page, 268 to 332 of the document page:
    the agent is built on the first question, kept in the session, and
    run on the input.  The result is the agent the session holds
    afterwards and what [agent.run] gave. *)
Definition ask_agent (env : Env) (config : Config) (held : option Agent)
    (input : str) : option Agent * Result str :=
  match held with
  | Some a =>
    let '(r, a') := agent_run (llm env) a input in (Some a', r)
  | None =>
    match chat_model env with
    | Raise e => (None, Raise e)
    | Ok _ =>
      let '(r, a') := agent_run (llm env) (initialize_agent config) input in
      (Some a', r)
    end
  end.

Definition user_turn (env : Env) (prompt : str) : Turn :=
  {| role := lit "user"; content := prompt; timestamp := clock env 1 |}.

Definition reply_turn (env : Env) (response : str) : Turn :=
  {| role := lit "assistant"; content := response; timestamp := clock env 2 |}.

(** The handling of a question, common to both pages: [build] makes the
    input of the agent from the log that already holds the question.
    [st.markdown] is taken to display the response, as it does for a text
    of scalar values. *)
Definition chat_turn (env : Env) (config : Config)
    (build : list Turn -> str -> str)
    (w : World) (msgs0 : list Turn) (prompt : str) : World * list Widget :=
  let msgs1 := msgs0 ++ [user_turn env prompt] in
  let '(held, r) :=
    ask_agent env config (agent (session_state w)) (build msgs1 prompt) in
  let ss1 := set_agent held (session_state w) in
  match r with
  | Ok response =>
    let msgs2 := msgs1 ++ [reply_turn env response] in
    let '(fs, saved) :=
      save_agent_history (files w) (get_agent_id env config) msgs2 in
    match saved with
    | Ok _ =>
      ({| session_state := set_messages (Some msgs2) ss1; files := fs |},
       [ChatMessage (user_turn env prompt); AssistantText response])
    | Raise e =>
      ({| session_state := set_messages (Some (msgs2 ++ [error_turn env e])) ss1;
          files := fs |},
       [ChatMessage (user_turn env prompt); AssistantText response;
        ErrorBox (lit "❌ Error: " ++ e)])
    end
  | Raise e =>
    ({| session_state := set_messages (Some (msgs1 ++ [error_turn env e])) ss1;
        files := files w |},
     [ChatMessage (user_turn env prompt); ErrorBox (lit "❌ Error: " ++ e)])
  end.

(** ** The chat page: [main] of pages/3_chat.py *)

Definition chat_welcome (env : Env) (config : Config) : Turn :=
  {| role := lit "assistant";
     content :=
       lit "¡Hola! Soy " ++ name config ++ lit ", tu " ++ agent_role config
       ++ lit "." ++ [10]
       ++ lit "                Estoy aquí para ayudarte con los documentos que has seleccionado."
       ++ [10]
       ++ lit "                Para obtener mejores resultados, por favor sé específico en tus preguntas.";
     timestamp := clock env 0 |}.

Definition chat_prompt (env : Env) (config : Config)
    (msgs : list Turn) (prompt : str) : str :=
  let pad := [10] ++ lit "                            " in
  lit "Actúa como " ++ name config ++ lit ", un " ++ agent_role config
  ++ lit " con estilo " ++ lower env (style config) ++ lit "."
  ++ pad ++ pad ++ lit "Consulta: " ++ prompt
  ++ pad ++ pad ++ lit "Instrucciones:"
  ++ pad ++ lit "1. Usa search_documents para encontrar información relevante"
  ++ pad ++ lit "2. Responde usando SOLO información de los documentos"
  ++ pad ++ lit "3. Cita las fuentes usando [Documento]"
  ++ pad ++ lit "4. Mantén un nivel de detalle " ++ lower env (detail_level config)
  ++ pad ++ lit "5. Si no encuentras información, sugiere cómo reformular la pregunta"
  ++ pad.

(** [if len(messages) > 15: messages = messages[-15:]] *)
Definition cap_messages (ss : Session) : Session :=
  match messages ss with
  | Some msgs =>
    if decide (15 < length msgs)%nat
    then set_messages (Some (slice_last 15 msgs)) ss
    else ss
  | None => ss
  end.

(** The chat column and the end of the script (lines 135 to 254).  The
    display of the log and of the question is taken to succeed, as it does
    for [displayable] turns. *)
Definition chat_column (env : Env) (config : Config) (w : World)
    (ev : Event) (side : list Widget) : Run :=
  let msgs0 :=
    match messages (session_state w) with
    | Some msgs => msgs
    | None => [chat_welcome env config]
    end in
  let w0 := {| session_state := set_messages (Some msgs0) (session_state w);
               files := files w |} in
  let '(w1, said) :=
    match ev with
    | ChatInput ((_ :: _) as prompt) =>
      chat_turn env config (chat_prompt env config) w0 msgs0 prompt
    | _ => (w0, [])
    end in
  {| world := {| session_state := cap_messages (session_state w1);
                 files := files w1 |};
     outcome := Done;
     ui := side ++ map ChatMessage msgs0 ++ said;
     extracted := [] |}.

Definition chat_main (env : Env) (w : World) (ev : Event) : Run :=
  let ss := session_state w in
  match current_agent_config ss with
  | None =>
    {| world := w;
       outcome := match ev with ConfigureButton => SwitchPage | _ => Stop end;
       ui := [WarningBox no_config]; extracted := [] |}
  | Some config =>
    match ev with
    | LoadButton selected_history =>
      if is_history (files w) config selected_history
         && negb (bool_decide (selected_history = lit "Actual"))
      then
        match load_agent_history (files w) selected_history with
        | Ok msgs =>
          {| world := {| session_state := set_messages (Some msgs) ss;
                         files := files w |};
             outcome := Rerun; ui := []; extracted := [] |}
        | Raise e =>
          {| world := w; outcome := Uncaught e; ui := []; extracted := [] |}
        end
      else chat_column env config w Idle []
    | ClearButton =>
      {| world := {| session_state := set_agent None (set_messages (Some []) ss);
                     files := files w |};
         outcome := Rerun; ui := []; extracted := [] |}
    | SaveButton =>
      match messages ss with
      | None =>
        {| world := w;
           outcome := Uncaught (lit "st.session_state has no attribute 'messages'");
           ui := []; extracted := [] |}
      | Some [] => chat_column env config w ev []
      | Some msgs =>
        let '(fs, saved) :=
          save_agent_history (files w) (get_agent_id env config) msgs in
        match saved with
        | Ok _ =>
          chat_column env config {| session_state := ss; files := fs |} ev
            [SuccessBox (lit "✅ Historial guardado correctamente")]
        | Raise e =>
          {| world := {| session_state := ss; files := fs |};
             outcome := Uncaught e; ui := []; extracted := [] |}
        end
      end
    | _ => chat_column env config w ev []
    end
  end.

(** What the browser gets from an interaction: the script runs, and runs
    again without event when it asked for it. *)
Definition chat_page (env : Env) (w : World) (ev : Event) : Run :=
  let r := chat_main env w ev in
  match outcome r with
  | Rerun => chat_main env (world r) Idle
  | _ => r
  end.

(** ** The document page: pages/5_document_chat.py *)

Fixpoint read_pages (page_index : nat) (texts : list (Result str))
  : Result (list Page) :=
  match texts with
  | [] => Ok []
  | text :: rest =>
    raw ← text;
    let content := strip raw in
    let preview :=
      if decide (100 < length content)%nat
      then take 100 content ++ lit "..." else content in
    pages ← read_pages (S page_index) rest;
    Ok ({| page_num := page_index + 1; page_content := content;
           preview := preview |} :: pages)
  end.

Definition extract_pdf_content (env : Env) (fs : gmap str bytes) (pdf_path : str)
  : list Page * list Widget :=
  let opened :=
    match fs !! pdf_path with
    | Some data => texts ← fitz_open env data; read_pages 0 texts
    | None => Raise (lit "no such file: '" ++ pdf_path ++ lit "'")
    end in
  match opened with
  | Ok pages => (pages, [])
  | Raise e => ([], [ErrorBox (lit "Error al extraer contenido del PDF: " ++ e)])
  end.

Definition cache_key (pdf_path : str) : str := lit "pdf_content_" ++ pdf_path.

(** The result carries the extraction calls made and the exception that
    leaves the function, if any. *)
Definition display_content_viewer (env : Env) (fs : gmap str bytes)
    (ss : Session) (pdf_path : str)
  : Session * list Widget * list str * Result () :=
  if bool_decide (pdf_path = []) || negb (bool_decide (is_Some (fs !! pdf_path)))
  then (ss, [ErrorBox (lit "El archivo no se encuentra disponible.");
             Markdown (lit "Ruta esperada: " ++ pdf_path)], [], Ok ())
  else
    let '(ss1, shown, calls) :=
      match pdf_content ss !! cache_key pdf_path with
      | Some _ => (ss, [], [])
      | None =>
        let '(pages, shown) := extract_pdf_content env fs pdf_path in
        (set_pdf_content (<[cache_key pdf_path := pages]> (pdf_content ss)) ss,
         shown, [pdf_path])
      end in
    let pages_content := default [] (pdf_content ss1 !! cache_key pdf_path) in
    match pages_content with
    | [] =>
      (ss1, shown ++ [ErrorBox (lit "No se pudo extraer el contenido del documento.")],
       calls, Ok ())
    | _ =>
      match pages_content !! selected_page env with
      | Some page_data =>
        (ss1, shown ++ [PageView page_data (length pages_content)], calls, Ok ())
      | None => (ss1, shown, calls, Raise (lit "list index out of range"))
      end
    end.

(** The page records handed to the viewer for a path, once the viewer has
    run: the cache entry. *)
Definition cached_pages (ss : Session) (pdf_path : str) : option (list Page) :=
  pdf_content ss !! cache_key pdf_path.

(** [get_document_info]: title, path and folder of each document. *)
Definition get_document_info (stores : list VectorStore) : list (str * str * str) :=
  map (fun vs =>
         (title vs,
          os_path_join (lit "processed_docs") [hash vs; hash vs ++ lit ".pdf"],
          hash vs))
      stores.

Definition missing_pdf (path folder : str) : str :=
  let pad := [10] ++ lit "                        " in
  pad ++ lit "No se encontró el archivo PDF."
  ++ pad ++ lit "Ruta esperada: " ++ path
  ++ pad ++ lit "Asegúrate de que existe el archivo: " ++ folder ++ lit ".pdf"
  ++ pad ++ lit "dentro de la carpeta: processed_docs/" ++ folder ++ lit "/"
  ++ pad.

(** The document column (lines 188 to 218), inside its [try]. *)
Definition document_column (env : Env) (config : Config) (w : World)
  : Session * list Widget * list str :=
  let ss := session_state w in
  match get_document_info (vectorstores config) with
  | [] => (ss, [WarningBox (lit "No hay documentos disponibles")], [])
  | docs_info =>
    match docs_info !! selected_doc env with
    | None => (ss, [], [])
    | Some (_, path, folder) =>
      if bool_decide (is_Some (files w !! path)) then
        let '(ss1, shown, calls, r) := display_content_viewer env (files w) ss path in
        match r with
        | Ok _ => (ss1, shown, calls)
        | Raise e =>
          (ss1, shown ++ [ErrorBox (lit "Error al cargar los documentos: " ++ e)],
           calls)
        end
      else (ss, [ErrorBox (missing_pdf path folder)], [])
    end
  end.

Definition doc_welcome (env : Env) (config : Config) : Turn :=
  {| role := lit "assistant";
     content :=
       lit "¡Hola! Soy " ++ name config ++ lit ", tu " ++ agent_role config
       ++ lit "." ++ [10]
       ++ lit "                    Estoy aquí para ayudarte con el material que estás revisando."
       ++ [10]
       ++ lit "                    Puedes preguntarme cualquier cosa sobre el documento.";
     timestamp := clock env 0 |}.

Definition doc_prompt (env : Env) (config : Config)
    (msgs : list Turn) (prompt : str) : str :=
  let pad := [10] ++ lit "                        " in
  lit "Actúa como " ++ name config ++ lit ", un " ++ agent_role config
  ++ lit " con estilo " ++ lower env (style config) ++ lit "."
  ++ pad ++ pad ++ lit "Historial reciente:"
  ++ pad ++ get_recent_history msgs
  ++ pad ++ pad ++ lit "Consulta actual: " ++ prompt
  ++ pad ++ pad ++ lit "Instrucciones:"
  ++ pad ++ lit "1. Usa search_documents para buscar información relevante"
  ++ pad ++ lit "2. Responde usando SOLO información de los documentos"
  ++ pad ++ lit "3. Cita las fuentes usando [Documento]"
  ++ pad ++ lit "4. Mantén un nivel de detalle " ++ lower env (detail_level config)
  ++ pad ++ lit "5. Si no encuentras información, sugiere cómo reformular la pregunta"
  ++ pad.

(** [main] of the document page (lines 166 to 351).  As on the chat page
    the display of the log and of the question is taken to succeed. *)
Definition doc_main (env : Env) (w : World) (ev : Event) : Run :=
  match current_agent_config (session_state w) with
  | None =>
    {| world := w;
       outcome := match ev with ConfigureButton => SwitchPage | _ => Stop end;
       ui := [WarningBox no_config]; extracted := [] |}
  | Some config =>
    let '(ss1, shown, calls) := document_column env config w in
    let msgs0 :=
      match messages ss1 with
      | Some msgs => msgs
      | None => [doc_welcome env config]
      end in
    let w0 := {| session_state := set_messages (Some msgs0) ss1;
                 files := files w |} in
    let '(w1, said) :=
      match ev with
      | ChatInput ((_ :: _) as prompt) =>
        chat_turn env config (doc_prompt env config) w0 msgs0 prompt
      | _ => (w0, [])
      end in
    {| world := w1; outcome := Done;
       ui := shown ++ map ChatMessage msgs0 ++ said;
       extracted := calls |}
  end.

(** ** Both pages *)

Inductive Mode := ChatMode | DocMode.

Definition page (mode : Mode) : Env -> World -> Event -> Run :=
  match mode with
  | ChatMode => chat_page
  | DocMode => doc_main
  end.

Definition welcome (mode : Mode) : Env -> Config -> Turn :=
  match mode with
  | ChatMode => chat_welcome
  | DocMode => doc_welcome
  end.

Definition page_prompt (mode : Mode) : Env -> Config -> list Turn -> str -> str :=
  match mode with
  | ChatMode => chat_prompt
  | DocMode => doc_prompt
  end.

(** The log a run starts from, and what the end of the script makes of a
    log: only the chat page cuts it. *)
Definition opening (mode : Mode) (env : Env) (config : Config) (w : World)
  : list Turn :=
  match messages (session_state w) with
  | Some msgs => msgs
  | None => [welcome mode env config]
  end.

Definition trim (mode : Mode) (msgs : list Turn) : list Turn :=
  match mode with
  | ChatMode => if decide (15 < length msgs)%nat then slice_last 15 msgs else msgs
  | DocMode => msgs
  end.

(** The end of the script. *)
Definition end_of_script (mode : Mode) (w : World) : World :=
  match mode with
  | ChatMode => {| session_state := cap_messages (session_state w);
                   files := files w |}
  | DocMode => w
  end.

(** An event that carries a question. *)
Definition is_question (ev : Event) : bool :=
  match ev with ChatInput (_ :: _) => true | _ => false end.

(** The turn log the session holds after a run. *)
Definition log (r : Run) : list Turn :=
  default [] (messages (session_state (world r))).

(** The turns a run has put on the screen. *)
Definition as_turn (x : Widget) : option Turn :=
  match x with ChatMessage t => Some t | _ => None end.

Definition shown_turns (r : Run) : list Turn := omap as_turn (ui r).

(** A session: interactions one after the other, each with its page, what
    it reads from outside, its event, and what happened to the files in
    between. *)
Record Interaction := {
  on_page : Mode;
  reads : Env;
  event : Event;
  outside : gmap str bytes -> gmap str bytes;
}.

Definition interact (w : World) (i : Interaction) : Run :=
  page (on_page i) (reads i)
       {| session_state := session_state w; files := outside i (files w) |}
       (event i).

(** The world after the interactions and the extraction calls made. *)
Fixpoint session_run (w : World) (todo : list Interaction) : World * list str :=
  match todo with
  | [] => (w, [])
  | i :: rest =>
    let r := interact w i in
    let '(w', calls) := session_run (world r) rest in
    (w', extracted r ++ calls)
  end.

(** *** The aggregation as the specification words it

    All passages in index-then-rank order, each with its source title and
    its trimmed text; then first-seen-wins deduplication on the text. *)

Fixpoint retrieved (query : str) (stores : list VectorStore)
  : Result (list (str * str)) :=
  match stores with
  | [] => Ok []
  | vs :: rest =>
    docs ← retriever vs query;
    ps ← retrieved query rest;
    Ok (map (fun d => (title vs, strip d)) docs ++ ps)
  end.

Fixpoint first_seen (seen : list str) (ps : list (str * str)) : list (str * str) :=
  match ps with
  | [] => []
  | p :: ps' =>
    if bool_decide (p.2 ∈ seen) then first_seen seen ps'
    else p :: first_seen (seen ++ [p.2]) ps'
  end.

(** [b] is the block of the text [c] under the title of a configured source. *)
Definition block_of (stores : list VectorStore) (c b : str) : bool :=
  existsb (fun vs => bool_decide (b = block (title vs) c)) stores.

(** The block of a passage given with its title. *)
Definition blk (p : str * str) : str := block p.1 p.2.

(** A passage whose title and text do not hold the two characters that
    end the title part of a block. *)
Definition clean (p : str * str) : Prop :=
  str_in [93; 58] p.1 = false /\ str_in [93; 58] p.2 = false.

Definition is_block (r : str) : Prop := exists t c, r = block t c.

(** *** The aggregation properties as the specification states them *)

(** Deduplication as stated: every retrieved trimmed text is carried by
    exactly one block of the answer. *)
Definition dedup_as_stated (config : Config) (query : str) : Prop :=
  forall ps results,
    retrieved query (vectorstores config) = Ok ps ->
    scan_stores query (vectorstores config) [] = Ok results ->
    forall c, c ∈ ps.*2 ->
      length (List.filter (block_of (vectorstores config) c)
                (slice_to (context_window config) results)) = 1%nat.

(** Failure isolation as stated: when one index raises, every passage of
    the indexes that answered is still part of the answer. *)
Definition isolation_as_stated (config : Config) (query : str) : Prop :=
  forall pre vs post e,
    vectorstores config = pre ++ vs :: post ->
    retriever vs query = Raise e ->
    forall vs' docs d,
      vs' ∈ pre ++ post -> retriever vs' query = Ok docs -> d ∈ docs ->
      str_in (block (title vs') (strip d)) (search_documents config query) = true.

(** *** The handling of a failing model as the specification states it

    The failing query does not stop the script, shows the error, appends
    it to the log as an assistant turn, and the error is part of the
    persisted record. *)
Definition failure_handling_as_stated (mode : Mode) (env : Env) (w : World)
    (prompt : str) : Prop :=
  forall config e,
    current_agent_config (session_state w) = Some config ->
    (ask_agent env config (agent (session_state w))
       (page_prompt mode env config
          (opening mode env config w ++ [user_turn env prompt]) prompt)).2
    = Raise e ->
    let r := page mode env w (ChatInput prompt) in
    outcome r = Done
    /\ ErrorBox (lit "❌ Error: " ++ e) ∈ ui r
    /\ last (log r) = Some (error_turn env e)
    /\ exists stored,
         load_agent_history (files (world r)) (get_agent_id env config) = Ok stored
         /\ error_turn env e ∈ stored.

(** *** The welcome turn as stated: what a completed run displays is never
    empty. *)
Definition display_never_empty_as_stated (mode : Mode) (env : Env) (w : World)
    (ev : Event) : Prop :=
  forall config,
    current_agent_config (session_state w) = Some config ->
    outcome (page mode env w ev) = Done ->
    shown_turns (page mode env w ev) <> [].

(** *** Concrete configurations *)

Definition store (t : string) (answer : Result (list string)) : VectorStore :=
  {| title := lit t; hash := lit t;
     retriever := fun _ => docs ← answer; Ok (map lit docs) |}.

Definition tutor (window : Z) (stores : list VectorStore) : Config :=
  {| name := lit "Tutor"; agent_role := lit "profesor"; style := lit "Formal";
     detail_level := lit "Alto"; context_window := window;
     vectorstores := stores |}.

(** Window 2, three indexes, passages A, A, B, C after trimming. *)
Definition scenario_abc : Config :=
  tutor 2 [store "Uno" (Ok [" A"]); store "Dos" (Ok ["A "; "B"]);
           store "Tres" (Ok ["C"])].

(** One index whose two passages hold the characters of the block prefix. *)
Definition scenario_marker : Config :=
  tutor 5 [store "Uno" (Ok ["x]:y"; "x]:y"])].

(** The second of three indexes fails. *)
Definition scenario_failing : Config :=
  tutor 10 [store "Uno" (Ok ["A"]); store "Dos" (Raise (lit "timeout"));
            store "Tres" (Ok ["B"])].

(** A model that answers at once, one that fails, and one that asks for
    the tool at every iteration. *)
Definition answering (reply : string) : Model := fun _ _ _ => Finish (lit reply).
Definition failing (e : string) : Model := fun _ _ _ => Fails (lit e).

Definition reading (m : Model) : Env :=
  {| today := lit "20240101"; clock := fun _ => lit "2024-01-01T10:00:00";
     lower := fun s => s; chat_model := Ok (); llm := m;
     fitz_open := fun _ => Ok [Ok (lit " Uno "); Ok (lit "Dos")];
     selected_doc := 0; selected_page := 0 |}.

(** A session in which the agent has been configured and nothing else
    has happened. *)
Definition fresh (config : Config) : World :=
  {| session_state :=
       {| current_agent_config := Some config; messages := None;
          agent := None; pdf_content := ∅ |};
     files := ∅ |}.

Definition asks (mode : Mode) (m : Model) (prompt : string) : Interaction :=
  {| on_page := mode; reads := reading m; event := ChatInput (lit prompt);
     outside := fun fs => fs |}.

Definition clicks (mode : Mode) (ev : Event) : Interaction :=
  {| on_page := mode; reads := reading (answering "ok"); event := ev;
     outside := fun fs => fs |}.

Definition a_pdf : str := lit "processed_docs/Uno/Uno.pdf".

Definition pdf_files : gmap str bytes := {[ a_pdf := [37; 80; 68; 70] ]}.

(** Two turns, with text of two, three and four bytes per character and
    with characters that the JSON text escapes. *)
Definition greeting : list Turn :=
  [ {| role := lit "user"; content := lit "¡Hola! 💬 ¿qué tal?";
       timestamp := lit "2024-01-01T10:00:00.000001" |};
    {| role := lit "assistant"; content := lit "hello" ++ [10; 34; 92; 13; 1];
       timestamp := lit "2024-01-01T10:00:02.500000" |} ].

(** The session after eight answered questions on a page. *)
Definition after_eight (mode : Mode) : World :=
  (session_run (fresh scenario_abc)
     (replicate 8 (asks mode (answering "ok") "hola"))).1.

(** The session after one answered question on the chat page. *)
Definition after_one : World :=
  (session_run (fresh scenario_abc) [asks ChatMode (answering "ok") "hola"]).1.

(** An agent whose name is the name of the tutor and more. *)
Definition advanced : Config :=
  {| name := lit "Tutor_Avanzado"; agent_role := lit "profesor";
     style := lit "Formal"; detail_level := lit "Alto"; context_window := 2;
     vectorstores := [] |}.

(** The files after the greeting has been saved for an agent. *)
Definition stored_for (owner : Config) : gmap str bytes :=
  (save_agent_history ∅ (get_agent_id (reading (answering "ok")) owner)
     greeting).1.

(** The session of the tutor over given files. *)
Definition visiting (fs : gmap str bytes) : World :=
  {| session_state := session_state (fresh scenario_abc); files := fs |}.

(** The files [fs'] are the files [fs] but for what has been written at
    [path]: nothing else has changed and nothing has been removed. *)
Definition written_at (path : str) (fs fs' : gmap str bytes) : Prop :=
  (forall other, other <> path -> fs' !! other = fs !! other)
  /\ (forall other, is_Some (fs !! other) -> is_Some (fs' !! other)).

(** The record [extract_pdf_content] makes of the text of the page with
    number [n]. *)
Definition page_of (n : nat) (raw : str) : Page :=
  {| page_num := n; page_content := strip raw;
     preview := if decide (100 < length (strip raw))%nat
                then take 100 (strip raw) ++ lit "..." else strip raw |}.

(** The path [get_document_info] gives for a folder name that is a plain,
    non-empty name. *)
Definition folder_pdf (folder : str) : str :=
  lit "processed_docs/" ++ folder ++ [47] ++ folder ++ lit ".pdf".

(** Five turns and an older one; a reader that fails; a store without
    folder name. *)
Definition five_turns : list Turn :=
  replicate 5 {| role := lit "user"; content := lit "hola";
                 timestamp := lit "2024-01-01T10:00:00" |}.

Definition an_old_turn : Turn :=
  {| role := lit "assistant"; content := lit "antes";
     timestamp := lit "2024-01-01T09:00:00" |}.

Definition broken_reader : Env :=
  {| today := lit "20240101"; clock := fun _ => lit "2024-01-01T10:00:00";
     lower := fun s => s; chat_model := Ok (); llm := answering "ok";
     fitz_open := fun _ => Ok [Ok (lit "Uno"); Raise (lit "damaged page")];
     selected_doc := 0; selected_page := 0 |}.

(** A tutor whose window is zero, and one index without folder name
    beside a plain one and one whose folder name is an absolute path. *)
Definition scenario_zero : Config := tutor 0 [store "Uno" (Ok ["A"; "B"])].

Definition odd_stores : list VectorStore :=
  [ store "Uno" (Ok []);
    {| title := lit "Sin carpeta"; hash := []; retriever := fun _ => Ok [] |};
    {| title := lit "Fuera"; hash := lit "/tmp/x"; retriever := fun _ => Ok [] |} ].

(* ================================================================== *)
(** * Properties *)

(** The literals are read as UTF-8: the accented letter of "encontré" is
    one character. *)
Example lit_no_info_head :
  take 11 no_info = [78; 111; 32; 101; 110; 99; 111; 110; 116; 114; 233].
Proof. vm_compute. reflexivity. Qed.

(** ** Displayable turns and file names *)

Lemma displayable_scalar msgs :
  forallb displayable msgs = true -> forallb scalar_turn msgs = true.
Proof.
  induction msgs as [|t msgs IH]; [reflexivity|]. cbn [forallb].
  intros [Ht Hm]%andb_prop. rewrite (IH Hm), andb_true_r.
  unfold displayable in Ht.
  now apply andb_prop in Ht as [[Ht _]%andb_prop _].
Qed.

Lemma forallb_trim {f : Turn -> bool} mode msgs :
  forallb f msgs = true -> forallb f (trim mode msgs) = true.
Proof.
  intros H. destruct mode; [|exact H]. unfold trim.
  destruct (decide _); [|exact H]. unfold slice_last.
  rewrite <- (take_drop (length msgs - 15) msgs), forallb_app in H.
  now apply andb_prop in H as [_ H].
Qed.

Lemma file_name_no_slash agent_id :
  file_name agent_id = true -> str_in [47] agent_id = false.
Proof.
  unfold file_name. intros [[H _]%andb_prop _]%andb_prop.
  now apply negb_true_iff in H.
Qed.

(** ** String helpers *)

Lemma lit_sep : lit "]:" = [93; 58].
Proof. reflexivity. Qed.

Lemma block_unfold source content :
  block source content = 91 :: source ++ 93 :: 58 :: 32 :: content.
Proof. reflexivity. Qed.

Lemma lstrip_head s c s' : lstrip s = c :: s' -> is_space c = false.
Proof.
  induction s as [|a s IH]; simpl; [discriminate|].
  destruct (is_space a) eqn:Ha; [exact IH|].
  intros [= -> _]. exact Ha.
Qed.

Lemma rstrip_idemp s : rstrip (rstrip s) = rstrip s.
Proof.
  induction s as [|a s IH]; simpl; [reflexivity|].
  destruct (rstrip s) as [|b r] eqn:Hr.
  - destruct (is_space a) eqn:Ha; simpl; [reflexivity|]. now rewrite Ha.
  - simpl in *. now rewrite IH.
Qed.

Lemma rstrip_keeps_head c s :
  is_space c = false -> exists r, rstrip (c :: s) = c :: r.
Proof.
  intros Hc. simpl. destruct (rstrip s); [rewrite Hc|]; eauto.
Qed.

Lemma lstrip_strip s : lstrip (strip s) = strip s.
Proof.
  unfold strip. destruct (lstrip s) as [|c t] eqn:Hl; [reflexivity|].
  apply lstrip_head in Hl.
  destruct (rstrip_keeps_head c t Hl) as [r ->]. simpl. now rewrite Hl.
Qed.

Lemma strip_idemp s : strip (strip s) = strip s.
Proof.
  unfold strip at 1. rewrite lstrip_strip. unfold strip. apply rstrip_idemp.
Qed.

Lemma strip_space_cons s : strip (32 :: s) = strip s.
Proof. reflexivity. Qed.

Lemma split_go_cons sep k cur s : exists x rest, split_go sep k cur s = x :: rest.
Proof.
  revert k cur. induction s as [|c s IH]; intros k cur; simpl; [eauto|].
  destruct k; [|apply IH].
  destruct (startswith sep (c :: s)); [eauto|apply IH].
Qed.

Lemma split_sep_first a b cur :
  str_in [93; 58] a = false ->
  split_go [93; 58] 0 cur (a ++ 93 :: 58 :: b)
  = (cur ++ a) :: split_go [93; 58] 0 [] b.
Proof.
  revert cur. induction a as [|c a IH]; intros cur Ha.
  - cbn. now rewrite app_nil_r.
  - cbn [str_in] in Ha. apply orb_false_elim in Ha as [Hc Ha].
    change ((c :: a) ++ 93 :: 58 :: b) with (c :: (a ++ 93 :: 58 :: b)).
    cbn [split_go].
    assert (Hs : startswith [93; 58] (c :: a ++ 93 :: 58 :: b) = false).
    { destruct a as [|d a]; cbn [startswith app] in *.
      - change (58 =? 93) with false. now rewrite andb_false_r.
      - exact Hc. }
    rewrite Hs, IH by exact Ha. now rewrite <- app_assoc.
Qed.

Lemma split_no_sep b cur :
  str_in [93; 58] b = false -> split_go [93; 58] 0 cur b = [cur ++ b].
Proof.
  revert cur. induction b as [|c b IH]; intros cur Hb.
  - simpl. now rewrite app_nil_r.
  - cbn [str_in] in Hb. apply orb_false_elim in Hb as [Hc Hb].
    cbn [split_go]. rewrite Hc, IH by exact Hb.
    now rewrite <- app_assoc.
Qed.

(** ** The dedup key of an accepted block *)

Lemma result_key_block t c :
  str_in [93; 58] t = false -> str_in [93; 58] c = false ->
  result_key (block t c) = Ok (strip c).
Proof.
  intros Ht Hc. unfold result_key, split. rewrite lit_sep, block_unfold.
  cbn [split_go]. change (startswith [93; 58] (91 :: _)) with false.
  cbn [app]. rewrite split_sep_first by exact Ht.
  rewrite split_no_sep.
  - reflexivity.
  - cbn [str_in]. now rewrite Hc.
Qed.

Lemma split_sep_two a b cur :
  exists x y rest, split_go [93; 58] 0 cur (a ++ 93 :: 58 :: b) = x :: y :: rest.
Proof.
  revert cur. induction a as [|c a IH]; intros cur.
  - cbn. destruct (split_go_cons [93; 58] 0 [] b) as (y & rest & ->). eauto.
  - change ((c :: a) ++ 93 :: 58 :: b) with (c :: (a ++ 93 :: 58 :: b)).
    cbn [split_go]. destruct (startswith _ _); [|apply IH].
    destruct (split_go_cons [93; 58] (length [93; 58] - 1) []
                (a ++ 93 :: 58 :: b)) as (y & rest & ->). eauto.
Qed.

(** The index [1] of the split is always there: no IndexError. *)
Lemma result_key_total t c : exists k, result_key (block t c) = Ok k.
Proof.
  unfold result_key, split. rewrite lit_sep, block_unfold.
  cbn [split_go]. change (startswith [93; 58] (91 :: _)) with false.
  cbn [app]. destruct (split_sep_two t (32 :: c) [91]) as (x & y & rest & ->).
  simpl. eauto.
Qed.

Lemma result_keys_total results :
  Forall is_block results -> exists ks, result_keys results = Ok ks.
Proof.
  induction 1 as [|r rs (t & c & ->) _ [ks IH]]; simpl; [eauto|].
  destruct (result_key_total t c) as [k ->]. simpl. rewrite IH. simpl. eauto.
Qed.

Lemma add_docs_total source results docs :
  Forall is_block results ->
  exists rs, add_docs source results docs = Ok rs /\ Forall is_block rs.
Proof.
  revert results. induction docs as [|d docs IH]; intros results Hb; simpl.
  - eauto.
  - unfold add_doc. destruct (result_keys_total results Hb) as [ks ->]. simpl.
    case_bool_decide; simpl; apply IH; [exact Hb|].
    apply Forall_app; split; [exact Hb|].
    constructor; [|constructor]. red; eauto.
Qed.

Lemma scan_stores_total query stores results :
  Forall (fun v => exists docs, retriever v query = Ok docs) stores ->
  Forall is_block results ->
  exists rs, scan_stores query stores results = Ok rs.
Proof.
  intros Hs. revert results.
  induction Hs as [|v stores [docs Hv] _ IH]; intros results Hb; simpl.
  - eauto.
  - rewrite Hv. simpl.
    destruct (add_docs_total (title v) results docs Hb) as (rs & -> & Hrs).
    simpl. now apply IH.
Qed.

Lemma scan_stores_raise query pre vs post results e :
  Forall (fun v => exists docs, retriever v query = Ok docs) pre ->
  Forall is_block results ->
  retriever vs query = Raise e ->
  scan_stores query (pre ++ vs :: post) results = Raise e.
Proof.
  intros Hs. revert results.
  induction Hs as [|v stores [docs Hv] _ IH]; intros results Hb He; simpl.
  - now rewrite He.
  - rewrite Hv. simpl.
    destruct (add_docs_total (title v) results docs Hb) as (rs & -> & Hrs).
    simpl. now apply IH.
Qed.

(** ** The loop against the worded aggregation *)

Lemma result_keys_clean acc :
  Forall clean acc ->
  Forall (fun p => strip p.2 = p.2) acc ->
  result_keys (map blk acc) = Ok acc.*2.
Proof.
  induction 1 as [|[t c] acc [Ht Hc] _ IH]; intros Hs; [reflexivity|].
  apply Forall_cons in Hs as [Hs1 Hs]. cbn [fst snd] in *.
  cbn [map result_keys fmap list_fmap]. change (blk (t, c)) with (block t c).
  rewrite result_key_block by assumption. cbn [mbind Result_bind].
  rewrite IH by exact Hs. cbn [mbind Result_bind]. now rewrite Hs1.
Qed.

Lemma add_docs_first_seen source acc docs :
  str_in [93; 58] source = false ->
  Forall (fun d => str_in [93; 58] (strip d) = false) docs ->
  Forall clean acc ->
  Forall (fun p => strip p.2 = p.2) acc ->
  add_docs source (map blk acc) docs
  = Ok (map blk (acc ++ first_seen acc.*2
                          (map (fun d => (source, strip d)) docs))).
Proof.
  intros Hsrc Hd. revert acc.
  induction Hd as [|d docs Hd1 _ IH]; intros acc Hc Hs; simpl.
  - now rewrite app_nil_r.
  - unfold add_doc. rewrite result_keys_clean by assumption. simpl.
    case_bool_decide as Hin; simpl.
    + now apply IH.
    + replace (map blk acc ++ [block source (strip d)])
        with (map blk (acc ++ [(source, strip d)]))
        by (now rewrite map_app).
      rewrite IH.
      * rewrite (fmap_app snd acc). rewrite <- (app_assoc acc). reflexivity.
      * apply Forall_app; split; [exact Hc|].
        constructor; [split; assumption|constructor].
      * apply Forall_app; split; [exact Hs|].
        constructor; [apply strip_idemp|constructor].
Qed.

Lemma first_seen_app seen ps1 ps2 :
  first_seen seen (ps1 ++ ps2)
  = first_seen seen ps1 ++ first_seen (seen ++ (first_seen seen ps1).*2) ps2.
Proof.
  revert seen. induction ps1 as [|p ps1 IH]; intros seen; simpl.
  - now rewrite app_nil_r.
  - case_bool_decide; [apply IH|].
    simpl. rewrite IH, <- app_assoc. reflexivity.
Qed.

Lemma first_seen_clean seen ps :
  Forall clean ps -> Forall clean (first_seen seen ps).
Proof.
  intros H. revert seen. induction H as [|p ps Hp _ IH]; intros seen; simpl.
  - constructor.
  - case_bool_decide; [apply IH|]. constructor; [exact Hp|apply IH].
Qed.

Lemma first_seen_Forall (P : str * str -> Prop) seen ps :
  Forall P ps -> Forall P (first_seen seen ps).
Proof.
  intros H. revert seen. induction H as [|p ps Hp _ IH]; intros seen; simpl.
  - constructor.
  - case_bool_decide; [apply IH|]. constructor; [exact Hp|apply IH].
Qed.

Lemma scan_stores_first_seen query stores acc ps :
  retrieved query stores = Ok ps ->
  Forall (fun vs => str_in [93; 58] (title vs) = false) stores ->
  Forall (fun p => str_in [93; 58] p.2 = false) ps ->
  Forall clean acc ->
  Forall (fun p => strip p.2 = p.2) acc ->
  scan_stores query stores (map blk acc)
  = Ok (map blk (acc ++ first_seen acc.*2 ps)).
Proof.
  revert acc ps. induction stores as [|vs stores IH]; intros acc ps Hr Ht Hp Hc Hs.
  - simpl in Hr. injection Hr as <-. simpl. now rewrite app_nil_r.
  - simpl in Hr. simpl.
    destruct (retriever vs query) as [docs|e]; [|discriminate]. simpl in *.
    destruct (retrieved query stores) as [ps'|e] eqn:Hr'; [|discriminate].
    simpl in Hr. injection Hr as <-.
    apply Forall_cons in Ht as [Ht1 Ht].
    apply Forall_app in Hp as [Hp1 Hp2].
    assert (Hd : Forall (fun d => str_in [93; 58] (strip d) = false) docs).
    { rewrite Forall_forall in Hp1. apply Forall_forall. intros d Hin.
      apply (Hp1 (title vs, strip d)). apply list_elem_of_fmap. eauto. }
    rewrite add_docs_first_seen by assumption. simpl.
    set (ps1 := map (fun d => (title vs, strip d)) docs).
    assert (Hc1 : Forall clean ps1).
    { apply Forall_forall. intros p Hin. apply list_elem_of_fmap in Hin as (d & -> & Hin).
      split; [exact Ht1|]. rewrite Forall_forall in Hd. now apply Hd. }
    assert (Hs1 : Forall (fun p : str * str => strip p.2 = p.2) ps1).
    { apply Forall_forall. intros p Hin. apply list_elem_of_fmap in Hin as (d & -> & Hin).
      exact (strip_idemp d). }
    rewrite (IH _ ps' eq_refl); try assumption.
    + rewrite first_seen_app, (fmap_app snd acc), <- (app_assoc acc). reflexivity.
    + apply Forall_app; split; [exact Hc|]. now apply first_seen_Forall.
    + apply Forall_app; split; [exact Hs|]. now apply first_seen_Forall.
Qed.

(** What first-seen-wins means. *)

Lemma first_seen_texts seen ps c :
  c ∈ (first_seen seen ps).*2 <-> c ∈ ps.*2 /\ c ∉ seen.
Proof.
  revert seen. induction ps as [|p ps IH]; intros seen; simpl.
  - split; [intros H%elem_of_nil; contradiction|intros [H%elem_of_nil _]; contradiction].
  - case_bool_decide as Hin.
    + rewrite IH, elem_of_cons. split; [tauto|].
      intros [[->|H] Hn]; [contradiction|tauto].
    + simpl. rewrite !elem_of_cons, IH, elem_of_app, list_elem_of_singleton.
      split.
      * intros [->|[H Hn]]; [tauto|]. split; [tauto|]. tauto.
      * intros [[->|H] Hn]; [tauto|].
        destruct (decide (c = p.2)) as [->|Hne]; [tauto|]. right. tauto.
Qed.

Lemma first_seen_NoDup seen ps : NoDup (first_seen seen ps).*2.
Proof.
  revert seen. induction ps as [|p ps IH]; intros seen; simpl.
  - constructor.
  - case_bool_decide; [apply IH|]. simpl. constructor; [|apply IH].
    rewrite first_seen_texts, elem_of_app, list_elem_of_singleton. tauto.
Qed.

Lemma first_seen_sublist seen ps : first_seen seen ps `sublist_of` ps.
Proof.
  revert seen. induction ps as [|p ps IH]; intros seen; simpl.
  - constructor.
  - case_bool_decide; [apply sublist_cons, IH|apply sublist_skip, IH].
Qed.

Lemma first_seen_first seen ps p :
  p ∈ first_seen seen ps ->
  exists ps1 ps2, ps = ps1 ++ p :: ps2 /\ p.2 ∉ ps1.*2.
Proof.
  revert seen. induction ps as [|a ps IH]; intros seen; simpl.
  - intros H%elem_of_nil. contradiction.
  - case_bool_decide as Hin.
    + intros H. assert (Hp : p.2 ∉ seen).
      { assert (Hm : p.2 ∈ (first_seen seen ps).*2)
          by (apply list_elem_of_fmap; eauto).
        apply first_seen_texts in Hm. tauto. }
      destruct (IH _ H) as (ps1 & ps2 & -> & Hn).
      exists (a :: ps1), ps2. split; [reflexivity|].
      simpl. rewrite elem_of_cons. intros [Heq|?]; [|contradiction].
      rewrite Heq in Hp. contradiction.
    + rewrite elem_of_cons. intros [->|H].
      * exists [], ps. split; [reflexivity|]. simpl. apply not_elem_of_nil.
      * assert (Hp : p.2 ∉ seen ++ [a.2]).
        { assert (Hm : p.2 ∈ (first_seen (seen ++ [a.2]) ps).*2)
            by (apply list_elem_of_fmap; eauto).
          apply first_seen_texts in Hm. tauto. }
        destruct (IH _ H) as (ps1 & ps2 & -> & Hn).
        exists (a :: ps1), ps2. split; [reflexivity|].
        simpl. rewrite elem_of_cons. intros [Heq|?]; [|contradiction].
        apply Hp. rewrite elem_of_app, list_elem_of_singleton. tauto.
Qed.

(** ** Evidence aggregator: the claims *)

(** C1, as stated, fails twice: a text beyond the window is in no block
    (window 2, texts A, A, B, C: no block for C), and a text that holds the
    characters "]:" is not recognised as seen and is accepted twice. *)
Lemma dedup_as_stated_fails :
  ~ dedup_as_stated scenario_abc (lit "q")
  /\ ~ dedup_as_stated scenario_marker (lit "q").
Proof.
  split; intros H.
  - specialize (H _ _ eq_refl eq_refl (lit "C")).
    assert (Hin : lit "C" ∈ [(lit "Uno", lit "A"); (lit "Dos", lit "A");
                             (lit "Dos", lit "B"); (lit "Tres", lit "C")].*2)
      by compute_done.
    specialize (H Hin). vm_compute in H. discriminate.
  - specialize (H _ _ eq_refl eq_refl (lit "x]:y")).
    assert (Hin : lit "x]:y" ∈ [(lit "Uno", lit "x]:y"); (lit "Uno", lit "x]:y")].*2)
      by compute_done.
    specialize (H Hin). vm_compute in H. discriminate.
Qed.

(** What the seen-check does with a text that holds "]:": the key kept for
    the block of "x]:y" is "x", so the same text is accepted again, and a
    later passage "x" is taken for a repetition. *)
Example search_documents_marker_twice :
  search_documents scenario_marker (lit "q")
  = lit "[Uno]: x]:y" ++ blank_line ++ lit "[Uno]: x]:y".
Proof. vm_compute. reflexivity. Qed.

Example search_documents_marker_drops :
  search_documents (tutor 5 [store "Uno" (Ok ["x]:y"; "x"])]) (lit "q")
  = lit "[Uno]: x]:y".
Proof. vm_compute. reflexivity. Qed.

(** C1, amended: when no source title and no trimmed passage text holds the
    characters "]:", the accepted list is the first-seen-wins
    deduplication [kept] of the retrieved passages in index-then-rank
    order, the answer is made of [kept] cut to the context window, no text
    occurs twice in [kept], every retrieved text occurs in it, and each
    kept passage is the first one with its text. *)
Theorem search_documents_dedup config query ps :
  retrieved query (vectorstores config) = Ok ps ->
  Forall (fun vs => str_in (lit "]:") (title vs) = false) (vectorstores config) ->
  Forall (fun p => str_in (lit "]:") p.2 = false) ps ->
  let kept := first_seen [] ps in
  scan_stores query (vectorstores config) [] = Ok (map blk kept)
  /\ search_documents config query
     = (if decide (kept = []) then no_info
        else join blank_line (slice_to (context_window config) (map blk kept)))
  /\ NoDup kept.*2
  /\ (forall c, c ∈ kept.*2 <-> c ∈ ps.*2)
  /\ kept `sublist_of` ps
  /\ (forall p, p ∈ kept ->
        exists ps1 ps2, ps = ps1 ++ p :: ps2 /\ p.2 ∉ ps1.*2).
Proof.
  intros Hr Ht Hp kept.
  assert (Hscan : scan_stores query (vectorstores config) [] = Ok (map blk kept)).
  { apply (scan_stores_first_seen query (vectorstores config) [] ps Hr Ht Hp);
      constructor. }
  split; [exact Hscan|]. split.
  - unfold search_documents. rewrite Hscan.
    destruct kept as [|p kept']; [reflexivity|].
    destruct (decide _) as [Heq|_]; [discriminate Heq|reflexivity].
  - split; [apply first_seen_NoDup|]. split.
    + intros c. unfold kept. rewrite first_seen_texts.
      split; [tauto|]. intros H. split; [exact H|apply not_elem_of_nil].
    + split; [apply first_seen_sublist|apply first_seen_first].
Qed.

(** The scenario of the specification: window 2 and the texts A, A, B, C
    give the blocks of A and B, in that order. *)
Lemma search_documents_dedup_scenario :
  search_documents scenario_abc (lit "q")
  = lit "[Uno]: A" ++ blank_line ++ lit "[Dos]: B".
Proof.
  destruct (search_documents_dedup scenario_abc (lit "q") _ eq_refl)
    as (_ & H & _).
  - repeat constructor.
  - repeat constructor.
  - rewrite H. reflexivity.
Defined.

(** C2, as stated, fails: with the second of three indexes raising, the
    answer holds neither the passage of the first index nor that of the
    third. *)
Lemma isolation_as_stated_fails : ~ isolation_as_stated scenario_failing (lit "q").
Proof.
  intros H.
  specialize (H [store "Uno" (Ok ["A"])] (store "Dos" (Raise (lit "timeout")))
                [store "Tres" (Ok ["B"])] (lit "timeout") eq_refl eq_refl
                (store "Uno" (Ok ["A"])) [lit "A"] (lit "A")).
  assert (Hin : store "Uno" (Ok ["A"])
                ∈ [store "Uno" (Ok ["A"])] ++ [store "Tres" (Ok ["B"])])
    by (apply elem_of_app; left; apply list_elem_of_singleton; reflexivity).
  specialize (H Hin eq_refl).
  assert (Hd : lit "A" ∈ [lit "A"]) by (apply list_elem_of_singleton; reflexivity).
  specialize (H Hd). vm_compute in H. discriminate.
Qed.

(** C2, amended: when an index raises while the ones before it answered,
    the whole answer of [search_documents] is the diagnostic string built
    from the error; nothing of the earlier or the later indexes is in it,
    and no exception leaves the function. *)
Theorem search_documents_index_error config query pre vs post e :
  vectorstores config = pre ++ vs :: post ->
  Forall (fun v => exists docs, retriever v query = Ok docs) pre ->
  retriever vs query = Raise e ->
  search_documents config query = lit "Error al buscar: " ++ e.
Proof.
  intros Hv Hpre He. unfold search_documents. rewrite Hv.
  rewrite (scan_stores_raise query pre vs post [] e Hpre); [reflexivity| |exact He].
  constructor.
Qed.

Lemma search_documents_index_error_scenario :
  search_documents scenario_failing (lit "q") = lit "Error al buscar: timeout".
Proof.
  rewrite (search_documents_index_error scenario_failing (lit "q")
             [store "Uno" (Ok ["A"])] (store "Dos" (Raise (lit "timeout")))
             [store "Tres" (Ok ["B"])] (lit "timeout") eq_refl).
  - reflexivity.
  - constructor; [|constructor]. exists [lit "A"]. reflexivity.
  - reflexivity.
Defined.

(** C6: for a context window [N >= 0] the answer is made of the first [N]
    accepted entries, hence of at most [N] passage blocks; the sentinel and
    the diagnostic hold no passage block. *)
Theorem search_documents_budget config query :
  (0 <= context_window config)%Z ->
  exists blocks : list str,
    (Z.of_nat (length blocks) <= context_window config)%Z
    /\ match scan_stores query (vectorstores config) [] with
       | Ok results =>
         blocks = take (Z.to_nat (context_window config)) results
         /\ search_documents config query
            = (if decide (results = []) then no_info
               else join blank_line blocks)
       | Raise e =>
         blocks = []
         /\ search_documents config query = lit "Error al buscar: " ++ e
       end.
Proof.
  intros Hn. unfold search_documents.
  destruct (scan_stores query (vectorstores config) []) as [results|e].
  - exists (take (Z.to_nat (context_window config)) results). split.
    + rewrite length_take. lia.
    + split; [reflexivity|]. unfold slice_to.
      destruct (Z.ltb_spec (context_window config) 0); [lia|].
      destruct results; [reflexivity|].
      destruct (decide _) as [Heq|_]; [discriminate Heq|reflexivity].
  - exists []. split; [simpl; lia|]. split; reflexivity.
Qed.

Lemma search_documents_budget_scenario :
  exists blocks : list str,
    (Z.of_nat (length blocks) <= 2)%Z
    /\ blocks = [lit "[Uno]: A"; lit "[Dos]: B"]
    /\ search_documents scenario_abc (lit "q") = join blank_line blocks.
Proof.
  destruct (search_documents_budget scenario_abc (lit "q")) as (blocks & Hlen & H).
  - simpl. lia.
  - exists blocks. split; [exact Hlen|]. exact H.
Defined.

(** ** Agent loop *)





(** ** What a run leaves untouched *)

Lemma cap_messages_frame ss :
  agent (cap_messages ss) = agent ss
  /\ current_agent_config (cap_messages ss) = current_agent_config ss
  /\ pdf_content (cap_messages ss) = pdf_content ss.
Proof.
  unfold cap_messages. destruct (messages ss) as [msgs|]; [|done].
  destruct (decide _); done.
Qed.

Lemma cap_messages_log ss msgs :
  messages ss = Some msgs ->
  messages (cap_messages ss) = Some (trim ChatMode msgs).
Proof.
  intros H. unfold cap_messages, trim. rewrite H.
  destruct (decide _); [reflexivity|exact H].
Qed.

Lemma trim_length msgs : (length (trim ChatMode msgs) <= 15)%nat.
Proof.
  unfold trim, slice_last. destruct (decide _); [|lia].
  rewrite length_drop. lia.
Qed.

Lemma trim_suffix mode msgs : trim mode msgs `suffix_of` msgs.
Proof.
  destruct mode; simpl; [|done].
  destruct (decide _); [apply suffix_drop|done].
Qed.

Lemma trim_last mode msgs : last (trim mode msgs) = last msgs.
Proof.
  destruct mode; simpl; [|done].
  destruct (decide _) as [H|]; [|done]. unfold slice_last.
  rewrite !last_lookup, length_drop, lookup_drop. f_equal. lia.
Qed.

Lemma trim_short mode msgs : (length msgs <= 15)%nat -> trim mode msgs = msgs.
Proof.
  intros H. destruct mode; simpl; [|done]. destruct (decide _); [lia|done].
Qed.

Lemma ask_agent_keeps env config a input :
  exists a', (ask_agent env config (Some a) input).1 = Some a'.
Proof.
  simpl. destruct (agent_run (llm env) a input) as [r a']. simpl. eauto.
Qed.

Lemma chat_turn_frame env config build w msgs0 prompt :
  let w1 := (chat_turn env config build w msgs0 prompt).1 in
  agent (session_state w1)
  = (ask_agent env config (agent (session_state w))
       (build (msgs0 ++ [user_turn env prompt]) prompt)).1
  /\ current_agent_config (session_state w1)
     = current_agent_config (session_state w)
  /\ pdf_content (session_state w1) = pdf_content (session_state w).
Proof.
  unfold chat_turn.
  destruct (ask_agent _ _ _ _) as [held [response|e]]; simpl; [|done].
  destruct (save_agent_history _ _ _) as [fs [[]|e]]; done.
Qed.

Lemma chat_turn_raise env config build w msgs0 prompt e :
  (ask_agent env config (agent (session_state w))
     (build (msgs0 ++ [user_turn env prompt]) prompt)).2 = Raise e ->
  let r := chat_turn env config build w msgs0 prompt in
  messages (session_state r.1)
  = Some (msgs0 ++ [user_turn env prompt; error_turn env e])
  /\ files r.1 = files w
  /\ r.2 = [ChatMessage (user_turn env prompt); ErrorBox (lit "❌ Error: " ++ e)].
Proof.
  unfold chat_turn.
  destruct (ask_agent _ _ _ _) as [held r]. simpl. intros ->. simpl.
  now rewrite <- (app_assoc msgs0).
Qed.

Lemma chat_turn_ok env config build w msgs0 prompt response data :
  (ask_agent env config (agent (session_state w))
     (build (msgs0 ++ [user_turn env prompt]) prompt)).2 = Ok response ->
  utf8_encode (json_dumps (msgs0 ++ [user_turn env prompt;
                                      reply_turn env response])) = Some data ->
  let r := chat_turn env config build w msgs0 prompt in
  messages (session_state r.1)
  = Some (msgs0 ++ [user_turn env prompt; reply_turn env response])
  /\ files r.1 = <[history_path (get_agent_id env config) := data]> (files w)
  /\ r.2 = [ChatMessage (user_turn env prompt); AssistantText response].
Proof.
  unfold chat_turn.
  destruct (ask_agent _ _ _ _) as [held r]. simpl. intros -> Hd.
  unfold save_agent_history. rewrite <- (app_assoc msgs0). cbn [app].
  rewrite Hd. simpl. done.
Qed.

Lemma display_content_viewer_frame env fs ss path :
  let ss1 := (display_content_viewer env fs ss path).1.1.1 in
  messages ss1 = messages ss /\ agent ss1 = agent ss
  /\ current_agent_config ss1 = current_agent_config ss.
Proof.
  unfold display_content_viewer.
  destruct (_ || _); [done|].
  destruct (pdf_content ss !! cache_key path) as [pages|] eqn:Hc.
  - rewrite Hc. simpl. destruct pages as [|p pages]; [done|].
    destruct (_ !! selected_page env); done.
  - destruct (extract_pdf_content env fs path) as [pages shown]. simpl.
    rewrite lookup_insert_eq. simpl. destruct pages as [|p pages]; [done|].
    destruct (_ !! selected_page env); done.
Qed.

Lemma document_column_frame env config w :
  let ss1 := (document_column env config w).1.1 in
  messages ss1 = messages (session_state w)
  /\ agent ss1 = agent (session_state w)
  /\ current_agent_config ss1 = current_agent_config (session_state w).
Proof.
  unfold document_column.
  destruct (get_document_info (vectorstores config)) as [|d ds]; [done|].
  destruct (_ !! selected_doc env) as [[[t path] folder]|]; [|done].
  case_bool_decide; [|done].
  pose proof (display_content_viewer_frame env (files w) (session_state w) path)
    as Hv.
  destruct (display_content_viewer _ _ _ _) as [[[ss1 shown] calls] [[]|e]];
    exact Hv.
Qed.

(** ** A question, on either page *)

Lemma extract_pdf_content_no_turn env fs path :
  omap as_turn (extract_pdf_content env fs path).2 = [].
Proof.
  unfold extract_pdf_content. destruct (fs !! path) as [data|]; [|done].
  destruct (_ ≫= _); done.
Qed.

Lemma display_content_viewer_no_turn env fs ss path :
  omap as_turn (display_content_viewer env fs ss path).1.1.2 = [].
Proof.
  unfold display_content_viewer.
  destruct (_ || _); [done|].
  destruct (pdf_content ss !! cache_key path) as [pages|] eqn:Hc.
  - rewrite Hc. simpl. destruct pages as [|p pages]; [done|].
    destruct (_ !! selected_page env); done.
  - pose proof (extract_pdf_content_no_turn env fs path) as Hx.
    destruct (extract_pdf_content env fs path) as [pages shown]. simpl in *.
    rewrite lookup_insert_eq. simpl. destruct pages as [|p pages].
    + cbn [fst snd]. now rewrite omap_app, Hx.
    + destruct (_ !! selected_page env); cbn [fst snd]; [|done].
      now rewrite omap_app, Hx.
Qed.

Lemma document_column_no_turn env config w :
  omap as_turn (document_column env config w).1.2 = [].
Proof.
  unfold document_column.
  destruct (get_document_info (vectorstores config)) as [|d ds]; [done|].
  destruct (_ !! selected_doc env) as [[[t path] folder]|]; [|done].
  case_bool_decide; [|done].
  pose proof (display_content_viewer_no_turn env (files w) (session_state w) path)
    as Hv.
  destruct (display_content_viewer _ _ _ _) as [[[ss1 shown] calls] [[]|e]];
    cbn [fst snd] in *; [exact Hv|]. now rewrite omap_app, Hv.
Qed.

Lemma page_question mode env w config prompt :
  current_agent_config (session_state w) = Some config ->
  prompt <> [] ->
  exists w0 side calls,
    agent (session_state w0) = agent (session_state w)
    /\ files w0 = files w
    /\ current_agent_config (session_state w0) = Some config
    /\ omap as_turn side = []
    /\ page mode env w (ChatInput prompt)
       = let t := chat_turn env config (page_prompt mode env config) w0
                    (opening mode env config w) prompt in
         {| world := end_of_script mode t.1; outcome := Done;
            ui := side ++ map ChatMessage (opening mode env config w) ++ t.2;
            extracted := calls |}.
Proof.
  intros Hc Hp. destruct prompt as [|c prompt]; [done|].
  destruct mode.
  - exists {| session_state :=
                set_messages (Some (opening ChatMode env config w)) (session_state w);
              files := files w |}, [], [].
    split; [done|]. split; [done|]. split; [exact Hc|]. split; [done|].
    unfold page, chat_page, chat_main. rewrite Hc.
    unfold chat_column, opening. simpl.
    destruct (chat_turn _ _ _ _ _ _) as [w1 said]. reflexivity.
  - pose proof (document_column_frame env config w) as (Hm & Ha & Hcfg).
    pose proof (document_column_no_turn env config w) as Hno.
    destruct (document_column env config w) as [[ss1 shown] calls] eqn:Hdoc.
    simpl in Hm, Ha, Hcfg, Hno.
    exists {| session_state :=
                set_messages (Some (opening DocMode env config w)) ss1;
              files := files w |}, shown, calls.
    split; [exact Ha|]. split; [done|].
    split; [simpl; congruence|]. split; [exact Hno|].
    unfold page, doc_main. rewrite Hc, Hdoc. unfold opening. rewrite Hm. simpl.
    destruct (chat_turn _ _ _ _ _ _) as [w1 said]. reflexivity.
Qed.

Lemma end_of_script_log mode w msgs :
  messages (session_state w) = Some msgs ->
  messages (session_state (end_of_script mode w)) = Some (trim mode msgs).
Proof.
  destruct mode; simpl; [apply cap_messages_log|done].
Qed.

Lemma end_of_script_frame mode w :
  agent (session_state (end_of_script mode w)) = agent (session_state w)
  /\ current_agent_config (session_state (end_of_script mode w))
     = current_agent_config (session_state w)
  /\ files (end_of_script mode w) = files w.
Proof.
  destruct mode; simpl; [|done].
  destruct (cap_messages_frame (session_state w)) as (? & ? & ?). done.
Qed.

(** A question whose model invocation raises. *)
Lemma page_question_raise mode env w config prompt e :
  current_agent_config (session_state w) = Some config ->
  prompt <> [] ->
  (ask_agent env config (agent (session_state w))
     (page_prompt mode env config
        (opening mode env config w ++ [user_turn env prompt]) prompt)).2
  = Raise e ->
  let r := page mode env w (ChatInput prompt) in
  outcome r = Done
  /\ ErrorBox (lit "❌ Error: " ++ e) ∈ ui r
  /\ log r = trim mode (opening mode env config w
                        ++ [user_turn env prompt; error_turn env e])
  /\ files (world r) = files w
  /\ current_agent_config (session_state (world r)) = Some config.
Proof.
  intros Hc Hp He.
  destruct (page_question mode env w config prompt Hc Hp)
    as (w0 & side & calls & Ha & Hf & Hc0 & _ & ->).
  rewrite <- Ha in He.
  destruct (chat_turn_raise env config _ w0 _ prompt e He) as (Hm & Hfs & Hui).
  pose proof (chat_turn_frame env config (page_prompt mode env config) w0
                (opening mode env config w) prompt) as (_ & Hcfg & _).
  cbv zeta in *.
  destruct (chat_turn _ _ _ _ _ _) as [w1 said]. simpl in *.
  destruct (end_of_script_frame mode w1) as (_ & Hc1 & Hf1).
  split; [done|]. split.
  - rewrite Hui, !elem_of_app. right. right. apply elem_of_cons. right.
    apply list_elem_of_singleton. reflexivity.
  - split; [|split; congruence].
    unfold log. simpl. now rewrite (end_of_script_log mode w1 _ Hm).
Qed.

(** A question that is answered and saved. *)
Lemma page_question_ok mode env w config prompt response data :
  current_agent_config (session_state w) = Some config ->
  prompt <> [] ->
  (ask_agent env config (agent (session_state w))
     (page_prompt mode env config
        (opening mode env config w ++ [user_turn env prompt]) prompt)).2
  = Ok response ->
  utf8_encode (json_dumps (opening mode env config w
                           ++ [user_turn env prompt; reply_turn env response]))
  = Some data ->
  let r := page mode env w (ChatInput prompt) in
  outcome r = Done
  /\ log r = trim mode (opening mode env config w
                        ++ [user_turn env prompt; reply_turn env response])
  /\ files (world r)
     = <[history_path (get_agent_id env config) := data]> (files w).
Proof.
  intros Hc Hp He Hd.
  destruct (page_question mode env w config prompt Hc Hp)
    as (w0 & side & calls & Ha & Hf & Hc0 & _ & ->).
  rewrite <- Ha in He.
  destruct (chat_turn_ok env config _ w0 _ prompt response data He Hd)
    as (Hm & Hfs & Hui).
  cbv zeta in *.
  destruct (chat_turn _ _ _ _ _ _) as [w1 said]. simpl in *.
  destruct (end_of_script_frame mode w1) as (_ & Hc1 & Hf1).
  split; [done|]. split.
  - unfold log. simpl. now rewrite (end_of_script_log mode w1 _ Hm).
  - congruence.
Qed.

(** ** Runs without a question *)

Lemma omap_ChatMessage (l : list Turn) : omap as_turn (map ChatMessage l) = l.
Proof. induction l as [|t l IH]; [done|]. cbn. now f_equal. Qed.

Lemma chat_column_quiet env config w ev side :
  is_question ev = false ->
  let r := chat_column env config w ev side in
  agent (session_state (world r)) = agent (session_state w)
  /\ files (world r) = files w
  /\ pdf_content (session_state (world r)) = pdf_content (session_state w)
  /\ current_agent_config (session_state (world r))
     = current_agent_config (session_state w)
  /\ outcome r = Done
  /\ log r = trim ChatMode (opening ChatMode env config w)
  /\ shown_turns r = omap as_turn side ++ opening ChatMode env config w.
Proof.
  intros Hq.
  assert (Heq : chat_column env config w ev side
    = {| world :=
           {| session_state :=
                cap_messages (set_messages (Some (opening ChatMode env config w))
                                (session_state w));
              files := files w |};
         outcome := Done;
         ui := side ++ map ChatMessage (opening ChatMode env config w) ++ [];
         extracted := [] |}).
  { destruct ev as [| | | | |[|c p]]; try discriminate Hq; reflexivity. }
  rewrite Heq. simpl.
  pose proof (cap_messages_frame
    (set_messages (Some (opening ChatMode env config w)) (session_state w)))
    as (Ha & Hc & Hp).
  repeat split; try assumption.
  - unfold log. simpl. now rewrite (cap_messages_log _ (opening ChatMode env config w)).
  - unfold shown_turns. simpl. rewrite app_nil_r, omap_app. f_equal.
    apply omap_ChatMessage.
Qed.

Lemma is_history_not_actual fs config h :
  is_history fs config h = true -> bool_decide (h = lit "Actual") = false.
Proof.
  intros H. apply bool_decide_eq_false. intros ->.
  unfold is_history in H. apply andb_prop in H as [H _].
  apply andb_prop in H as [H _]. discriminate H.
Qed.

(** Loading: the agent, the files, the page cache and the configuration
    stay as they were. *)
Lemma chat_page_load_frame env w h :
  let r := chat_page env w (LoadButton h) in
  agent (session_state (world r)) = agent (session_state w)
  /\ files (world r) = files w
  /\ pdf_content (session_state (world r)) = pdf_content (session_state w)
  /\ current_agent_config (session_state (world r))
     = current_agent_config (session_state w).
Proof.
  unfold chat_page, chat_main.
  destruct (current_agent_config (session_state w)) as [config|] eqn:Hc.
  - destruct (is_history _ _ _ && _).
    + destruct (load_agent_history (files w) h) as [msgs|e]; simpl.
      * rewrite Hc.
        pose proof (chat_column_quiet env config
          {| session_state := set_messages (Some msgs) (session_state w);
             files := files w |} Idle [] eq_refl) as (? & ? & ? & ? & _).
        simpl in *. repeat split; congruence.
      * repeat split; congruence.
    + pose proof (chat_column_quiet env config w Idle [] eq_refl)
        as (? & ? & ? & ? & Ho & _).
      cbv zeta in *. rewrite Ho. repeat split; congruence.
  - simpl. rewrite Hc. done.
Qed.

Lemma chat_page_load_log env w h config msgs :
  current_agent_config (session_state w) = Some config ->
  is_history (files w) config h = true ->
  load_agent_history (files w) h = Ok msgs ->
  outcome (chat_page env w (LoadButton h)) = Done
  /\ log (chat_page env w (LoadButton h)) = trim ChatMode msgs.
Proof.
  intros Hc Hh Hl. unfold chat_page, chat_main. rewrite Hc, Hh, Hl.
  rewrite (is_history_not_actual _ _ _ Hh). simpl. rewrite Hc.
  pose proof (chat_column_quiet env config
    {| session_state := set_messages (Some msgs) (session_state w);
       files := files w |} Idle [] eq_refl) as (_ & _ & _ & _ & Ho & Hlog & _).
  split; [exact Ho|exact Hlog].
Qed.

(** Only the clear button takes the agent away. *)
Lemma chat_main_keeps_agent env w ev a :
  agent (session_state w) = Some a ->
  ev <> ClearButton ->
  exists a', agent (session_state (world (chat_main env w ev))) = Some a'.
Proof.
  intros Ha Hev. unfold chat_main.
  destruct (current_agent_config (session_state w)) as [config|] eqn:Hc;
    [|simpl; eauto].
  assert (Hcol : forall w' side,
            agent (session_state w') = Some a ->
            exists a', agent (session_state
                         (world (chat_column env config w' ev side))) = Some a').
  { intros w' side Ha'. destruct (is_question ev) eqn:Hq.
    - destruct ev as [| | | | |[|c p]]; try discriminate Hq.
      unfold chat_column.
      pose proof (chat_turn_frame env config (chat_prompt env config)
        {| session_state :=
             set_messages (Some (opening ChatMode env config w')) (session_state w');
           files := files w' |} (opening ChatMode env config w') (c :: p))
        as (Hag & _).
      fold (opening ChatMode env config w').
      destruct (chat_turn _ _ _ _ _ _) as [w1 said]. simpl in *.
      destruct (cap_messages_frame (session_state w1)) as (-> & _).
      rewrite Hag, Ha'. apply ask_agent_keeps.
    - pose proof (chat_column_quiet env config w' ev side Hq) as (-> & _).
      eauto. }
  destruct ev as [| |h| | |p]; try (apply Hcol; exact Ha); [| done |].
  - destruct (is_history _ _ _ && _).
    + destruct (load_agent_history (files w) h); simpl; eauto.
    + pose proof (chat_column_quiet env config w Idle [] eq_refl) as (-> & _).
      eauto.
  - destruct (messages (session_state w)) as [[|t msgs]|];
      [apply (Hcol w []); exact Ha| |simpl; eauto].
    destruct (save_agent_history _ _ _) as [fs [[]|e]]; [|simpl; eauto].
    apply (Hcol {| session_state := session_state w; files := fs |}
                [SuccessBox (lit "✅ Historial guardado correctamente")]).
    exact Ha.
Qed.

Lemma doc_main_keeps_agent env w ev a :
  agent (session_state w) = Some a ->
  exists a', agent (session_state (world (doc_main env w ev))) = Some a'.
Proof.
  intros Ha. unfold doc_main.
  destruct (current_agent_config (session_state w)) as [config|]; [|simpl; eauto].
  pose proof (document_column_frame env config w) as (Hm & Hag & _).
  destruct (document_column env config w) as [[ss1 shown] calls]. simpl in *.
  destruct (is_question ev) eqn:Hq.
  - destruct ev as [| | | | |[|c p]]; try discriminate Hq.
    match goal with |- context [chat_turn ?e ?c ?b ?w0 ?m ?p] =>
      pose proof (chat_turn_frame e c b w0 m p) as (Hag' & _);
      destruct (chat_turn e c b w0 m p) as [w1 said] end.
    simpl in *. rewrite Hag', Hag, Ha. apply ask_agent_keeps.
  - assert (Hsame : forall (A : Type) (x : World * list Widget)
                      (f : str -> World * list Widget),
              match ev with ChatInput ((_ :: _) as prompt) => f prompt | _ => x end = x).
    { intros A x f. destruct ev as [| | | | |[|c p]]; try reflexivity.
      discriminate Hq. }
    rewrite (Hsame unit). simpl. rewrite Hag, Ha. eauto.
Qed.

Lemma page_keeps_agent mode env w ev a :
  agent (session_state w) = Some a ->
  agent (session_state (world (page mode env w ev))) = None ->
  mode = ChatMode /\ ev = ClearButton.
Proof.
  intros Ha Hn. destruct mode.
  - split; [reflexivity|].
    assert (ev = ClearButton \/ ev <> ClearButton) as [|Hev]
      by (destruct ev; (by left) || (by right)); [done|].
    exfalso. unfold page, chat_page in Hn.
    destruct (chat_main_keeps_agent env w ev a Ha Hev) as [a1 H1].
    destruct (outcome (chat_main env w ev)); try congruence.
    destruct (chat_main_keeps_agent env (world (chat_main env w ev)) Idle a1 H1)
      as [a2 H2]; [done|]. congruence.
  - destruct (doc_main_keeps_agent env w ev a Ha) as [a' H']. simpl in Hn.
    congruence.
Qed.

(** ** Conversation memory: the claims *)

(** The chat page ends every completed run with a log of at most 15
    turns, the last ones of the log it had. *)
Lemma chat_page_log_capped env w ev :
  outcome (chat_page env w ev) = Done ->
  (length (log (chat_page env w ev)) <= 15)%nat.
Proof.
  assert (Hcol : forall config w' ev' side,
            (length (log (chat_column env config w' ev' side)) <= 15)%nat).
  { intros config w' ev' side. unfold chat_column, log.
    destruct (match ev' with ChatInput ((_ :: _) as prompt) => _ | _ => _ end)
      as [w1 said]. simpl.
    destruct (messages (session_state w1)) as [msgs|] eqn:Hm.
    - rewrite (cap_messages_log _ _ Hm). simpl. apply trim_length.
    - unfold cap_messages. rewrite Hm, Hm. simpl. lia. }
  assert (Hmain : forall w' ev',
            outcome (chat_main env w' ev') = Done ->
            (length (log (chat_main env w' ev')) <= 15)%nat).
  { intros w' ev'. unfold chat_main.
    destruct (current_agent_config (session_state w')) as [config|].
    - destruct ev' as [| |h| | |p]; try (intros _; apply Hcol).
      + destruct (is_history _ _ _ && _); [|intros _; apply Hcol].
        destruct (load_agent_history _ _); discriminate.
      + discriminate.
      + destruct (messages (session_state w')) as [[|t msgs]|];
          [intros _; apply Hcol| |discriminate].
        destruct (save_agent_history _ _ _) as [fs [[]|e]];
          [intros _; apply Hcol|discriminate].
    - destruct ev'; discriminate. }
  unfold chat_page.
  destruct (outcome (chat_main env w ev)) eqn:Ho; try (rewrite Ho; discriminate).
  - intros _. now apply Hmain.
  - apply Hmain.
Qed.

Lemma chat_turn_grows env config build w msgs0 prompt :
  exists added,
    messages (session_state (chat_turn env config build w msgs0 prompt).1)
    = Some (msgs0 ++ added)
    /\ (2 <= length added)%nat.
Proof.
  unfold chat_turn.
  destruct (ask_agent _ _ _ _) as [held [response|e]]; simpl.
  - destruct (save_agent_history _ _ _) as [fs [[]|e]]; simpl.
    + exists [user_turn env prompt; reply_turn env response].
      rewrite <- (app_assoc msgs0). simpl. split; [done|lia].
    + exists [user_turn env prompt; reply_turn env response; error_turn env e].
      rewrite <- !(app_assoc msgs0). simpl. split; [done|lia].
  - exists [user_turn env prompt; error_turn env e].
    rewrite <- (app_assoc msgs0). simpl. split; [done|lia].
Qed.

(** On the document page every question makes the log longer by two
    turns at least, and nothing is ever taken off: there is no bound. *)
Lemma doc_main_question_grows env w config prompt :
  current_agent_config (session_state w) = Some config ->
  prompt <> [] ->
  exists added,
    log (doc_main env w (ChatInput prompt))
    = opening DocMode env config w ++ added
    /\ (2 <= length added)%nat.
Proof.
  intros Hc Hp.
  destruct (page_question DocMode env w config prompt Hc Hp)
    as (w0 & side & calls & _ & _ & _ & _ & Hpage).
  simpl in Hpage. rewrite Hpage.
  destruct (chat_turn_grows env config (doc_prompt env config) w0
              (opening DocMode env config w) prompt) as (added & Hm & Hlen).
  exists added. unfold log. simpl. rewrite Hm. done.
Qed.

(** C3: the document page does not cut the log.  After eight answered
    questions its session holds 17 turns; the chat page, on the same
    questions, holds the last 15, and the file it wrote holds 17. *)
Theorem doc_page_log_not_capped :
  length (default [] (messages (session_state (after_eight DocMode)))) = 17%nat
  /\ length (default [] (messages (session_state (after_eight ChatMode)))) = 15%nat
  /\ (load_agent_history (files (after_eight ChatMode)) (lit "agent_Tutor_20240101")
      ≫= fun stored => Ok (length stored)) = Ok 17%nat.
Proof. vm_compute. repeat split; reflexivity. Qed.

(** C4, as stated, fails: on a fresh session whose model fails, the error
    turn is in the log but no session file has been written, so the
    stored history is empty. *)
Lemma failure_handling_as_stated_fails :
  ~ failure_handling_as_stated ChatMode (reading (failing "quota"))
      (fresh scenario_abc) (lit "hola").
Proof.
  intros H.
  destruct (H scenario_abc (lit "quota") eq_refl eq_refl)
    as (_ & _ & _ & stored & Hl & Hin).
  vm_compute in Hl. injection Hl as <-. now apply elem_of_nil in Hin.
Qed.

(** C4, amended: when the model invocation of a question raises, on either
    page, in a session whose turns the page can display, the run completes,
    shows the error, and appends it to the log as an assistant turn after
    the question; it writes no file.  The next question is handled as
    usual, and when its answer is saved, under an agent id that names a
    file of the history directory, the file gets the whole log, which holds
    the error turn. *)
Theorem model_error_is_reported mode env w config prompt e :
  current_agent_config (session_state w) = Some config ->
  prompt <> [] ->
  (ask_agent env config (agent (session_state w))
     (page_prompt mode env config
        (opening mode env config w ++ [user_turn env prompt]) prompt)).2
  = Raise e ->
  forallb displayable
    (opening mode env config w ++ [user_turn env prompt; error_turn env e])
  = true ->
  let r := page mode env w (ChatInput prompt) in
  outcome r = Done
  /\ ErrorBox (lit "❌ Error: " ++ e) ∈ ui r
  /\ log r = trim mode (opening mode env config w
                        ++ [user_turn env prompt; error_turn env e])
  /\ last (log r) = Some (error_turn env e)
  /\ role (error_turn env e) = lit "assistant"
  /\ files (world r) = files w
  /\ forall env2 prompt2 answer data,
       prompt2 <> [] ->
       (ask_agent env2 config (agent (session_state (world r)))
          (page_prompt mode env2 config
             (log r ++ [user_turn env2 prompt2]) prompt2)).2 = Ok answer ->
       file_name (get_agent_id env2 config) = true ->
       forallb displayable
         (log r ++ [user_turn env2 prompt2; reply_turn env2 answer]) = true ->
       utf8_encode (json_dumps (log r ++ [user_turn env2 prompt2;
                                          reply_turn env2 answer])) = Some data ->
       let r2 := page mode env2 (world r) (ChatInput prompt2) in
       outcome r2 = Done
       /\ files (world r2)
          = <[history_path (get_agent_id env2 config) := data]> (files w)
       /\ error_turn env e ∈ log r ++ [user_turn env2 prompt2;
                                       reply_turn env2 answer]
       /\ log r2 = trim mode (log r ++ [user_turn env2 prompt2;
                                        reply_turn env2 answer]).
Proof.
  intros Hc Hp He _ r.
  destruct (page_question_raise mode env w config prompt e Hc Hp He)
    as (Ho & Hui & Hlog & Hf & Hc').
  fold r in Ho, Hui, Hlog, Hf, Hc'.
  assert (Hlast : last (log r) = Some (error_turn env e)).
  { rewrite Hlog, trim_last.
    change [user_turn env prompt; error_turn env e]
      with ([user_turn env prompt] ++ [error_turn env e]).
    now rewrite app_assoc, last_snoc. }
  split; [exact Ho|]. split; [exact Hui|]. split; [exact Hlog|].
  split; [exact Hlast|]. split; [reflexivity|]. split; [exact Hf|].
  intros env2 prompt2 answer data Hp2 Hans _ _ Hdata r2.
  assert (Hm : messages (session_state (world r)) = Some (log r)).
  { unfold log. destruct (messages (session_state (world r))) as [msgs|] eqn:Hm;
      [reflexivity|].
    unfold log in Hlast. rewrite Hm in Hlast. discriminate. }
  assert (Hopen : opening mode env2 config (world r) = log r).
  { unfold opening. now rewrite Hm. }
  rewrite <- Hopen in Hans, Hdata.
  destruct (page_question_ok mode env2 (world r) config prompt2 answer data
              Hc' Hp2 Hans Hdata) as (Ho2 & Hlog2 & Hf2).
  fold r2 in Ho2, Hlog2, Hf2. rewrite Hopen in Hlog2.
  split; [exact Ho2|]. split; [now rewrite Hf2, Hf|]. split; [|exact Hlog2].
  apply elem_of_app. left. apply last_Some in Hlast as [l' ->].
  apply elem_of_app. right. now apply list_elem_of_singleton.
Qed.

Lemma model_error_is_reported_quota :
  last (log (page ChatMode (reading (failing "quota")) (fresh scenario_abc)
               (ChatInput (lit "hola"))))
  = Some (error_turn (reading (failing "quota")) (lit "quota"))
  /\ files (world (page ChatMode (reading (failing "quota")) (fresh scenario_abc)
                     (ChatInput (lit "hola")))) = ∅.
Proof.
  destruct (model_error_is_reported ChatMode (reading (failing "quota"))
              (fresh scenario_abc) scenario_abc (lit "hola") (lit "quota")
              eq_refl) as (_ & _ & _ & Hlast & _ & Hf & _).
  - discriminate.
  - reflexivity.
  - vm_compute. reflexivity.
  - split; [exact Hlast|exact Hf].
Defined.

(** ** The welcome turn *)

Lemma chat_turn_log env config build w msgs0 prompt :
  exists rest,
    messages (session_state (chat_turn env config build w msgs0 prompt).1)
    = Some (msgs0 ++ user_turn env prompt :: rest)
    /\ (length rest <= 2)%nat
    /\ omap as_turn (chat_turn env config build w msgs0 prompt).2
       = [user_turn env prompt].
Proof.
  unfold chat_turn.
  destruct (ask_agent _ _ _ _) as [held [response|e]]; simpl.
  - destruct (save_agent_history _ _ _) as [fs [[]|e]]; simpl.
    + exists [reply_turn env response]. rewrite <- (app_assoc msgs0). simpl.
      split; [done|]. split; [lia|done].
    + exists [reply_turn env response; error_turn env e].
      rewrite <- !(app_assoc msgs0). simpl. split; [done|]. split; [lia|done].
  - exists [error_turn env e]. rewrite <- (app_assoc msgs0). simpl.
    split; [done|]. split; [lia|done].
Qed.

Lemma doc_main_quiet env w config ev :
  current_agent_config (session_state w) = Some config ->
  is_question ev = false ->
  let r := doc_main env w ev in
  outcome r = Done
  /\ log r = opening DocMode env config w
  /\ shown_turns r = opening DocMode env config w.
Proof.
  intros Hc Hq. unfold doc_main. rewrite Hc.
  pose proof (document_column_frame env config w) as (Hm & _).
  pose proof (document_column_no_turn env config w) as Hno.
  destruct (document_column env config w) as [[ss1 shown] calls].
  simpl in Hm, Hno. unfold opening. simpl. rewrite Hm.
  set (msgs0 := match messages (session_state w) with
                | Some msgs => msgs
                | None => [doc_welcome env config]
                end).
  assert (Heq : forall x (f : str -> World * list Widget),
            match ev with ChatInput ((_ :: _) as prompt) => f prompt | _ => x end = x).
  { intros x f. destruct ev as [| | | | |[|c p]]; try reflexivity.
    discriminate Hq. }
  rewrite Heq. unfold log, shown_turns. simpl.
  split; [done|]. split; [done|].
  now rewrite app_nil_r, omap_app, Hno, omap_ChatMessage.
Qed.

Lemma chat_page_quiet env w config ev :
  current_agent_config (session_state w) = Some config ->
  ev = Idle \/ ev = ChatInput [] ->
  let r := chat_page env w ev in
  outcome r = Done
  /\ log r = trim ChatMode (opening ChatMode env config w)
  /\ shown_turns r = opening ChatMode env config w.
Proof.
  intros Hc Hev.
  assert (Heq : chat_page env w ev = chat_column env config w ev []).
  { unfold chat_page, chat_main. rewrite Hc.
    destruct Hev as [-> | ->]; reflexivity. }
  rewrite Heq.
  assert (Hq : is_question ev = false) by (destruct Hev as [-> | ->]; done).
  pose proof (chat_column_quiet env config w ev [] Hq)
    as (_ & _ & _ & _ & Ho & Hlog & Hshown).
  done.
Qed.

(** C9, as stated, fails: after the clear button the log is there and
    empty, no welcome turn is made, and the page shows no turn. *)
Lemma display_never_empty_as_stated_fails :
  ~ display_never_empty_as_stated ChatMode (reading (answering "ok"))
      (world (page ChatMode (reading (answering "ok")) (fresh scenario_abc) Idle))
      ClearButton.
Proof.
  intros H. apply (H scenario_abc eq_refl eq_refl). reflexivity.
Qed.

(** C9, amended: a run of either page that finds an agent configured and
    no log in the session, and is idle or carries the chat input, makes
    the log of exactly one welcome turn, an assistant turn with the time
    of the run, before the input is handled: the run shows the welcome
    first, then the question if there is one, and the log it leaves starts
    with the welcome.  (A log that is there but empty gets no welcome.) *)
Theorem welcome_on_first_run mode env w config ev :
  current_agent_config (session_state w) = Some config ->
  messages (session_state w) = None ->
  (ev = Idle \/ exists prompt, ev = ChatInput prompt) ->
  let r := page mode env w ev in
  let hello := welcome mode env config in
  role hello = lit "assistant"
  /\ timestamp hello = clock env 0
  /\ outcome r = Done
  /\ opening mode env config w = [hello]
  /\ (exists asked,
        shown_turns r = hello :: asked
        /\ (is_question ev = false -> asked = [])
        /\ (forall p, ev = ChatInput p -> p <> [] -> asked = [user_turn env p]))
  /\ (exists added,
        log r = hello :: added
        /\ (is_question ev = false -> added = [])
        /\ (forall p, ev = ChatInput p -> p <> [] ->
              exists rest, added = user_turn env p :: rest)).
Proof.
  intros Hc Hm Hev r hello.
  assert (Hopen : opening mode env config w = [hello])
    by (unfold opening; now rewrite Hm).
  split; [now destruct mode|]. split; [now destruct mode|].
  destruct (is_question ev) eqn:Hq.
  - destruct Hev as [-> | [p ->]]; [discriminate Hq|].
    assert (Hp : p <> []) by (destruct p; [discriminate Hq|done]).
    destruct (page_question mode env w config p Hc Hp)
      as (w0 & side & calls & _ & _ & _ & Hside & Hpage).
    destruct (chat_turn_log env config (page_prompt mode env config) w0
                (opening mode env config w) p) as (rest & Hlog & Hlen & Hsaid).
    subst r. rewrite Hpage. cbv zeta.
    destruct (chat_turn _ _ _ _ _ _) as [w1 said]. simpl in *.
    split; [done|]. split; [exact Hopen|]. split.
    + exists [user_turn env p]. unfold shown_turns. simpl.
      rewrite !omap_app, Hside, omap_ChatMessage, Hsaid, Hopen.
      split; [done|]. split; [done|]. now intros p' [= <-] _.
    + exists (user_turn env p :: rest). unfold log. simpl.
      rewrite (end_of_script_log mode w1 _ Hlog), Hopen.
      rewrite trim_short by (simpl; lia).
      split; [done|]. split; [done|]. intros p' [= <-] _. eauto.
  - assert (Hquiet : outcome r = Done /\ log r = [hello] /\ shown_turns r = [hello]).
    { subst r. destruct mode.
      - assert (Hev' : ev = Idle \/ ev = ChatInput []).
        { destruct Hev as [-> | [[|c p] ->]]; [by left|by right|discriminate Hq]. }
        destruct (chat_page_quiet env w config ev Hc Hev') as (Ho & Hl & Hs).
        rewrite Hopen in Hl, Hs. done.
      - destruct (doc_main_quiet env w config ev Hc Hq) as (Ho & Hl & Hs).
        rewrite Hopen in Hl, Hs. done. }
    destruct Hquiet as (Ho & Hl & Hs).
    split; [exact Ho|]. split; [exact Hopen|]. split.
    + exists []. split; [exact Hs|]. split; [done|].
      intros p -> Hp. destruct p; [done|discriminate Hq].
    + exists []. split; [exact Hl|]. split; [done|].
      intros p -> Hp. destruct p; [done|discriminate Hq].
Qed.

Lemma welcome_on_first_run_fresh :
  shown_turns (page DocMode (reading (answering "ok")) (fresh scenario_abc) Idle)
  = [doc_welcome (reading (answering "ok")) scenario_abc].
Proof.
  destruct (welcome_on_first_run DocMode (reading (answering "ok"))
              (fresh scenario_abc) scenario_abc Idle eq_refl eq_refl)
    as (_ & _ & _ & _ & (asked & Hs & Hq & _) & _).
  - left. reflexivity.
  - rewrite Hs, (Hq eq_refl). reflexivity.
Defined.

(** ** Loading and clearing *)

(** C10: loading a stored history leaves the agent (with its memory), the
    files, the page cache and the configuration as they were, and makes the
    loaded turns, when they are turns the page can display, the log (cut
    to the last 15); no run of either page takes an agent away from
    the session except the clear button of the chat page, after which the
    next question builds a new agent, with an empty memory. *)
Theorem load_keeps_the_agent env w h :
  let r := chat_page env w (LoadButton h) in
  agent (session_state (world r)) = agent (session_state w)
  /\ files (world r) = files w
  /\ pdf_content (session_state (world r)) = pdf_content (session_state w)
  /\ current_agent_config (session_state (world r))
     = current_agent_config (session_state w)
  /\ (forall config msgs,
        current_agent_config (session_state w) = Some config ->
        is_history (files w) config h = true ->
        load_agent_history (files w) h = Ok msgs ->
        forallb displayable msgs = true ->
        outcome r = Done /\ log r = trim ChatMode msgs)
  /\ (forall mode env' w' ev a,
        agent (session_state w') = Some a ->
        agent (session_state (world (page mode env' w' ev))) = None ->
        mode = ChatMode /\ ev = ClearButton)
  /\ (forall config,
        current_agent_config (session_state w) = Some config ->
        let c := chat_page env w ClearButton in
        agent (session_state (world c)) = None
        /\ log c = []
        /\ chat_history (initialize_agent config) = []
        /\ forall env' input,
             ask_agent env' config (agent (session_state (world c))) input
             = match chat_model env' with
               | Raise e => (None, Raise e)
               | Ok _ =>
                 let '(answer, a') :=
                   agent_run (llm env') (initialize_agent config) input in
                 (Some a', answer)
               end).
Proof.
  intros r.
  destruct (chat_page_load_frame env w h) as (Ha & Hf & Hp & Hc).
  repeat (split; [assumption|]).
  split; [intros config msgs Hcfg Hh Hl _;
          exact (chat_page_load_log env w h config msgs Hcfg Hh Hl)|].
  split; [apply page_keeps_agent|].
  intros config Hcfg c.
  assert (Hclear : agent (session_state (world c)) = None /\ log c = []).
  { subst c. unfold chat_page, chat_main. rewrite Hcfg. simpl. rewrite Hcfg.
    pose proof (chat_column_quiet env config
      {| session_state := set_agent None (set_messages (Some []) (session_state w));
         files := files w |} Idle [] eq_refl) as (Hag & _ & _ & _ & _ & Hlog & _).
    split; [exact Hag|exact Hlog]. }
  destruct Hclear as [Hag Hlog].
  split; [exact Hag|]. split; [exact Hlog|]. split; [reflexivity|].
  intros env' input. rewrite Hag. reflexivity.
Qed.

Lemma load_keeps_the_agent_after_one :
  is_Some (agent (session_state after_one))
  /\ agent (session_state (world (chat_page (reading (answering "ok")) after_one
                                    (LoadButton (lit "agent_Tutor_20240101")))))
     = agent (session_state after_one)
  /\ agent (session_state (world (chat_page (reading (answering "ok")) after_one
                                    ClearButton))) = None.
Proof.
  destruct (load_keeps_the_agent (reading (answering "ok")) after_one
              (lit "agent_Tutor_20240101")) as (Ha & _ & _ & _ & _ & _ & Hclear).
  split; [eexists; reflexivity|]. split; [exact Ha|].
  destruct (Hclear scenario_abc eq_refl) as (Hnone & _). exact Hnone.
Defined.

(** ** Document pager *)

Lemma display_content_viewer_calls env fs ss path :
  let v := display_content_viewer env fs ss path in
  (v.1.2 = [] /\ pdf_content v.1.1.1 = pdf_content ss)
  \/ (v.1.2 = [path] /\ cached_pages ss path = None
      /\ path <> [] /\ is_Some (fs !! path)
      /\ pdf_content v.1.1.1
         = <[cache_key path := (extract_pdf_content env fs path).1]>
             (pdf_content ss)).
Proof.
  unfold display_content_viewer, cached_pages.
  destruct (bool_decide (path = [])) eqn:Hp; [left; done|].
  destruct (bool_decide (is_Some (fs !! path))) eqn:Hf; [|left; done].
  apply bool_decide_eq_false in Hp. apply bool_decide_eq_true in Hf.
  cbn [orb negb].
  destruct (pdf_content ss !! cache_key path) as [pages|] eqn:Hc.
  - left. rewrite Hc. simpl. destruct pages as [|p pages]; [done|].
    destruct (_ !! selected_page env); done.
  - right. destruct (extract_pdf_content env fs path) as [pages shown].
    cbn [fst snd pdf_content set_pdf_content]. rewrite lookup_insert_eq.
    cbn [default]. destruct pages as [|p pages]; [done|].
    destruct (_ !! selected_page env); done.
Qed.

Lemma document_column_calls env config w :
  let d := document_column env config w in
  (d.2 = [] /\ pdf_content d.1.1 = pdf_content (session_state w))
  \/ exists path,
       d.2 = [path] /\ cached_pages (session_state w) path = None
       /\ pdf_content d.1.1
          = <[cache_key path := (extract_pdf_content env (files w) path).1]>
              (pdf_content (session_state w)).
Proof.
  unfold document_column.
  destruct (get_document_info (vectorstores config)) as [|d ds]; [left; done|].
  destruct (_ !! selected_doc env) as [[[t path] folder]|]; [|left; done].
  case_bool_decide; [|left; done].
  pose proof (display_content_viewer_calls env (files w) (session_state w) path)
    as Hv.
  destruct (display_content_viewer _ _ _ _) as [[[ss1 shown] calls] [[]|e]];
    cbn [fst snd] in *.
  - destruct Hv as [Hv|(? & ? & _ & _ & ?)]; [left; exact Hv|right; eauto].
  - destruct Hv as [Hv|(? & ? & _ & _ & ?)]; [left; exact Hv|right; eauto].
Qed.

Lemma chat_column_pdf env config w ev side :
  pdf_content (session_state (world (chat_column env config w ev side)))
  = pdf_content (session_state w)
  /\ extracted (chat_column env config w ev side) = [].
Proof.
  destruct (is_question ev) eqn:Hq.
  - destruct ev as [| | | | |[|c p]]; try discriminate Hq.
    unfold chat_column.
    match goal with |- context [chat_turn ?e ?c ?b ?w0 ?m ?p] =>
      pose proof (chat_turn_frame e c b w0 m p) as (_ & _ & Hpdf);
      destruct (chat_turn e c b w0 m p) as [w1 said] end.
    simpl in *. destruct (cap_messages_frame (session_state w1)) as (_ & _ & ->).
    done.
  - pose proof (chat_column_quiet env config w ev side Hq) as (_ & _ & Hp & _).
    split; [exact Hp|]. unfold chat_column.
    destruct (match ev with ChatInput ((_ :: _) as prompt) => _ | _ => _ end);
      reflexivity.
Qed.

Lemma chat_main_pdf env w ev :
  pdf_content (session_state (world (chat_main env w ev)))
  = pdf_content (session_state w)
  /\ extracted (chat_main env w ev) = [].
Proof.
  unfold chat_main.
  destruct (current_agent_config (session_state w)) as [config|]; [|done].
  destruct ev as [| |h| | |p]; try apply chat_column_pdf; [| done |].
  - destruct (is_history _ _ _ && _); [|apply chat_column_pdf].
    destruct (load_agent_history _ _); done.
  - destruct (messages (session_state w)) as [[|t msgs]|];
      [apply chat_column_pdf| |done].
    destruct (save_agent_history _ _ _) as [fs [[]|e]]; [|done].
    apply (chat_column_pdf env config {| session_state := session_state w;
                                        files := fs |}).
Qed.

Lemma chat_page_pdf env w ev :
  pdf_content (session_state (world (chat_page env w ev)))
  = pdf_content (session_state w)
  /\ extracted (chat_page env w ev) = [].
Proof.
  unfold chat_page. destruct (chat_main_pdf env w ev) as [H1 H2].
  destruct (outcome (chat_main env w ev)); try done.
  destruct (chat_main_pdf env (world (chat_main env w ev)) Idle) as [H3 H4].
  split; congruence.
Qed.

Lemma doc_main_pdf env w ev :
  let r := doc_main env w ev in
  (extracted r = []
   /\ pdf_content (session_state (world r)) = pdf_content (session_state w))
  \/ exists path pages,
       extracted r = [path] /\ cached_pages (session_state w) path = None
       /\ pdf_content (session_state (world r))
          = <[cache_key path := pages]> (pdf_content (session_state w)).
Proof.
  unfold doc_main.
  destruct (current_agent_config (session_state w)) as [config|]; [|left; done].
  pose proof (document_column_calls env config w) as Hd.
  destruct (document_column env config w) as [[ss1 shown] calls].
  cbn [fst snd] in Hd.
  assert (Hpdf : forall w1 said,
    (match ev with
     | ChatInput ((_ :: _) as prompt) =>
       chat_turn env config (doc_prompt env config)
         {| session_state :=
              set_messages
                (Some match messages ss1 with
                      | Some msgs => msgs
                      | None => [doc_welcome env config]
                      end) ss1;
            files := files w |}
         match messages ss1 with
         | Some msgs => msgs
         | None => [doc_welcome env config]
         end prompt
     | _ => ({| session_state :=
                  set_messages
                    (Some match messages ss1 with
                          | Some msgs => msgs
                          | None => [doc_welcome env config]
                          end) ss1;
                files := files w |}, [])
     end) = (w1, said) ->
    pdf_content (session_state w1) = pdf_content ss1).
  { intros w1 said Heq. destruct (is_question ev) eqn:Hq.
    - destruct ev as [| | | | |[|c p]]; try discriminate Hq.
      match type of Heq with chat_turn ?e ?c ?b ?w0 ?m ?p = _ =>
        pose proof (chat_turn_frame e c b w0 m p) as (_ & _ & Hp) end.
      rewrite Heq in Hp. exact Hp.
    - destruct ev as [| | | | |[|c p]]; try discriminate Hq;
        simplify_eq; reflexivity. }
  cbv zeta.
  destruct (match ev with ChatInput ((_ :: _) as prompt) => _ | _ => _ end)
    as [w1 said] eqn:Heq.
  specialize (Hpdf w1 said eq_refl). simpl.
  destruct Hd as [[-> Hd]|(path & -> & Hn & Hd)].
  - left. split; [done|congruence].
  - right. exists path, (extract_pdf_content env (files w) path).1.
    split; [done|]. split; [exact Hn|congruence].
Qed.

(** One interaction: at most one extraction, of a path that was not
    cached and is cached afterwards; what was cached stays cached. *)
Lemma interact_calls w i :
  let r := interact w i in
  (forall p, p ∈ extracted r ->
     cached_pages (session_state w) p = None
     /\ is_Some (cached_pages (session_state (world r)) p))
  /\ NoDup (extracted r)
  /\ (forall q, is_Some (cached_pages (session_state w) q) ->
        cached_pages (session_state (world r)) q
        = cached_pages (session_state w) q).
Proof.
  unfold interact. destruct (on_page i); simpl.
  - destruct (chat_page_pdf (reads i)
      {| session_state := session_state w; files := outside i (files w) |}
      (event i)) as [Hp He].
    simpl in Hp. unfold cached_pages. rewrite Hp, He.
    split; [intros p H%elem_of_nil; done|]. split; [constructor|done].
  - destruct (doc_main_pdf (reads i)
      {| session_state := session_state w; files := outside i (files w) |}
      (event i)) as [[He Hp]|(path & pages & He & Hn & Hp)];
      simpl in *; unfold cached_pages in *; rewrite He, Hp.
    + split; [intros p H%elem_of_nil; done|]. split; [constructor|done].
    + split; [|split].
      * intros p ->%list_elem_of_singleton. split; [exact Hn|].
        rewrite lookup_insert_eq. eauto.
      * apply NoDup_singleton.
      * intros q [pages' Hq]. rewrite lookup_insert_ne; [done|].
        intros Heq. rewrite Heq, Hq in Hn. discriminate.
Qed.

Lemma session_run_calls todo w :
  NoDup (session_run w todo).2
  /\ (forall p, p ∈ (session_run w todo).2 ->
        cached_pages (session_state w) p = None)
  /\ (forall q, is_Some (cached_pages (session_state w) q) ->
        cached_pages (session_state (session_run w todo).1) q
        = cached_pages (session_state w) q).
Proof.
  revert w. induction todo as [|i todo IH]; intros w; simpl.
  - split; [constructor|]. split; [intros p H%elem_of_nil; done|done].
  - destruct (interact_calls w i) as (Hnew & Hnd & Hkeep).
    destruct (IH (world (interact w i))) as (IHnd & IHnone & IHkeep).
    destruct (session_run (world (interact w i)) todo) as [w' calls]. simpl in *.
    split; [|split].
    + apply NoDup_app. split; [exact Hnd|]. split; [|exact IHnd].
      intros p Hp Hp'. destruct (Hnew p Hp) as [_ [pages Hsome]].
      rewrite (IHnone p Hp') in Hsome. discriminate.
    + intros p [Hp|Hp]%elem_of_app; [now apply Hnew|].
      destruct (cached_pages (session_state w) p) as [pages|] eqn:Hc; [|done].
      rewrite <- (Hkeep p) in Hc by (rewrite Hc; eauto).
      rewrite (IHnone p Hp) in Hc. discriminate.
    + intros q Hq. rewrite <- (Hkeep q Hq). apply IHkeep.
      now rewrite (Hkeep q Hq).
Qed.

Lemma display_content_viewer_cached env fs ss path pages :
  cached_pages ss path = Some pages ->
  let v := display_content_viewer env fs ss path in
  v.1.1.1 = ss /\ v.1.2 = []
  /\ (forall page total, PageView page total ∈ v.1.1.2 ->
        pages !! selected_page env = Some page /\ total = length pages)
  /\ (path <> [] -> is_Some (fs !! path) ->
      forall page, pages !! selected_page env = Some page ->
        PageView page (length pages) ∈ v.1.1.2).
Proof.
  unfold cached_pages, display_content_viewer. intros Hc.
  destruct (bool_decide (path = [])) eqn:Hp.
  { cbn [fst snd orb]. split; [done|]. split; [done|]. split.
    - intros page total H. apply elem_of_cons in H as [H|H]; [discriminate H|].
      apply list_elem_of_singleton in H. discriminate H.
    - apply bool_decide_eq_true in Hp. done. }
  destruct (bool_decide (is_Some (fs !! path))) eqn:Hf.
  2:{ cbn [fst snd orb negb]. split; [done|]. split; [done|]. split.
      - intros page total H. apply elem_of_cons in H as [H|H]; [discriminate H|].
        apply list_elem_of_singleton in H. discriminate H.
      - apply bool_decide_eq_false in Hf. done. }
  cbn [orb negb]. rewrite Hc. cbn [default from_option id]. rewrite Hc.
  cbn [default from_option id].
  destruct pages as [|p pages].
  - simpl. split; [done|]. split; [done|]. split; [|done].
    intros page total H. apply list_elem_of_singleton in H. discriminate H.
  - destruct ((p :: pages) !! selected_page env) as [pg|] eqn:Hpg; simpl.
    + split; [done|]. split; [done|]. split.
      * intros page total H. apply list_elem_of_singleton in H.
        injection H as -> ->. done.
      * intros _ _ page [= ->]. now apply list_elem_of_singleton.
    + split; [done|]. split; [done|]. split; [|done].
      intros page total H. now apply elem_of_nil in H.
Qed.

(** C8: once the viewer has looked a path up, the page records are in the
    session cache; looking the same path up again makes no extraction call
    and changes nothing in the cache, whatever the reader or the file have
    become, and the page it shows is a record of that cache entry.  Over a
    whole session no path is extracted twice. *)
Theorem pages_extracted_once env1 fs1 ss path env2 fs2 :
  path <> [] ->
  is_Some (fs1 !! path) ->
  let first := display_content_viewer env1 fs1 ss path in
  let ss1 := first.1.1.1 in
  let second := display_content_viewer env2 fs2 ss1 path in
  is_Some (cached_pages ss1 path)
  /\ (cached_pages ss path = None ->
        first.1.2 = [path]
        /\ cached_pages ss1 path = Some (extract_pdf_content env1 fs1 path).1)
  /\ second.1.2 = []
  /\ second.1.1.1 = ss1
  /\ (forall page total, PageView page total ∈ second.1.1.2 ->
        exists pages, cached_pages ss1 path = Some pages
                      /\ pages !! selected_page env2 = Some page
                      /\ total = length pages)
  /\ (is_Some (fs2 !! path) ->
      forall pages page,
        cached_pages ss1 path = Some pages ->
        pages !! selected_page env2 = Some page ->
        PageView page (length pages) ∈ second.1.1.2)
  /\ forall w todo, NoDup (session_run w todo).2.
Proof.
  intros Hp Hf first ss1 second.
  assert (Hfirst : is_Some (cached_pages ss1 path)
            /\ (cached_pages ss path = None ->
                first.1.2 = [path]
                /\ cached_pages ss1 path
                   = Some (extract_pdf_content env1 fs1 path).1)).
  { destruct (cached_pages ss path) as [pages|] eqn:Hc.
    - destruct (display_content_viewer_cached env1 fs1 ss path pages Hc)
        as (Hs & _). subst ss1 first. rewrite Hs, Hc. split; [eauto|done].
    - destruct (display_content_viewer_calls env1 fs1 ss path)
        as [[Hcalls Hpdf]|(Hcalls & _ & _ & _ & Hpdf)].
      + exfalso. revert Hcalls. unfold display_content_viewer.
        rewrite (bool_decide_eq_false_2 _ Hp), (bool_decide_eq_true_2 _ Hf).
        cbn [orb negb]. unfold cached_pages in Hc. rewrite Hc.
        destruct (extract_pdf_content env1 fs1 path) as [pages shown].
        cbn [fst snd pdf_content set_pdf_content]. rewrite lookup_insert_eq.
        cbn [default]. destruct pages as [|p pages]; [discriminate|].
        destruct (_ !! selected_page env1); discriminate.
      + subst ss1 first. unfold cached_pages. rewrite Hpdf, lookup_insert_eq.
        split; [eauto|]. intros _. split; [exact Hcalls|reflexivity]. }
  destruct Hfirst as [[pages Hpages] Hnew].
  destruct (display_content_viewer_cached env2 fs2 ss1 path pages Hpages)
    as (Hs & Hcalls & Hview & Hshow).
  split; [eauto|]. split; [exact Hnew|]. split; [exact Hcalls|].
  split; [exact Hs|]. split; [|split].
  - intros page total Hin. destruct (Hview page total Hin). eauto.
  - intros Hf2 pages' page Hc' Hl. rewrite Hpages in Hc'. injection Hc' as <-.
    now apply Hshow.
  - intros w todo. apply session_run_calls.
Qed.

Lemma pages_extracted_once_uno :
  (display_content_viewer (reading (answering "ok")) pdf_files
     (session_state (fresh scenario_abc)) a_pdf).1.2 = [a_pdf]
  /\ (display_content_viewer (reading (answering "ok")) pdf_files
        (display_content_viewer (reading (answering "ok")) pdf_files
           (session_state (fresh scenario_abc)) a_pdf).1.1.1 a_pdf).1.2 = []
  /\ (display_content_viewer (reading (answering "ok")) pdf_files
        (display_content_viewer (reading (answering "ok")) pdf_files
           (session_state (fresh scenario_abc)) a_pdf).1.1.1 a_pdf).1.1.2
     = [PageView {| page_num := 1; page_content := lit "Uno";
                    preview := lit "Uno" |} 2].
Proof.
  assert (Hf : is_Some (pdf_files !! a_pdf)) by (eexists; reflexivity).
  destruct (pages_extracted_once (reading (answering "ok")) pdf_files
              (session_state (fresh scenario_abc)) a_pdf
              (reading (answering "ok")) pdf_files) as (_ & Hnew & Hcalls & _).
  - discriminate.
  - exact Hf.
  - split; [apply Hnew; reflexivity|]. split; [exact Hcalls|].
    vm_compute. reflexivity.
Defined.

(** ** UTF-8 *)

Lemma N_split64 c : c = 64 * (c / 64) + c mod 64 /\ c mod 64 < 64.
Proof. split; [apply N.div_mod; lia|apply N.mod_lt; lia]. Qed.

Lemma N_div_4096 c : c / 4096 = c / 64 / 64.
Proof. rewrite N.Div0.div_div. reflexivity. Qed.

Lemma N_div_262144 c : c / 262144 = c / 64 / 64 / 64.
Proof. rewrite !N.Div0.div_div. reflexivity. Qed.

Ltac ltb_true := rewrite (proj2 (N.ltb_lt _ _)) by lia.
Ltac ltb_false := rewrite (proj2 (N.ltb_ge _ _)) by lia.
Ltac leb_true := rewrite (proj2 (N.leb_le _ _)) by lia.
Ltac leb_false := rewrite (proj2 (N.leb_gt _ _)) by lia.
Ltac eqb_false := rewrite (proj2 (N.eqb_neq _ _)) by lia.

Lemma is_surrogate_false c : c < 0xD800 \/ 0xDFFF < c -> is_surrogate c = false.
Proof.
  intros [H|H]; unfold is_surrogate; [leb_false|leb_true; leb_false]; reflexivity.
Qed.

(** One character: the bytes written decode to it. *)
Lemma utf8_char_roundtrip c rest :
  is_scalar c = true ->
  exists b, utf8_encode_char c = Some b
            /\ utf8_decode (b ++ rest) = cons c <$> utf8_decode rest.
Proof.
  unfold is_scalar. intros Hs.
  apply andb_prop in Hs as [Hmax Hsur]. apply N.leb_le in Hmax.
  assert (Hsur' : c < 0xD800 \/ 0xDFFF < c).
  { apply negb_true_iff in Hsur. unfold is_surrogate in Hsur.
    apply andb_false_iff in Hsur. rewrite !N.leb_gt in Hsur. exact Hsur. }
  apply negb_true_iff in Hsur.
  unfold utf8_encode_char. rewrite Hsur.
  rewrite N_div_4096, N_div_262144.
  destruct (N_split64 c) as [E1 R1].
  destruct (N_split64 (c / 64)) as [E2 R2].
  destruct (N_split64 (c / 64 / 64)) as [E3 R3].
  set (q1 := c / 64) in *. set (r1 := c mod 64) in *.
  set (q2 := q1 / 64) in *. set (r2 := q1 mod 64) in *.
  set (q3 := q2 / 64) in *. set (r3 := q2 mod 64) in *.
  clearbody q1 r1 q2 r2 q3 r3.
  destruct (N.ltb_spec c 0x80) as [H1|H1].
  { eexists. split; [reflexivity|]. cbn [app utf8_decode]. now ltb_true. }
  destruct (N.ltb_spec c 0x800) as [H2|H2].
  { eexists. split; [reflexivity|]. cbn [app utf8_decode]. unfold is_cont.
    ltb_false. ltb_false. ltb_true. leb_true. ltb_true.
    cbn [andb]. do 2 f_equal. lia. }
  destruct (N.ltb_spec c 0x10000) as [H3|H3].
  { eexists. split; [reflexivity|]. cbn [app utf8_decode]. cbv zeta.
    replace ((0xE0 + q2 - 0xE0) * 4096 + (0x80 + r2 - 0x80) * 64
             + (0x80 + r1 - 0x80)) with c by lia.
    rewrite Hsur. unfold is_cont.
    ltb_false. ltb_false. ltb_false. ltb_true.
    leb_true. ltb_true. leb_true. ltb_true. leb_true.
    reflexivity. }
  rewrite (proj2 (N.leb_le _ _) Hmax).
  eexists. split; [reflexivity|]. cbn [app utf8_decode]. cbv zeta.
  replace ((0xF0 + q3 - 0xF0) * 262144 + (0x80 + r3 - 0x80) * 4096
           + (0x80 + r2 - 0x80) * 64 + (0x80 + r1 - 0x80)) with c by lia.
  unfold is_cont.
  ltb_false. ltb_false. ltb_false. ltb_false. ltb_true.
  leb_true. ltb_true. leb_true. ltb_true. leb_true. ltb_true.
  leb_true. leb_true. reflexivity.
Qed.

Lemma utf8_roundtrip s :
  forallb is_scalar s = true ->
  exists data, utf8_encode s = Some data /\ utf8_decode data = Some s.
Proof.
  induction s as [|c s IH]; simpl; [eauto|].
  intros [Hc Hs]%andb_prop. destruct (IH Hs) as (data & He & Hd).
  destruct (utf8_char_roundtrip c data Hc) as (b & Hb & Hdec).
  rewrite Hb, He. eexists. split; [reflexivity|]. now rewrite Hdec, Hd.
Qed.

(** ** JSON strings *)

Lemma scanstring_escape_char c tail :
  scanstring (escape_char c ++ tail) = prepend c (scanstring tail).
Proof.
  destruct (N.ltb_spec c 32) as [Hlow|Hhigh].
  - assert (Hc : c = 0 \/ c = 1 \/ c = 2 \/ c = 3 \/ c = 4 \/ c = 5 \/ c = 6
                 \/ c = 7 \/ c = 8 \/ c = 9 \/ c = 10 \/ c = 11 \/ c = 12
                 \/ c = 13 \/ c = 14 \/ c = 15 \/ c = 16 \/ c = 17 \/ c = 18
                 \/ c = 19 \/ c = 20 \/ c = 21 \/ c = 22 \/ c = 23 \/ c = 24
                 \/ c = 25 \/ c = 26 \/ c = 27 \/ c = 28 \/ c = 29 \/ c = 30
                 \/ c = 31) by lia.
    repeat destruct Hc as [->|Hc]; try subst c; reflexivity.
  - destruct (N.eqb_spec c 34) as [->|H34]; [reflexivity|].
    destruct (N.eqb_spec c 92) as [->|H92]; [reflexivity|].
    unfold escape_char. do 7 eqb_false. ltb_false.
    cbn [app scanstring]. do 2 eqb_false. ltb_false. reflexivity.
Qed.

Lemma scanstring_escape s rest :
  scanstring (flat_map escape_char s ++ 34 :: rest) = Some (s, rest).
Proof.
  induction s as [|c s IH]; [reflexivity|].
  cbn [flat_map]. rewrite <- app_assoc, scanstring_escape_char, IH. reflexivity.
Qed.

(** ** JSON text of a session *)

Lemma json_turn_unfold t rest :
  json_turn t ++ rest
  = 123 :: 10 :: 32 :: 32 :: 32 :: 32
    :: 34 :: 114 :: 111 :: 108 :: 101 :: 34 :: 58 :: 32 :: 34
    :: flat_map escape_char (role t)
    ++ 34 :: 44 :: 10 :: 32 :: 32 :: 32 :: 32
    :: 34 :: 99 :: 111 :: 110 :: 116 :: 101 :: 110 :: 116 :: 34 :: 58 :: 32 :: 34
    :: flat_map escape_char (content t)
    ++ 34 :: 44 :: 10 :: 32 :: 32 :: 32 :: 32
    :: 34 :: 116 :: 105 :: 109 :: 101 :: 115 :: 116 :: 97 :: 109 :: 112
    :: 34 :: 58 :: 32 :: 34
    :: flat_map escape_char (timestamp t)
    ++ 34 :: 10 :: 32 :: 32 :: 125 :: rest.
Proof.
  unfold json_turn, encode_basestring.
  repeat (rewrite <- app_assoc || cbn [app]). reflexivity.
Qed.

Lemma parse_object_turn n t rest :
  (3 <= n)%nat ->
  exists s1, expect 123 (json_turn t ++ rest) = Some s1
             /\ parse_object n s1 = Some (turn_pairs t, rest).
Proof.
  intros Hn. destruct n as [|[|[|n]]]; try lia.
  rewrite json_turn_unfold. eexists. split; [reflexivity|].
  cbn. rewrite scanstring_escape. cbn.
  rewrite scanstring_escape. cbn. rewrite scanstring_escape. cbn.
  reflexivity.
Qed.

Lemma json_items_head ts r :
  ts <> [] -> exists tl, json_items ts ++ r = 123 :: tl.
Proof.
  destruct ts as [|t [|t' ts]]; [done| |]; intros _.
  - cbn [json_items]. rewrite json_turn_unfold. eauto.
  - cbn [json_items]. rewrite <- app_assoc, json_turn_unfold. eauto.
Qed.

Lemma skip_ws_items ts r :
  ts <> [] -> skip_ws (json_items ts ++ r) = json_items ts ++ r.
Proof.
  intros H. destruct (json_items_head ts r H) as [tl ->]. reflexivity.
Qed.

Lemma parse_items_turns n ts fuel rest :
  (3 <= n)%nat -> ts <> [] -> (length ts <= fuel)%nat ->
  parse_items n fuel (json_items ts ++ 10 :: 93 :: rest)
  = Some (map turn_pairs ts, rest).
Proof.
  intros Hn. revert fuel. induction ts as [|t ts IH]; intros fuel Hne Hf; [done|].
  destruct fuel as [|fuel]; [simpl in Hf; lia|].
  destruct ts as [|t' ts].
  - cbn [json_items parse_items].
    destruct (parse_object_turn n t (10 :: 93 :: rest) Hn) as (s1 & -> & Hobj).
    cbn [mbind option_bind]. rewrite Hobj. reflexivity.
  - set (ts' := t' :: ts) in *.
    change (json_items (t :: ts'))
      with (json_turn t ++ lit "," ++ [10] ++ lit "  " ++ json_items ts').
    rewrite <- !app_assoc. cbn [parse_items].
    destruct (parse_object_turn n t
                (lit "," ++ [10] ++ lit "  "
                 ++ json_items ts' ++ 10 :: 93 :: rest) Hn)
      as (s1 & -> & Hobj).
    cbn [mbind option_bind]. rewrite Hobj.
    change (lit "," ++ [10] ++ lit "  " ++ json_items ts' ++ 10 :: 93 :: rest)
      with (44 :: 10 :: 32 :: 32 :: (json_items ts' ++ 10 :: 93 :: rest)).
    cbn [mbind option_bind skip_ws is_json_ws N.eqb Pos.eqb orb].
    rewrite skip_ws_items by done.
    rewrite IH; [reflexivity|done|simpl in *; lia].
Qed.

Lemma turn_of_dict_pairs t : turn_of_dict (turn_pairs t) = Some t.
Proof. destruct t. reflexivity. Qed.

Lemma mapM_turn_pairs ts : mapM turn_of_dict (map turn_pairs ts) = Some ts.
Proof.
  induction ts as [|t ts IH]; [reflexivity|].
  cbn [map mapM]. rewrite turn_of_dict_pairs. cbn [mbind option_bind].
  rewrite IH. reflexivity.
Qed.

Lemma json_items_length ts : (length ts <= length (json_items ts))%nat.
Proof.
  induction ts as [|t ts IH]; [done|].
  assert (Ht : (1 <= length (json_turn t))%nat).
  { pose proof (json_turn_unfold t []) as H. rewrite app_nil_r in H.
    rewrite H. simpl. lia. }
  destruct ts as [|t' ts]; cbn [json_items]; [simpl; lia|].
  rewrite !length_app. simpl in *. lia.
Qed.

(** What [json.dump] writes, [json.load] reads back. *)
Lemma json_roundtrip messages : json_loads (json_dumps messages) = Some messages.
Proof.
  destruct messages as [|t ts]; [reflexivity|].
  unfold json_dumps, json_loads.
  set (items := json_items (t :: ts)).
  change (lit "[" ++ [10] ++ lit "  " ++ items ++ [10] ++ lit "]")
    with (91 :: 10 :: 32 :: 32 :: (items ++ 10 :: 93 :: [])).
  set (n := length (91 :: 10 :: 32 :: 32 :: (items ++ 10 :: 93 :: []))).
  assert (Hn : (3 <= n)%nat) by (subst n; simpl; lia).
  assert (Hlen : (length (t :: ts) <= n)%nat).
  { subst n. pose proof (json_items_length (t :: ts)). fold items in H.
    cbn [length]. rewrite length_app. cbn [length] in *. lia. }
  cbn [skip_ws is_json_ws N.eqb Pos.eqb orb parse_array expect mbind option_bind].
  clearbody n. subst items.
  rewrite skip_ws_items by done.
  destruct (json_items_head (t :: ts) (10 :: 93 :: []) ltac:(done)) as [tl Hhead].
  rewrite Hhead. cbn [N.eqb Pos.eqb]. rewrite <- Hhead.
  rewrite parse_items_turns by (assumption || done).
  cbn [skip_ws]. apply mapM_turn_pairs.
Qed.

(** ** The characters of a session file *)

Lemma escape_char_plain c :
  is_scalar c = true -> forallb plain (escape_char c) = true.
Proof.
  intros Hs. destruct (N.ltb_spec c 32) as [Hlow|Hhigh].
  - assert (Hc : c = 0 \/ c = 1 \/ c = 2 \/ c = 3 \/ c = 4 \/ c = 5 \/ c = 6
                 \/ c = 7 \/ c = 8 \/ c = 9 \/ c = 10 \/ c = 11 \/ c = 12
                 \/ c = 13 \/ c = 14 \/ c = 15 \/ c = 16 \/ c = 17 \/ c = 18
                 \/ c = 19 \/ c = 20 \/ c = 21 \/ c = 22 \/ c = 23 \/ c = 24
                 \/ c = 25 \/ c = 26 \/ c = 27 \/ c = 28 \/ c = 29 \/ c = 30
                 \/ c = 31) by lia.
    repeat destruct Hc as [->|Hc]; try subst c; reflexivity.
  - destruct (N.eqb_spec c 34) as [->|H34]; [reflexivity|].
    destruct (N.eqb_spec c 92) as [->|H92]; [reflexivity|].
    unfold escape_char. do 7 eqb_false. ltb_false.
    cbn [forallb]. unfold plain. rewrite Hs. eqb_false. reflexivity.
Qed.

Lemma escape_plain s :
  forallb is_scalar s = true -> forallb plain (flat_map escape_char s) = true.
Proof.
  induction s as [|c s IH]; [reflexivity|].
  cbn [forallb flat_map]. intros [Hc Hs]%andb_prop.
  now rewrite forallb_app, escape_char_plain, IH.
Qed.

Lemma json_turn_plain t rest :
  scalar_turn t = true ->
  forallb plain (json_turn t ++ rest) = forallb plain rest.
Proof.
  unfold scalar_turn, scalar_text.
  intros [[Hr Hc]%andb_prop Ht]%andb_prop.
  rewrite json_turn_unfold.
  repeat (rewrite forallb_app || (rewrite escape_plain by assumption)
          || (progress cbn [forallb andb])
          || match goal with
             | |- context [plain (N.pos ?p)] =>
               change (plain (N.pos p)) with true
             end).
  reflexivity.
Qed.

Lemma json_items_plain ts rest :
  forallb scalar_turn ts = true ->
  forallb plain (json_items ts ++ rest) = forallb plain rest.
Proof.
  induction ts as [|t ts IH]; [reflexivity|].
  cbn [forallb]. intros [Ht Hts]%andb_prop.
  destruct ts as [|t' ts]; [now apply json_turn_plain|].
  set (ts' := t' :: ts) in *.
  change (json_items (t :: ts'))
    with (json_turn t ++ [44; 10; 32; 32] ++ json_items ts').
  rewrite <- !app_assoc, json_turn_plain by assumption.
  cbn [app forallb]. rewrite IH by assumption. reflexivity.
Qed.

Lemma json_dumps_plain messages :
  forallb scalar_turn messages = true ->
  forallb plain (json_dumps messages) = true.
Proof.
  intros H. destruct messages as [|t ts]; [reflexivity|].
  unfold json_dumps.
  change (lit "[" ++ [10] ++ lit "  " ++ json_items (t :: ts) ++ [10] ++ lit "]")
    with (91 :: 10 :: 32 :: 32 :: (json_items (t :: ts) ++ [10; 93])).
  cbn [forallb]. rewrite json_items_plain by assumption. reflexivity.
Qed.

Lemma plain_scalar s : forallb plain s = true -> forallb is_scalar s = true.
Proof.
  induction s as [|c s IH]; [reflexivity|]. cbn [forallb].
  intros [[Hc _]%andb_prop Hs]%andb_prop. now rewrite Hc, IH.
Qed.

Lemma universal_newlines_plain s :
  forallb plain s = true -> universal_newlines s = s.
Proof.
  induction s as [|c s IH]; [reflexivity|]. cbn [forallb universal_newlines].
  intros [[_ Hc]%andb_prop Hs]%andb_prop.
  apply negb_true_iff in Hc. now rewrite Hc, IH.
Qed.

(** ** Session store: the claim *)

(** C5: under an agent key that names a file of the history directory, a
    list of turns whose texts are made of Unicode scalar values, multi-byte
    ones included, is saved without error, and loading the same key gives
    back the same turns in the same order, with the same role, content and
    timestamp. *)
Theorem save_then_load files agent_id messages :
  file_name agent_id = true ->
  forallb scalar_turn messages = true ->
  let saved := save_agent_history files agent_id messages in
  saved.2 = Ok () /\ load_agent_history saved.1 agent_id = Ok messages.
Proof.
  intros _ Hs. pose proof (json_dumps_plain messages Hs) as Hplain.
  destruct (utf8_roundtrip _ (plain_scalar _ Hplain)) as (data & Henc & Hdec).
  unfold save_agent_history, load_agent_history. rewrite Henc. cbn [fst snd].
  split; [reflexivity|].
  rewrite lookup_insert_eq, Hdec, (universal_newlines_plain _ Hplain).
  now rewrite json_roundtrip.
Qed.

Lemma save_then_load_greeting :
  load_agent_history
    (save_agent_history ∅ (lit "agent_Tutor_20240101") greeting).1
    (lit "agent_Tutor_20240101") = Ok greeting.
Proof.
  apply (save_then_load ∅ (lit "agent_Tutor_20240101") greeting).
  - reflexivity.
  - reflexivity.
Defined.

(* ================================================================== *)
(** * Further properties of the pages *)

(** ** Paths and agent ids *)

Lemma startswith_app p s : startswith p (p ++ s) = true.
Proof. induction p as [|c p IH]; [done|]. cbn. now rewrite N.eqb_refl. Qed.

Lemma slash_in_app a b : str_in [47] (a ++ b) = str_in [47] a || str_in [47] b.
Proof.
  induction a as [|c a IH].
  - cbn [app]. destruct b; reflexivity.
  - cbn [app str_in startswith]. rewrite IH.
    destruct a; cbn [app]; now rewrite !andb_true_r, ?orb_assoc.
Qed.

Lemma slash_not_first s : str_in [47] s = false -> startswith [47] s = false.
Proof. destruct s as [|c s]; [done|]. cbn. now intros [H _]%orb_false_elim. Qed.

Lemma history_path_plain agent_id :
  startswith [47] agent_id = false ->
  history_path agent_id = lit "data/chat_history/" ++ agent_id ++ lit ".json".
Proof.
  intros H. unfold history_path, os_path_join. cbn [foldl].
  change (path_join2 (lit "data") (lit "chat_history"))
    with (lit "data/chat_history").
  unfold path_join2.
  assert (Hs : startswith [47] (agent_id ++ lit ".json") = false).
  { destruct agent_id as [|c s]; [reflexivity|]. cbn in *.
    now rewrite andb_true_r in *. }
  rewrite Hs. reflexivity.
Qed.

Lemma get_agent_id_no_slash env config :
  str_in [47] (name config) = false ->
  str_in [47] (today env) = false ->
  str_in [47] (get_agent_id env config) = false.
Proof.
  intros Hn Ht. unfold get_agent_id. rewrite !slash_in_app, Hn, Ht. reflexivity.
Qed.

Lemma get_agent_id_path env config :
  history_path (get_agent_id env config)
  = lit "data/chat_history/agent_" ++ name config ++ lit "_" ++ today env
    ++ lit ".json".
Proof.
  rewrite history_path_plain by reflexivity. unfold get_agent_id.
  rewrite <- !app_assoc. reflexivity.
Qed.

(** X1: the session key tells the agent name and the day apart.  When the
    day texts have the same length (the eight digits of the day format),
    two runs that compute the same agent id, or the same history path, have
    the same agent name and the same day. *)
Theorem agent_id_tells_name_and_day env1 env2 config1 config2 :
  length (today env1) = length (today env2) ->
  get_agent_id env1 config1 = get_agent_id env2 config2
  \/ history_path (get_agent_id env1 config1)
     = history_path (get_agent_id env2 config2) ->
  name config1 = name config2 /\ today env1 = today env2.
Proof.
  intros Hlen H.
  assert (Hid : name config1 ++ lit "_" ++ today env1
                = name config2 ++ lit "_" ++ today env2).
  { destruct H as [H|H].
    - unfold get_agent_id in H. now apply app_inv_head in H.
    - rewrite !get_agent_id_path in H. apply app_inv_head in H.
      rewrite !(app_assoc (name _)), !(app_assoc (_ ++ _) (today _)) in H.
      apply app_inv_tail in H. now rewrite <- !app_assoc in H. }
  rewrite !app_assoc in Hid.
  apply app_inj_2 in Hid as [Hn Ht]; [|exact Hlen].
  apply app_inv_tail in Hn. done.
Qed.

Lemma agent_id_tells_name_and_day_tutor :
  name scenario_abc = name scenario_failing.
Proof.
  apply (agent_id_tells_name_and_day (reading (answering "ok"))
           (reading (failing "quota")) scenario_abc scenario_failing).
  - reflexivity.
  - left. reflexivity.
Defined.

(** ** The session store, further *)

Lemma history_path_inj id1 id2 : history_path id1 = history_path id2 -> id1 = id2.
Proof.
  assert (Habs : forall id, startswith [47] id = true ->
            history_path id = id ++ lit ".json").
  { intros id H. unfold history_path, os_path_join. cbn [foldl].
    unfold path_join2 at 1.
    assert (Hs : startswith [47] (id ++ lit ".json") = true).
    { destruct id as [|c s]; [discriminate H|]. cbn in *.
      now rewrite andb_true_r in *. }
    now rewrite Hs. }
  assert (Hhead : forall id, startswith [47] id = true ->
            exists s, id = 47 :: s).
  { intros [|c s] H; [discriminate H|]. cbn [startswith] in H.
    rewrite andb_true_r in H.
    apply N.eqb_eq in H as <-. eauto. }
  destruct (startswith [47] id1) eqn:H1, (startswith [47] id2) eqn:H2.
  - rewrite !Habs by assumption. apply app_inv_tail.
  - rewrite (Habs _ H1), (history_path_plain _ H2).
    destruct (Hhead _ H1) as [s ->]. discriminate.
  - rewrite (Habs _ H2), (history_path_plain _ H1).
    destruct (Hhead _ H2) as [s ->]. discriminate.
  - rewrite !history_path_plain by assumption. intros H.
    apply app_inv_head in H. now apply app_inv_tail in H.
Qed.

Lemma save_agent_history_other fs agent_id msgs path :
  path <> history_path agent_id ->
  (save_agent_history fs agent_id msgs).1 !! path = fs !! path.
Proof.
  intros H. unfold save_agent_history.
  destruct (utf8_encode _); cbn [fst]; now rewrite lookup_insert_ne.
Qed.

Lemma save_agent_history_keeps fs agent_id msgs path :
  is_Some (fs !! path) ->
  is_Some ((save_agent_history fs agent_id msgs).1 !! path).
Proof.
  intros H. destruct (decide (path = history_path agent_id)) as [->|Hne].
  - unfold save_agent_history. destruct (utf8_encode _); cbn [fst];
      rewrite lookup_insert_eq; eauto.
  - now rewrite save_agent_history_other.
Qed.

(** What is written for a list of turns reads back as that list. *)
Lemma stored_roundtrip msgs :
  forallb scalar_turn msgs = true ->
  exists data,
    utf8_encode (json_dumps msgs) = Some data
    /\ forall fs agent_id,
         fs !! history_path agent_id = Some data ->
         load_agent_history fs agent_id = Ok msgs.
Proof.
  intros Hs. pose proof (json_dumps_plain msgs Hs) as Hplain.
  destruct (utf8_roundtrip _ (plain_scalar _ Hplain)) as (data & Henc & Hdec).
  exists data. split; [exact Henc|]. intros fs agent_id Hfs.
  unfold load_agent_history.
  rewrite Hfs, Hdec, (universal_newlines_plain _ Hplain). now rewrite json_roundtrip.
Qed.

(** X2: saving the history of one agent id changes the stored history of
    no other id (ids being plain file names, without a slash): what
    [load_agent_history] gives for a different id is the same before and
    after, whether the save succeeds or raises. *)
Theorem save_keeps_other_histories fs agent_id msgs other :
  str_in [47] agent_id = false ->
  str_in [47] other = false ->
  other <> agent_id ->
  load_agent_history (save_agent_history fs agent_id msgs).1 other
  = load_agent_history fs other.
Proof.
  intros _ _ Hne. unfold load_agent_history.
  rewrite save_agent_history_other; [reflexivity|].
  intros H. now apply history_path_inj in H.
Qed.

Lemma save_keeps_other_histories_greeting :
  load_agent_history
    (save_agent_history
       (save_agent_history ∅ (lit "agent_Tutor_20240101") greeting).1
       (lit "agent_Tutor_20240102") []).1
    (lit "agent_Tutor_20240101")
  = load_agent_history
      (save_agent_history ∅ (lit "agent_Tutor_20240101") greeting).1
      (lit "agent_Tutor_20240101").
Proof.
  apply (save_keeps_other_histories
           (save_agent_history ∅ (lit "agent_Tutor_20240101") greeting).1
           (lit "agent_Tutor_20240102") [] (lit "agent_Tutor_20240101")).
  - reflexivity.
  - reflexivity.
  - discriminate.
Defined.

(** ** When saving raises *)

Lemma utf8_encode_char_scalar c b :
  utf8_encode_char c = Some b -> is_scalar c = true.
Proof.
  unfold utf8_encode_char, is_scalar.
  destruct (N.ltb_spec c 0x80) as [H1|H1].
  { intros _. rewrite is_surrogate_false by lia. leb_true. reflexivity. }
  destruct (N.ltb_spec c 0x800) as [H2|H2].
  { intros _. rewrite is_surrogate_false by lia. leb_true. reflexivity. }
  destruct (N.ltb_spec c 0x10000) as [H3|H3].
  { destruct (is_surrogate c); [discriminate|]. intros _. leb_true. reflexivity. }
  destruct (N.leb_spec c 0x10FFFF) as [H4|H4]; [|discriminate].
  intros _. rewrite is_surrogate_false by lia. reflexivity.
Qed.

Lemma utf8_encode_scalar s data :
  utf8_encode s = Some data -> forallb is_scalar s = true.
Proof.
  revert data. induction s as [|c s IH]; intros data; [done|]. cbn.
  destruct (utf8_encode_char c) as [b|] eqn:Hc; [|discriminate].
  destruct (utf8_encode s) as [bs|] eqn:Hs; [|discriminate].
  intros _. now rewrite (utf8_encode_char_scalar c b Hc), (IH bs).
Qed.

Lemma escape_char_scalar c :
  forallb is_scalar (escape_char c) = true -> is_scalar c = true.
Proof.
  destruct (is_scalar c) eqn:Hs; [done|]. intros H. exfalso.
  assert (Hbig : 0xD800 <= c).
  { unfold is_scalar in Hs. apply andb_false_iff in Hs as [Hs|Hs].
    - apply N.leb_gt in Hs. lia.
    - apply negb_false_iff in Hs. unfold is_surrogate in Hs.
      apply andb_prop in Hs as [Hs _]. now apply N.leb_le in Hs. }
  revert H. unfold escape_char. do 7 eqb_false. ltb_false.
  cbn [forallb]. now rewrite Hs.
Qed.

Lemma escape_scalar s :
  forallb is_scalar (flat_map escape_char s) = true -> forallb is_scalar s = true.
Proof.
  induction s as [|c s IH]; [done|]. cbn [flat_map forallb].
  rewrite forallb_app. intros [Hc Hs]%andb_prop.
  now rewrite (escape_char_scalar c Hc), IH.
Qed.

Lemma json_turn_scalar t rest :
  forallb is_scalar (json_turn t ++ rest) = true ->
  scalar_turn t = true /\ forallb is_scalar rest = true.
Proof.
  rewrite json_turn_unfold. unfold scalar_turn, scalar_text.
  repeat (rewrite forallb_app || (progress cbn [forallb andb])
          || match goal with
             | |- context [is_scalar (N.pos ?p)] =>
               change (is_scalar (N.pos p)) with true
             end).
  intros [Hr [Hc [Ht Hrest]%andb_prop]%andb_prop]%andb_prop.
  now rewrite (escape_scalar _ Hr), (escape_scalar _ Hc), (escape_scalar _ Ht).
Qed.

Lemma json_items_scalar ts rest :
  forallb is_scalar (json_items ts ++ rest) = true ->
  forallb scalar_turn ts = true.
Proof.
  revert rest. induction ts as [|t ts IH]; intros rest; [done|].
  destruct ts as [|t' ts].
  - cbn [json_items forallb]. intros [Ht _]%json_turn_scalar. now rewrite Ht.
  - set (ts' := t' :: ts) in *.
    change (json_items (t :: ts'))
      with (json_turn t ++ [44; 10; 32; 32] ++ json_items ts').
    rewrite <- !app_assoc. intros [Ht Hrest]%json_turn_scalar.
    cbn [app forallb] in Hrest. cbn [forallb]. rewrite Ht.
    apply (IH rest). exact Hrest.
Qed.

(** X3: under an agent id that names a file of the history directory,
    saving succeeds exactly when every role, content and timestamp is made
    of Unicode scalar values; a lone surrogate in any of them makes the
    save raise (the file is written as UTF-8 with the characters
    unescaped). *)
Theorem save_raises_on_surrogates fs agent_id msgs :
  file_name agent_id = true ->
  (save_agent_history fs agent_id msgs).2 = Ok ()
  <-> forallb scalar_turn msgs = true.
Proof.
  intros _. split.
  - unfold save_agent_history.
    destruct (utf8_encode (json_dumps msgs)) as [data|] eqn:He; [|discriminate].
    intros _. apply utf8_encode_scalar in He.
    destruct msgs as [|t ts]; [reflexivity|].
    unfold json_dumps in He.
    change (lit "[" ++ [10] ++ lit "  " ++ json_items (t :: ts) ++ [10] ++ lit "]")
      with (91 :: 10 :: 32 :: 32 :: (json_items (t :: ts) ++ [10; 93])) in He.
    cbn [forallb] in He. eapply json_items_scalar. exact He.
  - intros Hs. destruct (stored_roundtrip msgs Hs) as (data & He & _).
    unfold save_agent_history. now rewrite He.
Qed.

Lemma save_raises_on_surrogates_lone :
  (save_agent_history ∅ (lit "agent_Tutor_20240101") greeting).2 = Ok ()
  /\ (save_agent_history ∅ (lit "agent_Tutor_20240101")
        [{| role := lit "user"; content := [0xD800];
            timestamp := lit "2024-01-01T10:00:00" |}]).2 <> Ok ().
Proof.
  split.
  - apply (save_raises_on_surrogates ∅ (lit "agent_Tutor_20240101") greeting);
      reflexivity.
  - intros H.
    apply (save_raises_on_surrogates ∅ (lit "agent_Tutor_20240101")) in H;
      [discriminate H|reflexivity].
Defined.

(** ** The list of stored histories *)

Lemma load_saved_history env w config fs agent_id msgs :
  current_agent_config (session_state w) = Some config ->
  files w = (save_agent_history fs agent_id msgs).1 ->
  startswith (lit "agent_" ++ name config ++ lit "_") agent_id = true ->
  str_in [47] agent_id = false ->
  forallb scalar_turn msgs = true ->
  is_history (files w) config agent_id = true
  /\ outcome (chat_page env w (LoadButton agent_id)) = Done
  /\ log (chat_page env w (LoadButton agent_id)) = trim ChatMode msgs.
Proof.
  intros Hc Hf Hpre Hslash Hs.
  destruct (stored_roundtrip msgs Hs) as (data & Henc & Hload).
  assert (Hfile : files w !! history_path agent_id = Some data).
  { rewrite Hf. unfold save_agent_history. rewrite Henc. cbn [fst].
    apply lookup_insert_eq. }
  assert (Hh : is_history (files w) config agent_id = true).
  { unfold is_history. rewrite Hpre, Hslash.
    rewrite <- history_path_plain by (now apply slash_not_first).
    rewrite Hfile. cbn [negb andb]. apply bool_decide_eq_true. eauto. }
  split; [exact Hh|].
  apply (chat_page_load_log env w agent_id config msgs Hc Hh).
  now apply Hload.
Qed.

(** X4: a history saved under the id of an agent is found again by the
    sidebar of that agent on any later run (the id naming a file of the
    history directory, the turns being turns the page can display): the id
    is among the listed histories, and the load button makes the stored
    turns, cut to the last 15, the log. *)
Theorem saved_history_is_listed env env' w config fs msgs :
  file_name (get_agent_id env config) = true ->
  forallb displayable msgs = true ->
  current_agent_config (session_state w) = Some config ->
  files w = (save_agent_history fs (get_agent_id env config) msgs).1 ->
  is_history (files w) config (get_agent_id env config) = true
  /\ outcome (chat_page env' w (LoadButton (get_agent_id env config))) = Done
  /\ log (chat_page env' w (LoadButton (get_agent_id env config)))
     = trim ChatMode msgs.
Proof.
  intros Hn Hs Hc Hf.
  apply (load_saved_history env' w config fs _ msgs Hc Hf).
  - unfold get_agent_id. rewrite !app_assoc. apply startswith_app.
  - now apply file_name_no_slash.
  - now apply displayable_scalar.
Qed.

(** X5: the sidebar lists by prefix, so an agent also sees the histories
    of any agent whose name is its own name followed by an underscore and
    more: such a history (its id naming a file of the history directory,
    its turns being turns the page can display) is listed, and the load
    button puts the turns of that other agent in the log. *)
Theorem longer_name_is_listed env env' w config owner more fs msgs :
  name owner = name config ++ lit "_" ++ more ->
  file_name (get_agent_id env owner) = true ->
  forallb displayable msgs = true ->
  current_agent_config (session_state w) = Some config ->
  files w = (save_agent_history fs (get_agent_id env owner) msgs).1 ->
  is_history (files w) config (get_agent_id env owner) = true
  /\ outcome (chat_page env' w (LoadButton (get_agent_id env owner))) = Done
  /\ log (chat_page env' w (LoadButton (get_agent_id env owner)))
     = trim ChatMode msgs.
Proof.
  intros Hname Hn Hs Hc Hf.
  apply (load_saved_history env' w config fs _ msgs Hc Hf).
  - unfold get_agent_id. rewrite Hname, <- !app_assoc.
    rewrite !(app_assoc (lit "agent_")), (app_assoc (_ ++ _) (lit "_")).
    apply startswith_app.
  - now apply file_name_no_slash.
  - now apply displayable_scalar.
Qed.

Lemma saved_history_is_listed_tutor :
  log (chat_page (reading (answering "ok")) (visiting (stored_for scenario_abc))
         (LoadButton (lit "agent_Tutor_20240101")))
  = greeting.
Proof.
  destruct (saved_history_is_listed (reading (answering "ok"))
              (reading (answering "ok")) (visiting (stored_for scenario_abc))
              scenario_abc ∅ greeting eq_refl eq_refl eq_refl eq_refl)
    as (_ & _ & Hlog).
  exact Hlog.
Defined.

Lemma longer_name_is_listed_advanced :
  is_history (files (visiting (stored_for advanced))) scenario_abc
    (lit "agent_Tutor_Avanzado_20240101") = true
  /\ log (chat_page (reading (answering "ok")) (visiting (stored_for advanced))
            (LoadButton (lit "agent_Tutor_Avanzado_20240101")))
     = greeting.
Proof.
  destruct (longer_name_is_listed (reading (answering "ok"))
              (reading (answering "ok")) (visiting (stored_for advanced))
              scenario_abc advanced (lit "Avanzado") ∅ greeting
              eq_refl eq_refl eq_refl eq_refl eq_refl)
    as (Hh & _ & Hlog).
  split; [exact Hh|exact Hlog].
Defined.

(** ** What a run writes *)

Lemma written_at_refl path fs : written_at path fs fs.
Proof. split; done. Qed.

Lemma written_at_trans path fs1 fs2 fs3 :
  written_at path fs1 fs2 -> written_at path fs2 fs3 -> written_at path fs1 fs3.
Proof.
  intros [H1 K1] [H2 K2]. split.
  - intros other Hne. now rewrite H2, H1.
  - intros other Hs. now apply K2, K1.
Qed.

Lemma save_written_at fs agent_id msgs :
  written_at (history_path agent_id) fs (save_agent_history fs agent_id msgs).1.
Proof.
  split.
  - intros other Hne. now apply save_agent_history_other.
  - intros other Hs. now apply save_agent_history_keeps.
Qed.

Lemma chat_turn_written env config build w msgs0 prompt :
  written_at (history_path (get_agent_id env config)) (files w)
    (files (chat_turn env config build w msgs0 prompt).1).
Proof.
  unfold chat_turn.
  destruct (ask_agent _ _ _ _) as [held [response|e]]; cbn [fst files];
    [|apply written_at_refl].
  pose proof (save_written_at (files w) (get_agent_id env config)
                ((msgs0 ++ [user_turn env prompt]) ++ [reply_turn env response]))
    as Hw.
  destruct (save_agent_history _ _ _) as [fs [[]|e]]; exact Hw.
Qed.

Lemma chat_column_written env config w ev side :
  let r := chat_column env config w ev side in
  written_at (history_path (get_agent_id env config)) (files w) (files (world r))
  /\ current_agent_config (session_state (world r))
     = current_agent_config (session_state w)
  /\ outcome r = Done
  /\ exists msgs,
       messages (session_state (world r)) = Some msgs
       /\ (length msgs <= 15)%nat.
Proof.
  destruct (is_question ev) eqn:Hq.
  - destruct ev as [| | | | |[|c p]]; try discriminate Hq.
    unfold chat_column.
    match goal with |- context [chat_turn ?e ?c ?b ?w0 ?m ?p] =>
      pose proof (chat_turn_frame e c b w0 m p) as (_ & Hcfg & _);
      pose proof (chat_turn_written e c b w0 m p) as Hw;
      destruct (chat_turn_log e c b w0 m p) as (rest & Hm & _ & _);
      destruct (chat_turn e c b w0 m p) as [w1 said] end.
    cbn [fst snd world session_state files outcome] in *.
    destruct (cap_messages_frame (session_state w1)) as (_ & Hc & _).
    split; [exact Hw|]. split; [now rewrite Hc, Hcfg|]. split; [done|].
    eexists. split; [apply (cap_messages_log _ _ Hm)|apply trim_length].
  - pose proof (chat_column_quiet env config w ev side Hq)
      as (_ & Hf & _ & Hc & Ho & _).
    cbv zeta in *. split; [rewrite Hf; apply written_at_refl|].
    split; [exact Hc|]. split; [exact Ho|].
    assert (Heq : messages (session_state (world (chat_column env config w ev side)))
                  = Some (trim ChatMode (opening ChatMode env config w))).
    { destruct ev as [| | | | |[|c p]]; try discriminate Hq;
        apply (cap_messages_log (set_messages _ _)); reflexivity. }
    eexists. split; [exact Heq|apply trim_length].
Qed.

(** One run of the script of the chat page. *)
Lemma chat_main_written env w ev :
  let r := chat_main env w ev in
  current_agent_config (session_state (world r))
  = current_agent_config (session_state w)
  /\ (current_agent_config (session_state w) = None -> world r = w)
  /\ (forall config,
        current_agent_config (session_state w) = Some config ->
        written_at (history_path (get_agent_id env config)) (files w)
          (files (world r)))
  /\ (outcome r = Done ->
      exists msgs,
        messages (session_state (world r)) = Some msgs
        /\ (length msgs <= 15)%nat).
Proof.
  unfold chat_main.
  destruct (current_agent_config (session_state w)) as [config|] eqn:Hc.
  2:{ cbn. split; [done|]. split; [done|]. split; [done|].
      destruct ev; discriminate. }
  assert (Hcol : forall w' side,
            current_agent_config (session_state w') = Some config ->
            written_at (history_path (get_agent_id env config)) (files w) (files w') ->
            let r := chat_column env config w' ev side in
            current_agent_config (session_state (world r)) = Some config
            /\ (Some config = None -> world r = w)
            /\ (forall config0, Some config = Some config0 ->
                  written_at (history_path (get_agent_id env config0)) (files w)
                    (files (world r)))
            /\ (outcome r = Done ->
                exists msgs, messages (session_state (world r)) = Some msgs
                             /\ (length msgs <= 15)%nat)).
  { intros w' side Hc' Hw'.
    destruct (chat_column_written env config w' ev side) as (Hw & Hcfg & _ & Hm).
    cbv zeta. split; [now rewrite Hcfg|]. split; [done|]. split; [|done].
    intros config0 [= <-]. exact (written_at_trans _ _ _ _ Hw' Hw). }
  destruct ev as [| |h| | |p];
    try (apply (Hcol w []); [exact Hc|apply written_at_refl]).
  - destruct (is_history _ _ _ && _).
    + destruct (load_agent_history (files w) h); cbn;
        (split; [done|]); (split; [done|]);
        (split; [intros ? _; apply written_at_refl|discriminate]).
    + destruct (chat_column_written env config w Idle []) as (Hw & Hcfg & _ & Hm).
      cbv zeta in *. split; [now rewrite Hcfg|]. split; [done|].
      split; [|done]. now intros config0 [= <-].
  - cbn. split; [done|]. split; [done|].
    split; [intros ? _; apply written_at_refl|discriminate].
  - destruct (messages (session_state w)) as [[|t msgs]|] eqn:Hm.
    + apply (Hcol w []); [exact Hc|apply written_at_refl].
    + pose proof (save_written_at (files w) (get_agent_id env config) (t :: msgs))
        as Hw.
      destruct (save_agent_history _ _ _) as [fs [[]|e]]; cbn [fst] in Hw.
      * apply (Hcol {| session_state := session_state w; files := fs |}
                    [SuccessBox (lit "✅ Historial guardado correctamente")]);
          [exact Hc|exact Hw].
      * cbn. split; [done|]. split; [done|].
        split; [now intros config0 [= <-]|discriminate].
    + cbn. split; [done|]. split; [done|].
      split; [intros ? _; apply written_at_refl|discriminate].
Qed.

Lemma chat_page_written env w ev :
  let r := chat_page env w ev in
  current_agent_config (session_state (world r))
  = current_agent_config (session_state w)
  /\ (current_agent_config (session_state w) = None -> world r = w)
  /\ (forall config,
        current_agent_config (session_state w) = Some config ->
        written_at (history_path (get_agent_id env config)) (files w)
          (files (world r)))
  /\ (outcome r = Done ->
      exists msgs,
        messages (session_state (world r)) = Some msgs
        /\ (length msgs <= 15)%nat).
Proof.
  unfold chat_page.
  destruct (chat_main_written env w ev) as (Hc1 & Hn1 & Hw1 & Hm1).
  destruct (outcome (chat_main env w ev)) eqn:Ho;
    try (split; [exact Hc1|]; split; [exact Hn1|]; split; [exact Hw1|];
         rewrite Ho; first [exact Hm1|discriminate]).
  destruct (chat_main_written env (world (chat_main env w ev)) Idle)
    as (Hc2 & Hn2 & Hw2 & Hm2).
  split; [congruence|]. split; [|split; [|exact Hm2]].
  - intros Hnone. rewrite Hn2; [now apply Hn1|congruence].
  - intros config Hc. eapply written_at_trans; [now apply Hw1|].
    apply Hw2. congruence.
Qed.

Lemma doc_main_written env w ev :
  let r := doc_main env w ev in
  current_agent_config (session_state (world r))
  = current_agent_config (session_state w)
  /\ (current_agent_config (session_state w) = None -> world r = w)
  /\ (forall config,
        current_agent_config (session_state w) = Some config ->
        written_at (history_path (get_agent_id env config)) (files w)
          (files (world r))).
Proof.
  unfold doc_main.
  destruct (current_agent_config (session_state w)) as [config|] eqn:Hc;
    [|done].
  pose proof (document_column_frame env config w) as (_ & _ & Hcfg).
  destruct (document_column env config w) as [[ss1 shown] calls].
  cbn [fst snd] in Hcfg.
  destruct (is_question ev) eqn:Hq.
  - destruct ev as [| | | | |[|c p]]; try discriminate Hq.
    match goal with |- context [chat_turn ?e ?c ?b ?w0 ?m ?p] =>
      pose proof (chat_turn_frame e c b w0 m p) as (_ & Hcfg' & _);
      pose proof (chat_turn_written e c b w0 m p) as Hw;
      destruct (chat_turn e c b w0 m p) as [w1 said] end.
    cbn [fst snd world session_state files current_agent_config set_messages]
      in *.
    split; [congruence|]. split; [done|]. now intros config0 [= <-].
  - assert (Heq : forall x (f : str -> World * list Widget),
              match ev with ChatInput ((_ :: _) as prompt) => f prompt | _ => x end
              = x).
    { intros x f. destruct ev as [| | | | |[|c p]]; try reflexivity.
      discriminate Hq. }
    rewrite Heq. cbn. split; [congruence|]. split; [done|].
    intros ? _. apply written_at_refl.
Qed.

(** X9: what a run of either page leaves alone.  The agent configuration
    is never changed; no file is removed; the only file a run writes is the
    history file of the agent id of that run, every other path keeps its
    content; and without a configured agent the run changes nothing at
    all. *)
Theorem page_writes_only_its_history mode env w ev :
  let r := page mode env w ev in
  current_agent_config (session_state (world r))
  = current_agent_config (session_state w)
  /\ (forall path, is_Some (files w !! path) ->
        is_Some (files (world r) !! path))
  /\ (forall config path,
        current_agent_config (session_state w) = Some config ->
        path <> history_path (get_agent_id env config) ->
        files (world r) !! path = files w !! path)
  /\ (current_agent_config (session_state w) = None -> world r = w).
Proof.
  assert (H : let r := page mode env w ev in
    current_agent_config (session_state (world r))
    = current_agent_config (session_state w)
    /\ (current_agent_config (session_state w) = None -> world r = w)
    /\ (forall config,
          current_agent_config (session_state w) = Some config ->
          written_at (history_path (get_agent_id env config)) (files w)
            (files (world r)))).
  { destruct mode; cbn [page].
    - destruct (chat_page_written env w ev) as (? & ? & ? & _). done.
    - apply doc_main_written. }
  cbv zeta in *. destruct H as (Hc & Hn & Hw).
  split; [exact Hc|]. split; [|split; [|exact Hn]].
  - intros path Hs.
    destruct (current_agent_config (session_state w)) as [config|] eqn:Hcfg.
    + now apply (Hw config eq_refl).
    + now rewrite Hn.
  - intros config path Hcfg Hne. now apply (Hw config Hcfg).
Qed.

(** X10: every run of the chat page that reaches the end of the script
    leaves a log, and that log holds at most 15 turns. *)
Theorem chat_page_log_bound env w ev :
  outcome (chat_page env w ev) = Done ->
  messages (session_state (world (chat_page env w ev)))
  = Some (log (chat_page env w ev))
  /\ (length (log (chat_page env w ev)) <= 15)%nat.
Proof.
  intros Ho. destruct (chat_page_written env w ev) as (_ & _ & _ & Hm).
  destruct (Hm Ho) as (msgs & Hmsgs & Hlen).
  unfold log. rewrite Hmsgs. done.
Qed.

Lemma chat_page_log_bound_eight :
  (length (log (chat_page (reading (answering "ok")) (after_eight DocMode) Idle))
   <= 15)%nat.
Proof.
  apply (chat_page_log_bound (reading (answering "ok")) (after_eight DocMode) Idle).
  reflexivity.
Defined.

(** ** What the automatic save stores *)

Lemma chat_question_stored env w config msgs prompt answer :
  current_agent_config (session_state w) = Some config ->
  messages (session_state w) = Some msgs ->
  prompt <> [] ->
  (ask_agent env config (agent (session_state w))
     (chat_prompt env config (msgs ++ [user_turn env prompt]) prompt)).2
  = Ok answer ->
  forallb scalar_turn (msgs ++ [user_turn env prompt; reply_turn env answer])
  = true ->
  let r := chat_page env w (ChatInput prompt) in
  outcome r = Done
  /\ log r = trim ChatMode (msgs ++ [user_turn env prompt; reply_turn env answer])
  /\ load_agent_history (files (world r)) (get_agent_id env config)
     = Ok (msgs ++ [user_turn env prompt; reply_turn env answer])
  /\ written_at (history_path (get_agent_id env config)) (files w)
       (files (world r)).
Proof.
  intros Hc Hm Hp Hask Hs.
  destruct (stored_roundtrip _ Hs) as (data & Henc & Hload).
  assert (Hopen : opening ChatMode env config w = msgs)
    by (unfold opening; now rewrite Hm).
  destruct (page_question_ok ChatMode env w config prompt answer data Hc Hp)
    as (Ho & Hlog & Hf).
  - now rewrite Hopen.
  - now rewrite Hopen.
  - cbn [page] in *. rewrite Hopen in Hlog.
    split; [exact Ho|]. split; [exact Hlog|]. split.
    + apply Hload. rewrite Hf. apply lookup_insert_eq.
    + destruct (chat_page_written env w (ChatInput prompt)) as (_ & _ & Hw & _).
      now apply Hw.
Qed.

(** X6: on the chat page an answered question rewrites the history file
    of the day with the log of the session, question and answer included,
    whatever the file held before (the agent id naming a file of the
    history directory, the turns being turns the page can display).  Since
    a session starts a question with at most 15 turns, the stored history
    never holds more than 17: turns the cap has taken off the log are no
    longer in the file. *)
Theorem stored_history_is_the_log env w config msgs prompt answer :
  current_agent_config (session_state w) = Some config ->
  messages (session_state w) = Some msgs ->
  (length msgs <= 15)%nat ->
  prompt <> [] ->
  (ask_agent env config (agent (session_state w))
     (chat_prompt env config (msgs ++ [user_turn env prompt]) prompt)).2
  = Ok answer ->
  file_name (get_agent_id env config) = true ->
  forallb displayable (msgs ++ [user_turn env prompt; reply_turn env answer])
  = true ->
  exists stored,
    load_agent_history (files (world (chat_page env w (ChatInput prompt))))
      (get_agent_id env config) = Ok stored
    /\ stored = msgs ++ [user_turn env prompt; reply_turn env answer]
    /\ (length stored <= 17)%nat
    /\ log (chat_page env w (ChatInput prompt)) = trim ChatMode stored.
Proof.
  intros Hc Hm Hlen Hp Hask _ Hs%displayable_scalar.
  destruct (chat_question_stored env w config msgs prompt answer Hc Hm Hp Hask Hs)
    as (_ & Hlog & Hload & _).
  eexists. split; [exact Hload|]. split; [reflexivity|]. split; [|exact Hlog].
  rewrite length_app. simpl. lia.
Qed.

Lemma chat_page_clear env w config :
  current_agent_config (session_state w) = Some config ->
  let c := chat_page env w ClearButton in
  outcome c = Done
  /\ messages (session_state (world c)) = Some []
  /\ agent (session_state (world c)) = None
  /\ files (world c) = files w
  /\ current_agent_config (session_state (world c)) = Some config.
Proof.
  intros Hc. unfold chat_page, chat_main. rewrite Hc. cbn [outcome world].
  cbn [session_state current_agent_config set_agent set_messages]. rewrite Hc.
  pose proof (chat_column_quiet env config
    {| session_state := set_agent None (set_messages (Some []) (session_state w));
       files := files w |} Idle [] eq_refl) as (Hag & Hf & _ & Hcfg & Ho & Hlog & _).
  destruct (chat_column_written env config
    {| session_state := set_agent None (set_messages (Some []) (session_state w));
       files := files w |} Idle []) as (_ & _ & _ & msgs & Hm & _).
  cbv zeta in *. split; [exact Ho|]. split; [|split; [exact Hag|]].
  - unfold log in Hlog. rewrite Hm in Hlog. cbn in Hlog. now rewrite Hm, Hlog.
  - split; [exact Hf|]. rewrite Hcfg. exact Hc.
Qed.

(** X7: after the clear button, the next answered question of the chat
    page leaves a log of that question and its answer only, asks a newly
    built agent, and rewrites the history file of the day with these two
    turns: the turns stored there before are gone (the agent id naming a
    file of the history directory, the two turns being turns the page can
    display). *)
Theorem clear_then_question_restarts_history env0 env w config prompt answer :
  current_agent_config (session_state w) = Some config ->
  prompt <> [] ->
  (ask_agent env config None
     (chat_prompt env config [user_turn env prompt] prompt)).2 = Ok answer ->
  file_name (get_agent_id env config) = true ->
  forallb displayable [user_turn env prompt; reply_turn env answer] = true ->
  let r := chat_page env (world (chat_page env0 w ClearButton))
             (ChatInput prompt) in
  outcome r = Done
  /\ log r = [user_turn env prompt; reply_turn env answer]
  /\ load_agent_history (files (world r)) (get_agent_id env config)
     = Ok [user_turn env prompt; reply_turn env answer].
Proof.
  intros Hc Hp Hask _ Hs%displayable_scalar.
  destruct (chat_page_clear env0 w config Hc) as (_ & Hm & Hag & _ & Hc').
  cbv zeta in *.
  destruct (chat_question_stored env (world (chat_page env0 w ClearButton))
              config [] prompt answer Hc' Hm Hp)
    as (Ho & Hlog & Hload & _).
  - now rewrite Hag.
  - exact Hs.
  - split; [exact Ho|]. split; [exact Hlog|exact Hload].
Qed.

(** X8: after a stored history has been loaded, the next answered question
    of the chat page writes the loaded turns (the last 15 of them), the
    question and the answer into the history file of the current day;
    when the loaded history is that of another id, its own file is left as
    it was (the agent id of the day naming a file of the history directory,
    the loaded and the new turns being turns the page can display). *)
Theorem load_then_question_copies_history env0 env w config h msgs prompt answer :
  current_agent_config (session_state w) = Some config ->
  is_history (files w) config h = true ->
  load_agent_history (files w) h = Ok msgs ->
  prompt <> [] ->
  (ask_agent env config (agent (session_state w))
     (chat_prompt env config (trim ChatMode msgs ++ [user_turn env prompt])
        prompt)).2 = Ok answer ->
  file_name (get_agent_id env config) = true ->
  forallb displayable (msgs ++ [user_turn env prompt; reply_turn env answer])
  = true ->
  let r := chat_page env (world (chat_page env0 w (LoadButton h)))
             (ChatInput prompt) in
  outcome r = Done
  /\ load_agent_history (files (world r)) (get_agent_id env config)
     = Ok (trim ChatMode msgs ++ [user_turn env prompt; reply_turn env answer])
  /\ (h <> get_agent_id env config ->
      load_agent_history (files (world r)) h = Ok msgs).
Proof.
  intros Hc Hh Hl Hp Hask _ Hd.
  assert (Hs : forallb scalar_turn
                 (trim ChatMode msgs
                  ++ [user_turn env prompt; reply_turn env answer]) = true).
  { apply displayable_scalar. rewrite forallb_app in Hd |- *.
    apply andb_prop in Hd as [Hd1 Hd2].
    now rewrite (forallb_trim ChatMode msgs Hd1), Hd2. }
  destruct (chat_page_load_frame env0 w h) as (Hag & Hf & _ & Hcfg).
  destruct (chat_page_load_log env0 w h config msgs Hc Hh Hl) as (Ho1 & Hlog1).
  destruct (chat_page_written env0 w (LoadButton h)) as (_ & _ & _ & Hm1).
  destruct (Hm1 Ho1) as (m1 & Hm & _).
  assert (m1 = trim ChatMode msgs) as ->.
  { unfold log in Hlog1. now rewrite Hm in Hlog1. }
  cbv zeta in *.
  destruct (chat_question_stored env (world (chat_page env0 w (LoadButton h)))
              config (trim ChatMode msgs) prompt answer)
    as (Ho & _ & Hload & Hw); try assumption.
  - congruence.
  - now rewrite Hag.
  - split; [exact Ho|]. split; [exact Hload|].
    intros Hne. unfold load_agent_history.
    destruct Hw as [Hother _]. rewrite Hother, Hf.
    + exact Hl.
    + intros Heq. now apply history_path_inj in Heq.
Qed.

(** ** The history given to the model on the document page *)

Lemma slice_last_app {A} n (older recent : list A) :
  (n <= length recent)%nat ->
  slice_last n (older ++ recent) = slice_last n recent.
Proof.
  intros H. unfold slice_last. rewrite length_app.
  rewrite drop_app_ge by lia. f_equal. lia.
Qed.

(** X11: the history put in the prompt of the document page is made of
    the last five turns only: turns before them change neither
    [get_recent_history] nor the prompt. *)
Theorem recent_history_is_the_last_five env config older recent prompt :
  (5 <= length recent)%nat ->
  get_recent_history (older ++ recent) = get_recent_history recent
  /\ doc_prompt env config (older ++ recent) prompt
     = doc_prompt env config recent prompt
  /\ length (slice_last 5 (older ++ recent)) = 5%nat.
Proof.
  intros H.
  assert (Hg : get_recent_history (older ++ recent) = get_recent_history recent).
  { unfold get_recent_history. now rewrite slice_last_app. }
  split; [exact Hg|]. split.
  - unfold doc_prompt. now rewrite Hg.
  - rewrite slice_last_app by exact H. unfold slice_last.
    rewrite length_drop. lia.
Qed.

Lemma recent_history_is_the_last_five_turns :
  get_recent_history (an_old_turn :: five_turns) = get_recent_history five_turns.
Proof.
  apply (recent_history_is_the_last_five (reading (answering "ok")) scenario_abc
           [an_old_turn] five_turns []).
  simpl. lia.
Defined.

(** ** Page extraction *)

Lemma read_pages_all_ok k raws :
  read_pages k (map Ok raws) = Ok (imap (fun i raw => page_of (k + i + 1) raw) raws).
Proof.
  revert k. induction raws as [|raw raws IH]; intros k; [reflexivity|].
  cbn [map read_pages mbind Result_bind]. rewrite IH. cbn [mbind Result_bind].
  rewrite imap_cons. do 2 f_equal.
  - unfold page_of. f_equal. lia.
  - apply imap_ext. intros i x _. cbn. f_equal. lia.
Qed.

Lemma read_pages_raise k raws e rest :
  read_pages k (map Ok raws ++ Raise e :: rest) = Raise e.
Proof.
  revert k. induction raws as [|raw raws IH]; intros k; [reflexivity|].
  cbn [map app read_pages mbind Result_bind]. now rewrite IH.
Qed.

Lemma page_of_preview n raw :
  (length (preview (page_of n raw)) <= 103)%nat
  /\ take 100 (page_content (page_of n raw))
     = take 100 (preview (page_of n raw)).
Proof.
  unfold page_of. cbn [preview page_content].
  destruct (decide _) as [H|H].
  - split.
    + rewrite length_app, length_take. change (length (lit "...")) with 3%nat. lia.
    + rewrite take_app_le by (rewrite length_take; lia).
      now rewrite take_take, Nat.min_id.
  - split; [lia|reflexivity].
Qed.

(** X12: when the document opens and every page gives its text,
    [extract_pdf_content] returns one record per page, in page order and
    numbered from 1, whose content is the trimmed text of the page and
    whose preview is the content when it has at most 100 characters and
    its first 100 characters followed by three dots otherwise; no error is
    shown. *)
Theorem extract_pdf_content_pages env fs pdf_path data raws :
  fs !! pdf_path = Some data ->
  fitz_open env data = Ok (map Ok raws) ->
  let r := extract_pdf_content env fs pdf_path in
  r.2 = []
  /\ length r.1 = length raws
  /\ forall i raw,
       raws !! i = Some raw ->
       exists p,
         r.1 !! i = Some p
         /\ page_num p = (i + 1)%nat
         /\ page_content p = strip raw
         /\ strip (page_content p) = page_content p
         /\ ((length (page_content p) <= 100)%nat -> preview p = page_content p)
         /\ ((100 < length (page_content p))%nat ->
             preview p = take 100 (page_content p) ++ lit "...")
         /\ (length (preview p) <= 103)%nat.
Proof.
  intros Hf Ho. unfold extract_pdf_content. rewrite Hf, Ho.
  cbn [mbind Result_bind]. rewrite read_pages_all_ok. cbn [fst snd].
  split; [reflexivity|]. split; [apply length_imap|].
  intros i raw Hi. exists (page_of (i + 1) raw).
  split; [rewrite list_lookup_imap, Hi; reflexivity|].
  split; [reflexivity|]. split; [reflexivity|].
  split; [apply strip_idemp|].
  split; [|split; [|apply page_of_preview]].
  - unfold page_of. cbn [preview page_content]. intros H.
    destruct (decide _); [lia|reflexivity].
  - unfold page_of. cbn [preview page_content]. intros H.
    destruct (decide _); [reflexivity|lia].
Qed.

Lemma extract_pdf_content_pages_uno :
  (extract_pdf_content (reading (answering "ok")) pdf_files a_pdf).1
  = [page_of 1 (lit " Uno "); page_of 2 (lit "Dos")].
Proof.
  destruct (extract_pdf_content_pages (reading (answering "ok")) pdf_files a_pdf
              [37; 80; 68; 70] [lit " Uno "; lit "Dos"] eq_refl eq_refl)
    as (_ & _ & _).
  reflexivity.
Defined.

(** X13: extraction is all or nothing.  When the document cannot be
    opened, or when a page fails after others have been read, the result is
    the empty list, the pages already read are dropped, and the error is
    shown in one error box; no exception leaves the function. *)
Theorem extract_pdf_content_all_or_nothing env fs pdf_path data e :
  fs !! pdf_path = Some data ->
  fitz_open env data = Raise e
  \/ (exists raws rest, fitz_open env data = Ok (map Ok raws ++ Raise e :: rest)) ->
  extract_pdf_content env fs pdf_path
  = ([], [ErrorBox (lit "Error al extraer contenido del PDF: " ++ e)]).
Proof.
  intros Hf H. unfold extract_pdf_content. rewrite Hf.
  destruct H as [->|(raws & rest & ->)]; cbn [mbind Result_bind];
    [reflexivity|].
  now rewrite read_pages_raise.
Qed.

Lemma extract_pdf_content_all_or_nothing_broken :
  extract_pdf_content broken_reader pdf_files a_pdf
  = ([], [ErrorBox (lit "Error al extraer contenido del PDF: damaged page")]).
Proof.
  apply (extract_pdf_content_all_or_nothing broken_reader pdf_files a_pdf
           [37; 80; 68; 70] (lit "damaged page") eq_refl).
  right. exists [lit "Uno"], []. reflexivity.
Defined.

(** X14: an extraction that gave no page is kept in the cache like any
    other: for the rest of the session the viewer does not try again, even
    when the file or the reader have become good, and shows that the
    content could not be extracted. *)
Theorem empty_extraction_is_not_retried env1 fs1 ss pdf_path env2 fs2 :
  pdf_path <> [] ->
  is_Some (fs1 !! pdf_path) ->
  is_Some (fs2 !! pdf_path) ->
  cached_pages ss pdf_path = None ->
  (extract_pdf_content env1 fs1 pdf_path).1 = [] ->
  let ss1 := (display_content_viewer env1 fs1 ss pdf_path).1.1.1 in
  cached_pages ss1 pdf_path = Some []
  /\ display_content_viewer env2 fs2 ss1 pdf_path
     = (ss1, [ErrorBox (lit "No se pudo extraer el contenido del documento.")],
        [], Ok ()).
Proof.
  intros Hp Hf1 Hf2 Hc Hx.
  assert (Hss1 : cached_pages (display_content_viewer env1 fs1 ss pdf_path).1.1.1
                   pdf_path = Some []).
  { destruct (display_content_viewer_calls env1 fs1 ss pdf_path)
      as [[Hcalls Hpdf]|(_ & _ & _ & _ & Hpdf)].
    - exfalso. revert Hcalls. unfold display_content_viewer.
      rewrite (bool_decide_eq_false_2 _ Hp), (bool_decide_eq_true_2 _ Hf1).
      cbn [orb negb]. unfold cached_pages in Hc. rewrite Hc.
      destruct (extract_pdf_content env1 fs1 pdf_path) as [pages shown].
      cbn [fst snd pdf_content set_pdf_content]. rewrite lookup_insert_eq.
      cbn [default from_option id]. destruct pages as [|p pages]; [discriminate|].
      destruct (_ !! selected_page env1); discriminate.
    - unfold cached_pages. rewrite Hpdf, lookup_insert_eq, Hx. reflexivity. }
  cbv zeta. split; [exact Hss1|].
  set (ss1 := (display_content_viewer env1 fs1 ss pdf_path).1.1.1) in *.
  clearbody ss1. unfold cached_pages in Hss1. unfold display_content_viewer.
  rewrite (bool_decide_eq_false_2 _ Hp), (bool_decide_eq_true_2 _ Hf2).
  cbn [orb negb]. rewrite Hss1. cbn [default from_option id]. rewrite Hss1.
  reflexivity.
Qed.

Lemma empty_extraction_is_not_retried_broken :
  display_content_viewer (reading (answering "ok")) pdf_files
    (display_content_viewer broken_reader pdf_files
       (session_state (fresh scenario_abc)) a_pdf).1.1.1 a_pdf
  = ((display_content_viewer broken_reader pdf_files
        (session_state (fresh scenario_abc)) a_pdf).1.1.1,
     [ErrorBox (lit "No se pudo extraer el contenido del documento.")],
     [], Ok ()).
Proof.
  assert (Hf : is_Some (pdf_files !! a_pdf)) by (eexists; reflexivity).
  destruct (empty_extraction_is_not_retried broken_reader pdf_files
              (session_state (fresh scenario_abc)) a_pdf
              (reading (answering "ok")) pdf_files) as (_ & H);
    [discriminate|exact Hf|exact Hf|reflexivity|reflexivity|exact H].
Defined.

(** ** The paths of the documents *)

Lemma last_app_cons {A} (l : list A) x y : last (l ++ [x]) = Some y -> x = y.
Proof. rewrite last_snoc. now intros [= ->]. Qed.

Lemma folder_pdf_path folder :
  folder <> [] -> startswith [47] folder = false -> last folder <> Some 47 ->
  os_path_join (lit "processed_docs") [folder; folder ++ lit ".pdf"]
  = folder_pdf folder.
Proof.
  intros Hne Hs Hl. unfold os_path_join, folder_pdf. cbn [foldl].
  assert (H1 : path_join2 (lit "processed_docs") folder
               = lit "processed_docs/" ++ folder).
  { unfold path_join2. rewrite Hs. reflexivity. }
  rewrite H1. unfold path_join2.
  assert (Hs' : startswith [47] (folder ++ lit ".pdf") = false).
  { destruct folder as [|c s]; [done|]. cbn in *. now rewrite andb_true_r in *. }
  rewrite Hs'.
  assert (Hl' : last (lit "processed_docs/" ++ folder) <> Some 47).
  { destruct (exists_last Hne) as (l & x & ->).
    rewrite app_assoc, last_snoc. rewrite last_snoc in Hl. exact Hl. }
  rewrite (bool_decide_eq_false_2 _ Hl').
  assert (Hn : lit "processed_docs/" ++ folder <> []) by discriminate.
  rewrite (bool_decide_eq_false_2 _ Hn). cbn [orb].
  now rewrite <- !app_assoc.
Qed.

Lemma folder_pdf_inj a b : folder_pdf a = folder_pdf b -> a = b.
Proof.
  unfold folder_pdf. intros H. apply app_inv_head in H.
  assert (Hlen : length a = length b).
  { apply (f_equal length) in H. rewrite !length_app in H. cbn in H. lia. }
  now apply app_inj_1 in H as [H _].
Qed.

(** X15: the path [get_document_info] gives each index, entry by entry
    and in the order of the configuration.  A plain folder name gives
    processed_docs/name/name.pdf, and different such names give different
    paths; an index without folder name gives processed_docs/.pdf, so all
    such indexes share one path; a folder name that starts with a slash
    leaves the folder of the documents: its path is the name followed by
    the extension. *)
Theorem document_paths stores i vs :
  stores !! i = Some vs ->
  exists path,
    get_document_info stores !! i = Some (title vs, path, hash vs)
    /\ (hash vs = [] -> path = lit "processed_docs/.pdf")
    /\ (startswith [47] (hash vs) = true -> path = hash vs ++ lit ".pdf")
    /\ (hash vs <> [] -> startswith [47] (hash vs) = false ->
        last (hash vs) <> Some 47 ->
        path = folder_pdf (hash vs)
        /\ forall j vs',
             stores !! j = Some vs' ->
             get_document_info stores !! j = Some (title vs', path, hash vs') ->
             hash vs' <> [] -> startswith [47] (hash vs') = false ->
             last (hash vs') <> Some 47 ->
             hash vs' = hash vs).
Proof.
  intros Hi.
  exists (os_path_join (lit "processed_docs") [hash vs; hash vs ++ lit ".pdf"]).
  split.
  { unfold get_document_info. rewrite list_lookup_fmap, Hi. reflexivity. }
  split; [intros ->; reflexivity|]. split.
  - intros Hs. unfold os_path_join, path_join2. cbn [foldl]. rewrite Hs.
    destruct (hash vs) as [|c s]; [discriminate|]. cbn in Hs |- *.
    now rewrite Hs.
  - intros Hne Hs Hl. split; [now apply folder_pdf_path|].
    intros j vs' Hj Hinfo Hne' Hs' Hl'.
    unfold get_document_info in Hinfo. rewrite list_lookup_fmap, Hj in Hinfo.
    cbn [fmap option_fmap option_map] in Hinfo.
    assert (Hpath : os_path_join (lit "processed_docs")
                      [hash vs'; hash vs' ++ lit ".pdf"]
                    = os_path_join (lit "processed_docs")
                        [hash vs; hash vs ++ lit ".pdf"]) by congruence.
    rewrite !folder_pdf_path in Hpath by assumption.
    now apply folder_pdf_inj.
Qed.

Lemma document_paths_odd :
  get_document_info odd_stores
  = [ (lit "Uno", a_pdf, lit "Uno");
      (lit "Sin carpeta", lit "processed_docs/.pdf", []);
      (lit "Fuera", lit "/tmp/x.pdf", lit "/tmp/x") ].
Proof.
  destruct (document_paths odd_stores 0 (store "Uno" (Ok [])) eq_refl)
    as (_ & _ & _).
  reflexivity.
Defined.

(** ** When the search answers that it found nothing *)

Lemma add_doc_nonempty source results doc :
  Forall is_block results ->
  exists rs, add_doc source results doc = Ok rs /\ Forall is_block rs /\ rs <> [].
Proof.
  intros Hb. unfold add_doc.
  destruct (result_keys_total results Hb) as [ks Hks]. rewrite Hks.
  cbn [mbind Result_bind]. case_bool_decide as Hin.
  - eexists. split; [reflexivity|]. split; [exact Hb|].
    intros ->. cbn in Hks. injection Hks as <-. set_solver.
  - eexists. split; [reflexivity|]. split.
    + apply Forall_app; split; [exact Hb|].
      constructor; [|constructor]. red; eauto.
    + now destruct results.
Qed.

Lemma add_docs_grows source results docs :
  Forall is_block results ->
  exists rs,
    add_docs source results docs = Ok rs
    /\ Forall is_block rs
    /\ (results <> [] \/ docs <> [] -> rs <> [])
    /\ (docs = [] -> rs = results).
Proof.
  revert results. induction docs as [|d docs IH]; intros results Hb.
  - cbn. exists results. split; [reflexivity|]. split; [exact Hb|].
    split; [|reflexivity]. now intros [H|H].
  - cbn [add_docs].
    destruct (add_doc_nonempty source results d Hb) as (rs1 & -> & Hb1 & Hne).
    cbn [mbind Result_bind].
    destruct (IH rs1 Hb1) as (rs & -> & Hbr & Hn & _).
    exists rs. split; [reflexivity|]. split; [exact Hbr|].
    split; [|discriminate]. intros _. apply Hn. now left.
Qed.

Lemma scan_stores_nonempty query stores results ps :
  retrieved query stores = Ok ps ->
  Forall is_block results ->
  exists rs,
    scan_stores query stores results = Ok rs
    /\ (results <> [] \/ ps <> [] -> rs <> [])
    /\ (results = [] -> ps = [] -> rs = []).
Proof.
  revert results ps. induction stores as [|vs stores IH]; intros results ps Hr Hb.
  - cbn in *. injection Hr as <-. exists results.
    split; [reflexivity|]. split.
    + now intros [H|H].
    + now intros ->.
  - cbn [retrieved scan_stores] in *.
    destruct (retriever vs query) as [docs|e]; [|discriminate].
    cbn [mbind Result_bind] in *.
    destruct (retrieved query stores) as [ps'|e]; [|discriminate].
    cbn [mbind Result_bind] in Hr. injection Hr as <-.
    destruct (add_docs_grows (title vs) results docs Hb)
      as (rs1 & -> & Hb1 & Hn1 & He1).
    cbn [mbind Result_bind].
    destruct (IH rs1 ps' eq_refl Hb1) as (rs & -> & Hn & He).
    exists rs. split; [reflexivity|]. split.
    + intros [H|H]; apply Hn.
      * left. apply Hn1. now left.
      * destruct docs as [|d docs]; [right; exact H|].
        left. apply Hn1. now right.
    + intros -> Hps. apply app_eq_nil in Hps as [Hd ->].
      apply fmap_nil_inv in Hd. subst docs.
      apply He; [now apply He1|reflexivity].
Qed.

(** X17: when every index answers, [search_documents] gives the sentence
    that nothing was found exactly when the indexes returned no passage at
    all.  As soon as one passage was returned the answer is made of the
    non-empty list of collected blocks cut at the window: all of them when
    the window is at least their number, and the empty text, not that
    sentence, when the window is zero. *)
Theorem search_documents_nothing_found config query ps :
  retrieved query (vectorstores config) = Ok ps ->
  (ps = [] -> search_documents config query = no_info)
  /\ (ps <> [] ->
      exists results,
        scan_stores query (vectorstores config) [] = Ok results
        /\ results <> []
        /\ search_documents config query
           = join blank_line (slice_to (context_window config) results)
        /\ (context_window config = 0%Z -> search_documents config query = [])
        /\ ((Z.of_nat (length results) <= context_window config)%Z ->
            search_documents config query = join blank_line results)).
Proof.
  intros Hr.
  destruct (scan_stores_nonempty query (vectorstores config) [] ps Hr)
    as (rs & Hscan & Hn & He); [constructor|].
  split.
  - intros Hps. unfold search_documents. rewrite Hscan.
    now rewrite (He eq_refl Hps).
  - intros Hps. exists rs. split; [exact Hscan|].
    assert (Hne : rs <> []) by (apply Hn; now right).
    split; [exact Hne|].
    assert (Hs : search_documents config query
                 = join blank_line (slice_to (context_window config) rs)).
    { unfold search_documents. rewrite Hscan. now destruct rs. }
    split; [exact Hs|]. split.
    + intros H0. rewrite Hs, H0. reflexivity.
    + intros Hle. rewrite Hs. unfold slice_to.
      destruct (Z.ltb_spec (context_window config) 0); [lia|].
      now rewrite take_ge by lia.
Qed.

Lemma search_documents_nothing_found_zero :
  search_documents scenario_zero (lit "a") = []
  /\ search_documents (tutor 3 odd_stores) (lit "a") = no_info.
Proof.
  split.
  - destruct (search_documents_nothing_found scenario_zero (lit "a") _ eq_refl)
      as (_ & H).
    destruct H as (results & _ & _ & _ & H0 & _); [discriminate|].
    exact (H0 eq_refl).
  - destruct (search_documents_nothing_found (tutor 3 odd_stores) (lit "a") _
                eq_refl) as (H & _).
    exact (H eq_refl).
Defined.

(** ** Sessions that show the properties of the stored history *)

Lemma page_writes_only_its_history_fresh :
  world (page DocMode (reading (answering "ok"))
           {| session_state :=
                {| current_agent_config := None; messages := None;
                   agent := None; pdf_content := ∅ |};
              files := pdf_files |}
           (ChatInput (lit "hola")))
  = {| session_state :=
         {| current_agent_config := None; messages := None;
            agent := None; pdf_content := ∅ |};
       files := pdf_files |}.
Proof.
  destruct (page_writes_only_its_history DocMode (reading (answering "ok"))
              {| session_state :=
                   {| current_agent_config := None; messages := None;
                      agent := None; pdf_content := ∅ |};
                 files := pdf_files |}
              (ChatInput (lit "hola"))) as (_ & _ & _ & H).
  exact (H eq_refl).
Defined.

Lemma stored_history_is_the_log_after_one :
  exists stored,
    load_agent_history
      (files (world (chat_page (reading (answering "ok")) after_one
                       (ChatInput (lit "otra")))))
      (get_agent_id (reading (answering "ok")) scenario_abc) = Ok stored
    /\ (length stored <= 17)%nat.
Proof.
  destruct (stored_history_is_the_log (reading (answering "ok")) after_one
              scenario_abc (default [] (messages (session_state after_one)))
              (lit "otra") (lit "ok"))
    as (stored & Hl & _ & Hlen & _).
  - reflexivity.
  - vm_compute. reflexivity.
  - vm_compute. lia.
  - discriminate.
  - vm_compute. reflexivity.
  - vm_compute. reflexivity.
  - vm_compute. reflexivity.
  - exists stored. split; [exact Hl|exact Hlen].
Defined.

Lemma clear_then_question_restarts_history_after_one :
  log (chat_page (reading (answering "ok"))
         (world (chat_page (reading (answering "ok")) after_one ClearButton))
         (ChatInput (lit "otra")))
  = [user_turn (reading (answering "ok")) (lit "otra");
     reply_turn (reading (answering "ok")) (lit "ok")].
Proof.
  destruct (clear_then_question_restarts_history (reading (answering "ok"))
              (reading (answering "ok")) after_one scenario_abc
              (lit "otra") (lit "ok")) as (_ & Hlog & _).
  - reflexivity.
  - discriminate.
  - vm_compute. reflexivity.
  - vm_compute. reflexivity.
  - vm_compute. reflexivity.
  - exact Hlog.
Defined.

Lemma load_then_question_copies_history_advanced :
  load_agent_history
    (files (world (chat_page (reading (answering "ok"))
                     (world (chat_page (reading (answering "ok"))
                               (visiting (stored_for advanced))
                               (LoadButton
                                  (get_agent_id (reading (answering "ok"))
                                     advanced))))
                     (ChatInput (lit "otra")))))
    (get_agent_id (reading (answering "ok")) advanced)
  = Ok greeting.
Proof.
  destruct (load_then_question_copies_history (reading (answering "ok"))
              (reading (answering "ok")) (visiting (stored_for advanced))
              scenario_abc
              (get_agent_id (reading (answering "ok")) advanced)
              greeting (lit "otra") (lit "ok")) as (_ & _ & H).
  - reflexivity.
  - vm_compute. reflexivity.
  - vm_compute. reflexivity.
  - discriminate.
  - vm_compute. reflexivity.
  - vm_compute. reflexivity.
  - vm_compute. reflexivity.
  - apply H. intros Heq. vm_compute in Heq. discriminate.
Defined.

(** ** The question in the prompt of the document page *)

Lemma join_snoc sep parts p : exists before, join sep (parts ++ [p]) = before ++ p.
Proof.
  induction parts as [|q parts [before IH]]; [now exists []|].
  exists (q ++ sep ++ before).
  change ((q :: parts) ++ [p]) with (q :: (parts ++ [p])).
  destruct (parts ++ [p]) as [|x rest] eqn:E; [now destruct parts|].
  cbn [join]. cbn [join] in IH. rewrite IH. now rewrite <- !app_assoc.
Qed.

Lemma slice_last_snoc {A} n (l : list A) x :
  exists l', slice_last (S n) (l ++ [x]) = l' ++ [x].
Proof.
  exists (drop (length l - n) l). unfold slice_last.
  rewrite length_app. cbn [length].
  rewrite drop_app_le by lia. f_equal. f_equal. lia.
Qed.

(** X16: on both pages the question is put on the log before the input
    of the agent is built, so on the document page the recent history of
    that input always ends with the question itself, which the input then
    repeats as the current query. *)
Theorem doc_prompt_repeats_the_question env config msgs prompt :
  exists before after,
    doc_prompt env config (msgs ++ [user_turn env prompt]) prompt
    = before ++ lit "Human: " ++ prompt
      ++ [10] ++ lit "                        "
      ++ [10] ++ lit "                        "
      ++ lit "Consulta actual: " ++ prompt ++ after.
Proof.
  destruct (slice_last_snoc 4 msgs (user_turn env prompt)) as [l' Hl].
  unfold doc_prompt, get_recent_history. rewrite Hl, map_app. cbn [map].
  match goal with |- context [join ?s (?xs ++ [?x])] =>
    destruct (join_snoc s xs x) as [before ->] end.
  rewrite bool_decide_eq_true_2 by reflexivity. cbn [content user_turn].
  cbv zeta.
  exists (lit "Actúa como " ++ name config ++ lit ", un " ++ agent_role config
          ++ lit " con estilo " ++ lower env (style config) ++ lit "."
          ++ ([10] ++ lit "                        ")
          ++ ([10] ++ lit "                        ")
          ++ lit "Historial reciente:"
          ++ ([10] ++ lit "                        ") ++ before).
  eexists.
  rewrite <- !app_assoc. reflexivity.
Qed.

(** ** The save button *)

Lemma encode_needs_scalar msgs data :
  utf8_encode (json_dumps msgs) = Some data -> forallb scalar_turn msgs = true.
Proof.
  intros He. apply utf8_encode_scalar in He.
  destruct msgs as [|t ts]; [reflexivity|].
  unfold json_dumps in He.
  change (lit "[" ++ [10] ++ lit "  " ++ json_items (t :: ts) ++ [10] ++ lit "]")
    with (91 :: 10 :: 32 :: 32 :: (json_items (t :: ts) ++ [10; 93])) in He.
  cbn [forallb] in He. eapply json_items_scalar. exact He.
Qed.

(** X18: the save button of the chat page, for an agent id that names a
    file of the history directory.  With a non-empty log of turns the page
    can display, the log is stored in the history file of the day, from
    where it loads back, and the success box is shown.  With an empty log
    nothing is written and no success box is shown.  When the log cannot
    be encoded the error is not caught as it is for a question: it leaves
    the script, nothing is displayed, and the log stays as it was. *)
Theorem save_button_stores_the_log env w config msgs :
  current_agent_config (session_state w) = Some config ->
  messages (session_state w) = Some msgs ->
  file_name (get_agent_id env config) = true ->
  let r := chat_page env w SaveButton in
  let saved := SuccessBox (lit "✅ Historial guardado correctamente") in
  (msgs = [] -> outcome r = Done /\ files (world r) = files w /\ saved ∉ ui r)
  /\ (msgs <> [] -> forallb displayable msgs = true ->
      outcome r = Done
      /\ load_agent_history (files (world r)) (get_agent_id env config) = Ok msgs
      /\ saved ∈ ui r
      /\ log r = trim ChatMode msgs)
  /\ (forallb scalar_turn msgs = false ->
      exists e, outcome r = Uncaught e /\ ui r = []
                /\ messages (session_state (world r)) = Some msgs).
Proof.
  intros Hc Hm _. cbv zeta. split; [|split].
  - intros ->. unfold chat_page, chat_main. rewrite Hc, Hm.
    pose proof (chat_column_quiet env config w SaveButton [] eq_refl)
      as (_ & Hf & _ & _ & Ho & _).
    cbv zeta in *. rewrite Ho. split; [exact Ho|]. split; [exact Hf|].
    unfold chat_column. rewrite Hm. cbn. set_solver.
  - intros Hne Hs%displayable_scalar.
    destruct (stored_roundtrip msgs Hs) as (data & Henc & Hload).
    unfold chat_page, chat_main. rewrite Hc, Hm.
    destruct msgs as [|t ts]; [done|].
    unfold save_agent_history. rewrite Henc.
    set (w' := {| session_state := session_state w;
                  files := <[history_path (get_agent_id env config) := data]>
                             (files w) |}).
    pose proof (chat_column_quiet env config w' SaveButton
                  [SuccessBox (lit "✅ Historial guardado correctamente")] eq_refl)
      as (_ & Hf & _ & _ & Ho & Hlog & _).
    cbv zeta in *. rewrite Ho. split; [exact Ho|]. split; [|split].
    + apply Hload. rewrite Hf. subst w'. cbn [files]. apply lookup_insert_eq.
    + unfold chat_column. subst w'. cbn [session_state]. rewrite Hm. cbn.
      set_solver.
    + rewrite Hlog. unfold opening. subst w'. cbn [session_state].
      now rewrite Hm.
  - intros Hs.
    destruct (utf8_encode (json_dumps msgs)) as [data|] eqn:Henc.
    { apply encode_needs_scalar in Henc. congruence. }
    destruct msgs as [|t ts]; [discriminate|].
    unfold chat_page, chat_main. rewrite Hc, Hm.
    unfold save_agent_history. rewrite Henc. cbn.
    eexists. split; [reflexivity|]. split; [reflexivity|exact Hm].
Qed.

Lemma save_button_stores_the_log_after_one :
  load_agent_history
    (files (world (chat_page (reading (answering "ok")) after_one SaveButton)))
    (get_agent_id (reading (answering "ok")) scenario_abc)
  = Ok (default [] (messages (session_state after_one))).
Proof.
  destruct (save_button_stores_the_log (reading (answering "ok")) after_one
              scenario_abc (default [] (messages (session_state after_one))))
    as (_ & H & _).
  - reflexivity.
  - vm_compute. reflexivity.
  - vm_compute. reflexivity.
  - destruct H as (_ & Hl & _).
    + vm_compute. discriminate.
    + vm_compute. reflexivity.
    + exact Hl.
Defined.
